(** * Django-Excel-Adapter: the staging buffer and the table definition

    A shallow embedding of [adapter.py] (classes [AdapterStaging], [Column]
    and [BaseAdapter]) and the properties of its staging/commit engine.

    Conventions of the embedding.
    - A Python [dict] is an association list in insertion order: [d[k] = v]
      keeps the position of a key that is already present and appends a new
      key at the end, which is the order [.items()] iterates in.
    - A Python exception is a value of [exn]; a call that may raise returns
      [exn + A].  Inside [commit] the objects that Python mutates in place
      (the buffer, the store, the counter [rows_updated]) are threaded
      through a state monad whose state survives a raised exception, as the
      mutations of a Python object do.
    - The Django ORM is an external collaborator.  It is an interface
      ([ORM]) with the three calls the code makes: [model.objects.get],
      [row.delete] and [row.save].  [MemStore] is one implementation, used
      to run the code on concrete inputs.
    - A runnable is a function of the two objects it is called with, the
      payload and the row.  It may change both in place, return a value or
      raise; it does not reach the buffer or the store.
    - [log] is ghost state: the calls [commit] makes to the store, to the
      row object and to the registered runnables, in the order it makes
      them. *)

From Stdlib Require Import List String Ascii ZArith Bool Lia.
Import ListNotations.
Open Scope string_scope.
Open Scope Z_scope.
Open Scope list_scope.

Set Implicit Arguments.

(** ** Python values *)

(** Cell values and model attributes. *)
Inductive value : Type :=
| VNone
| VBool (b : bool)
| VInt (n : Z)
| VStr (s : string).

(** Python [==] on these values; [bool] is a subclass of [int]. *)
Definition py_eq (a b : value) : bool :=
  match a, b with
  | VNone, VNone => true
  | VBool x, VBool y => Bool.eqb x y
  | VInt x, VInt y => Z.eqb x y
  | VBool x, VInt y | VInt y, VBool x => Z.eqb (if x then 1 else 0) y
  | VStr x, VStr y => String.eqb x y
  | _, _ => false
  end.

Definition py_ne (a b : value) : bool := negb (py_eq a b).

(** What a runnable receives and returns: a plain value or a dict. *)
Inductive pyobj : Type :=
| PyVal (v : value)
| PyDict (d : list (string * value)).

(** Truth value of an object, as [result if result else ...] tests it. *)
Definition truthy (o : pyobj) : bool :=
  match o with
  | PyVal VNone => false
  | PyVal (VBool b) => b
  | PyVal (VInt n) => negb (Z.eqb n 0)
  | PyVal (VStr s) => negb (String.eqb s "")
  | PyDict [] => false
  | PyDict (_ :: _) => true
  end.

(** The empty dict literal [{}]. *)
Definition empty_dict : pyobj := PyDict [].

(** ** Exceptions *)

Inductive exn : Type :=
| ObjectDoesNotExist
| AttributeError
| NameError
| KeyError
| IndexError
| ValueError
| OtherError (name : string).

Definition exn_eqb (a b : exn) : bool :=
  match a, b with
  | ObjectDoesNotExist, ObjectDoesNotExist
  | AttributeError, AttributeError
  | NameError, NameError
  | KeyError, KeyError
  | IndexError, IndexError
  | ValueError, ValueError => true
  | OtherError x, OtherError y => String.eqb x y
  | _, _ => false
  end.

(** [isinstance(e, LookupError)]: in Python's hierarchy the subclasses of
    [LookupError] are [KeyError] and [IndexError]. *)
Definition is_LookupError (e : exn) : bool :=
  match e with
  | KeyError | IndexError => true
  | _ => false
  end.

Definition result (A : Type) : Type := (exn + A)%type.

Definition ok {A} (a : A) : result A := inr a.
Definition raise {A} (e : exn) : result A := inl e.

Definition rbind {A B} (m : result A) (f : A -> result B) : result B :=
  match m with
  | inl e => inl e
  | inr a => f a
  end.

Declare Scope result_scope.
Delimit Scope result_scope with result.
Notation "x <- m ;; k" := (rbind m (fun x => k))
  (at level 61, m at next level, right associativity) : result_scope.

(** ** Dictionaries in insertion order *)

Class EqKey (K : Type) : Type := {
  keqb : K -> K -> bool;
  keqb_eq : forall a b, keqb a b = true <-> a = b
}.

#[export] Instance EqKey_string : EqKey string :=
  {| keqb := String.eqb; keqb_eq := String.eqb_eq |}.

#[export] Instance EqKey_Z : EqKey Z :=
  {| keqb := Z.eqb; keqb_eq := Z.eqb_eq |}.

Section Dict.
Context {K V : Type} `{EqKey K}.

Definition dict : Type := list (K * V).

(** [d.get(k)] *)
Fixpoint dict_get (d : dict) (k : K) : option V :=
  match d with
  | [] => None
  | (k', v) :: rest => if keqb k' k then Some v else dict_get rest k
  end.

(** [k in d] *)
Definition dict_mem (d : dict) (k : K) : bool :=
  match dict_get d k with
  | Some _ => true
  | None => false
  end.

(** [d[k]], raising [KeyError] *)
Definition dict_getitem (d : dict) (k : K) : result V :=
  match dict_get d k with
  | Some v => ok v
  | None => raise KeyError
  end.

(** [d[k] = v] *)
Fixpoint dict_set (d : dict) (k : K) (v : V) : dict :=
  match d with
  | [] => [(k, v)]
  | (k', v') :: rest =>
      if keqb k' k then (k', v) :: rest else (k', v') :: dict_set rest k v
  end.

(** [d.update(kw)]: the items of [kw] are stored one by one, in order. *)
Definition dict_update (d kw : dict) : dict :=
  fold_left (fun acc kv => dict_set acc (fst kv) (snd kv)) kw d.

Definition dict_keys (d : dict) : list K := map fst d.
End Dict.

Arguments dict : clear implicits.

(** [l[i]] for a non-negative index, raising [IndexError] *)
Definition list_getitem {A} (l : list A) (i : Z) : result A :=
  match nth_error l (Z.to_nat i) with
  | Some a => ok a
  | None => raise IndexError
  end.

(** The list [l] after [l[i]] has been replaced by [a]. *)
Fixpoint list_setitem {A} (l : list A) (i : nat) (a : A) : list A :=
  match l, i with
  | [], _ => []
  | _ :: rest, O => a :: rest
  | x :: rest, S j => x :: list_setitem rest j a
  end.

(** ** Rows, runnables and the staging buffer *)

(** A model class, the key of [update_mapping]. *)
Abbreviation Model := string (only parsing).

(** A model instance: its class, its primary key ([None] once Django has
    deleted it) and its attributes. *)
Record Row : Type := mkRow {
  row_model : Model;
  row_pk : option Z;
  row_attrs : dict string value
}.

(** [getattr(row, key)] *)
Definition getattr (row : Row) (key : string) : result value :=
  match dict_get (row_attrs row) key with
  | Some v => ok v
  | None => raise AttributeError
  end.

(** [setattr(row, key, value)] *)
Definition setattr (row : Row) (key : string) (v : value) : Row :=
  mkRow (row_model row) (row_pk row) (dict_set (row_attrs row) key v).

(** One call [runnable(data, row)].  Both arguments are passed by
    reference: [data'] and [row'] are the two objects as the call leaves
    them, [res] is what it returns ([PyVal VNone] for no return value). *)
Inductive hook_outcome : Type :=
| HRaise (e : exn)
| HReturn (data' : pyobj) (row' : Row) (res : pyobj).

Definition runnable : Type := pyobj -> Row -> hook_outcome.

(** [(pk, column_updates)] *)
Abbreviation PendingRowUpdate := (Z * dict string value)%type (only parsing).

Record AdapterStaging : Type := mkStaging {
  update_mapping : dict Model (list PendingRowUpdate);
  delete_mapping : dict Model (list PendingRowUpdate);
  commit_lambdas : dict string (dict Z (list runnable));
  commit_lambdas_data : dict Z pyobj
}.

Definition PRECOMMIT_DELETE_LAMBDA : string := "precommit_delete".
Definition POSTCOMMIT_DELETE_LAMBDA : string := "postcommit_delete".
Definition PRECOMMIT_UPDATE_LAMBDA : string := "precommit_update".
Definition POSTCOMMIT_UPDATE_LAMBDA : string := "postcommit_update".

(** [AdapterStaging.EXEMPTED_COLUMNS], an attribute of the class. *)
Definition EXEMPTED_COLUMNS_attr : list string := [].

(** [AdapterStaging()] *)
Definition init : AdapterStaging := mkStaging [] [] [] [].

Definition set_update_mapping (self : AdapterStaging)
    (um : dict Model (list PendingRowUpdate)) : AdapterStaging :=
  mkStaging um (delete_mapping self) (commit_lambdas self)
    (commit_lambdas_data self).

Definition set_commit_lambdas (self : AdapterStaging)
    (cl : dict string (dict Z (list runnable))) : AdapterStaging :=
  mkStaging (update_mapping self) (delete_mapping self) cl
    (commit_lambdas_data self).

Definition set_commit_lambdas_data (self : AdapterStaging)
    (cd : dict Z pyobj) : AdapterStaging :=
  mkStaging (update_mapping self) (delete_mapping self) (commit_lambdas self)
    cd.

Local Open Scope result_scope.

(** The loop of [_key_index]: the position of the first entry whose
    primary key is [pk], counting from [idx]; [-1] when there is none. *)
Fixpoint key_index_from (update_vals : list PendingRowUpdate) (pk idx : Z)
    : Z :=
  match update_vals with
  | [] => -1
  | m :: rest =>
      if fst m =? pk then idx else key_index_from rest pk (idx + 1)
  end.

Definition _key_index (self : AdapterStaging) (model : Model) (pk : Z)
    : result Z :=
  update_vals <- dict_getitem (update_mapping self) model ;;
  ok (key_index_from update_vals pk 0).

Definition add (self : AdapterStaging) (model : Model) (pk : Z)
    (kwargs : dict string value) : result AdapterStaging :=
  if negb (dict_mem (update_mapping self) model) then
    ok (set_update_mapping self
          (dict_set (update_mapping self) model [(pk, kwargs)]))
  else
    key_index <- _key_index self model pk ;;
    update_vals <- dict_getitem (update_mapping self) model ;;
    if key_index >=? 0 then
      m <- list_getitem update_vals key_index ;;
      ok (set_update_mapping self
            (dict_set (update_mapping self) model
               (list_setitem update_vals (Z.to_nat key_index)
                  (fst m, dict_update (snd m) kwargs))))
    else
      ok (set_update_mapping self
            (dict_set (update_mapping self) model
               (update_vals ++ [(pk, kwargs)]))).

(** The [kwargs] of [delete] are accepted and ignored. *)
Definition delete (self : AdapterStaging) (model : Model) (pk : Z)
    (kwargs : dict string value) : result AdapterStaging :=
  if negb (dict_mem (update_mapping self) model) then
    ok (set_update_mapping self
          (dict_set (update_mapping self) model
             [(pk, [("delete_tag", VStr "X")])]))
  else
    update_vals <- dict_getitem (update_mapping self) model ;;
    ok (set_update_mapping self
          (dict_set (update_mapping self) model
             (update_vals ++ [(pk, [("delete_tag", VStr "X")])]))).

Definition has_commit_runnable (self : AdapterStaging)
    (runnable_type : string) (pk : Z) : bool :=
  match dict_get (commit_lambdas self) runnable_type with
  | Some per_pk => dict_mem per_pk pk
  | None => false
  end.

Definition add_commit_runnable (self : AdapterStaging)
    (runnable_type : string) (pk : Z) (fn : runnable)
    : result AdapterStaging :=
  let self1 :=
    if negb (dict_mem (commit_lambdas self) runnable_type)
    then set_commit_lambdas self
           (dict_set (commit_lambdas self) runnable_type [])
    else self in
  per_pk <- dict_getitem (commit_lambdas self1) runnable_type ;;
  let self2 :=
    if negb (dict_mem per_pk pk)
    then set_commit_lambdas_data
           (set_commit_lambdas self1
              (dict_set (commit_lambdas self1) runnable_type
                 (dict_set per_pk pk [])))
           (dict_set (commit_lambdas_data self1) pk empty_dict)
    else self1 in
  per_pk2 <- dict_getitem (commit_lambdas self2) runnable_type ;;
  fns <- dict_getitem per_pk2 pk ;;
  ok (set_commit_lambdas self2
        (dict_set (commit_lambdas self2) runnable_type
           (dict_set per_pk2 pk (fns ++ [fn])))).

Local Close Scope result_scope.

(** ** The store *)

(** The calls [commit] makes to Django.  [objects_get model pk] is
    [model.objects.get(pk=pk)], which raises [ObjectDoesNotExist] for a
    missing row; [row_delete] and [row_save] are [row.delete()] and
    [row.save()], which return the row object as the call leaves it and the
    store after the call. *)
Class ORM (Store : Type) : Type := {
  objects_get : Model -> Z -> Store -> result Row;
  row_delete : Row -> Store -> result (Row * Store);
  row_save : Row -> Store -> result (Row * Store)
}.

(** ** Ghost log *)

(** [EvGet], [EvGetattr] and [EvRun] are logged when the call is made,
    [EvSetattr], [EvDelete] and [EvSave] when it has completed.  [EvRun t pk
    i] is the call of the runnable registered at position [i] for
    [(t, pk)]. *)
Inductive event : Type :=
| EvGet (model : Model) (pk : Z)
| EvRun (runnable_type : string) (pk : Z) (i : nat)
| EvGetattr (pk : Z) (key : string)
| EvSetattr (pk : Z) (key : string)
| EvDelete (model : Model) (pk : Z)
| EvSave (model : Model) (pk : Z).

Definition is_delete (e : event) : bool :=
  match e with EvDelete _ _ => true | _ => false end.

Definition is_save (e : event) : bool :=
  match e with EvSave _ _ => true | _ => false end.

Definition is_run (e : event) : bool :=
  match e with EvRun _ _ _ => true | _ => false end.

Definition count_events (p : event -> bool) (l : list event) : Z :=
  Z.of_nat (List.length (filter p l)).

(** The names bound at the top level of [adapter.py]. *)
Definition module_globals : list string :=
  ["Model"; "ObjectDoesNotExist"; "Type"; "Any"; "List"; "Dict"; "date";
   "Counter"; "AdapterStaging"; "Column"; "BaseAdapter"].

(** The bare name [EXEMPTED_COLUMNS] in the body of [commit].  A name that
    is not local to a function is looked up in the globals of the module
    (and then in the builtins, which have no such name); the attributes of
    the enclosing class are not in scope in the body of a method, where
    the class attribute would be [self.EXEMPTED_COLUMNS].  No top-level
    statement of the module binds the name, so the lookup raises. *)
Definition load_EXEMPTED_COLUMNS : result (list string) :=
  if existsb (String.eqb "EXEMPTED_COLUMNS") module_globals
  then ok EXEMPTED_COLUMNS_attr
  else raise NameError.

Section Commit.
Context {Store : Type} `{ORM Store}.

(** What [commit] mutates while it runs: the buffer, the store, the ghost
    log and its local counter. *)
Record frame : Type := mkFrame {
  self : AdapterStaging;
  db : Store;
  log : list event;
  rows_updated : Z
}.

(** A computation on a frame; the frame it leaves is kept when it
    raises. *)
Definition M (A : Type) : Type := frame -> frame * result A.

Definition ret {A} (a : A) : M A := fun s => (s, inr a).

Definition throw {A} (e : exn) : M A := fun s => (s, inl e).

Definition bind {A B} (m : M A) (f : A -> M B) : M B :=
  fun s =>
    match m s with
    | (s', inl e) => (s', inl e)
    | (s', inr a) => f a s'
    end.

Definition lift {A} (r : result A) : M A := fun s => (s, r).

Definition emit (e : event) : M unit :=
  fun s => (mkFrame (self s) (db s) (log s ++ [e]) (rows_updated s), inr tt).

(** [rows_updated += 1] *)
Definition incr_rows_updated : M unit :=
  fun s => (mkFrame (self s) (db s) (log s) (rows_updated s + 1), inr tt).

(** [self.commit_lambdas_data[pk]] *)
Definition load_data (pk : Z) : M pyobj :=
  fun s => (s, dict_getitem (commit_lambdas_data (self s)) pk).

(** [self.commit_lambdas_data[pk] = o] *)
Definition store_data (pk : Z) (o : pyobj) : M unit :=
  fun s =>
    (mkFrame
       (set_commit_lambdas_data (self s)
          (dict_set (commit_lambdas_data (self s)) pk o))
       (db s) (log s) (rows_updated s), inr tt).

(** [try: body except ObjectDoesNotExist: pass] *)
Definition try_except_ObjectDoesNotExist (body : M unit) : M unit :=
  fun s =>
    match body s with
    | (s', inl ObjectDoesNotExist) => (s', inr tt)
    | r => r
    end.

Declare Scope commit_scope.
Delimit Scope commit_scope with commit.
Notation "x <- m ;; k" := (bind m (fun x => k))
  (at level 61, m at next level, right associativity) : commit_scope.
Notation "m ;;; k" := (bind m (fun _ => k))
  (at level 61, right associativity) : commit_scope.
Local Open Scope commit_scope.

(** [model.objects.get(pk=pk)] *)
Definition do_get (model : Model) (pk : Z) : M Row :=
  emit (EvGet model pk) ;;;
  (fun s => (s, objects_get model pk (db s))).

(** [row.delete()] *)
Definition do_delete (model : Model) (pk : Z) (row : Row) : M Row :=
  fun s =>
    match row_delete row (db s) with
    | inl e => (s, inl e)
    | inr (row', db') =>
        (mkFrame (self s) db' (log s ++ [EvDelete model pk])
           (rows_updated s), inr row')
    end.

(** [row.save()] *)
Definition do_save (model : Model) (pk : Z) (row : Row) : M Row :=
  fun s =>
    match row_save row (db s) with
    | inl e => (s, inl e)
    | inr (row', db') =>
        (mkFrame (self s) db' (log s ++ [EvSave model pk])
           (rows_updated s), inr row')
    end.

(** The loop of [_run_lambdas] over the runnables of [(runnable_type,
    pk)], from position [i] on. *)
Fixpoint run_each (runnable_type : string) (pk : Z) (i : nat)
    (fns : list runnable) (row : Row) : M Row :=
  match fns with
  | [] => ret row
  | fn :: rest =>
      data <- load_data pk ;;
      emit (EvRun runnable_type pk i) ;;;
      match fn data row with
      | HRaise e => throw e
      | HReturn data' row' res =>
          store_data pk (if truthy res then res else data') ;;;
          run_each runnable_type pk (S i) rest row'
      end
  end.

Definition _run_lambdas (runnable_type : string) (pk : Z) (row : Row)
    : M Row :=
  fun s =>
    if has_commit_runnable (self s) runnable_type pk then
      (per_pk <- lift (dict_getitem (commit_lambdas (self s)) runnable_type) ;;
       fns <- lift (dict_getitem per_pk pk) ;;
       run_each runnable_type pk 0 fns row) s
    else (s, inr row).

(** The loop over [column_updates.items()].  Column keys are interned
    strings (keyword names and literals of the module), for which [is]
    is equality. *)
Fixpoint commit_columns (model : Model) (pk : Z)
    (column_updates items : dict string value) (row : Row)
    (columns_updated : Z) : M (Row * Z) :=
  match items with
  | [] => ret (row, columns_updated)
  | (key, val) :: rest =>
      is_delete_tag <-
        (if String.eqb key "delete_tag"
         then v <- lift (dict_getitem column_updates key) ;;
              ret (py_eq v (VStr "X"))
         else ret false) ;;
      if is_delete_tag : bool then
        row1 <- _run_lambdas PRECOMMIT_DELETE_LAMBDA pk row ;;
        row2 <- do_delete model pk row1 ;;
        row3 <- _run_lambdas POSTCOMMIT_DELETE_LAMBDA pk row2 ;;
        incr_rows_updated ;;;
        commit_columns model pk column_updates rest row3 columns_updated
      else
        emit (EvGetattr pk key) ;;;
        cur <- lift (getattr row key) ;;
        v <- lift (dict_getitem column_updates key) ;;
        if py_ne cur v then
          exempted <- lift load_EXEMPTED_COLUMNS ;;
          row' <- (if negb (existsb (String.eqb key) exempted)
                   then emit (EvSetattr pk key) ;;;
                        ret (setattr row key val)
                   else ret row) ;;
          commit_columns model pk column_updates rest row'
            (columns_updated + 1)
        else
          commit_columns model pk column_updates rest row columns_updated
  end.

(** The body of the [try] statement, for the pending update
    [(pk, column_updates)]. *)
Definition row_body (model : Model) (update : PendingRowUpdate)
    : M unit :=
  let (pk, column_updates) := update in
  row <- do_get model pk ;;
  r <- commit_columns model pk column_updates column_updates row 0 ;;
  if snd r >? 0 then
    row1 <- _run_lambdas PRECOMMIT_UPDATE_LAMBDA pk (fst r) ;;
    row2 <- do_save model pk row1 ;;
    _ <- _run_lambdas POSTCOMMIT_UPDATE_LAMBDA pk row2 ;;
    incr_rows_updated
  else ret tt.

(** The body of the loop over the pending updates of one model. *)
Definition commit_row (model : Model) (update : PendingRowUpdate)
    : M unit :=
  try_except_ObjectDoesNotExist (row_body model update).

Fixpoint commit_update_vals (model : Model)
    (update_vals : list PendingRowUpdate) : M unit :=
  match update_vals with
  | [] => ret tt
  | update :: rest =>
      commit_row model update ;;; commit_update_vals model rest
  end.

Fixpoint commit_models (items : dict Model (list PendingRowUpdate))
    : M unit :=
  match items with
  | [] => ret tt
  | (model, update_vals) :: rest =>
      commit_update_vals model update_vals ;;; commit_models rest
  end.

(** [commit()]: the frame it leaves and what it returns or raises. *)
Definition commit (st : AdapterStaging) (d : Store)
    : frame * result Z :=
  match commit_models (update_mapping st) (mkFrame st d [] 0) with
  | (s, inl e) => (s, inl e)
  | (s, inr _) => (s, inr (rows_updated s))
  end.

End Commit.

Arguments frame : clear implicits.
Arguments M : clear implicits.

(** ** An in-memory store *)

(** The saved rows.  As in Django, [delete] removes the row with the
    instance's primary key and sets the key of the instance to [None];
    [save] replaces the row with the instance's key, or inserts the
    instance, under a fresh key when it has none. *)
Definition MemStore : Type := list Row.

Definition same_row (model : Model) (pk : Z) (r : Row) : bool :=
  String.eqb (row_model r) model &&
  match row_pk r with
  | Some k => Z.eqb k pk
  | None => false
  end.

Definition mem_get (model : Model) (pk : Z) (d : MemStore) : result Row :=
  match find (same_row model pk) d with
  | Some r => ok r
  | None => raise ObjectDoesNotExist
  end.

Definition mem_delete (row : Row) (d : MemStore)
    : result (Row * MemStore) :=
  match row_pk row with
  | None => raise ValueError
  | Some k =>
      ok (mkRow (row_model row) None (row_attrs row),
          filter (fun r => negb (same_row (row_model row) k r)) d)
  end.

Definition fresh_pk (model : Model) (d : MemStore) : Z :=
  1 + fold_right
        (fun r acc =>
           match row_pk r with
           | Some k => if String.eqb (row_model r) model
                       then Z.max k acc else acc
           | None => acc
           end) 0 d.

Definition mem_save (row : Row) (d : MemStore) : result (Row * MemStore) :=
  let k := match row_pk row with
           | Some k => k
           | None => fresh_pk (row_model row) d
           end in
  let row' := mkRow (row_model row) (Some k) (row_attrs row) in
  ok (row',
      if existsb (same_row (row_model row) k) d
      then map (fun r => if same_row (row_model row) k r then row' else r) d
      else d ++ [row']).

#[export] Instance MemStore_ORM : ORM MemStore :=
  {| objects_get := mem_get; row_delete := mem_delete; row_save := mem_save |}.

(** ** Column and table definitions *)

Record Column : Type := mkColumn {
  header : string;
  extractor : option (Row -> result value);
  inserter : option (AdapterStaging -> Z -> value -> result AdapterStaging)
}.

Definition is_modifiable (c : Column) : bool :=
  match inserter c with
  | Some _ => true
  | None => false
  end.

(** [s.endswith(c)] for a one-character suffix *)
Fixpoint endswith (s : string) (c : ascii) : bool :=
  match s with
  | EmptyString => false
  | String a EmptyString => Ascii.eqb a c
  | String _ rest => endswith rest c
  end.

(** [s[:-1]] *)
Fixpoint drop_last (s : string) : string :=
  match s with
  | EmptyString => EmptyString
  | String _ EmptyString => EmptyString
  | String a rest => String a (drop_last rest)
  end.

Local Open Scope result_scope.

Section BaseAdapter.
(** [cls.columns] *)
Variable columns : dict string Column.

Definition _get_column (column : string) : result Column :=
  dict_getitem columns column.

(** The loop of [_get_header_key] over [cls.columns.items()], with the
    [raise] that follows it. *)
Fixpoint find_header (items : dict string Column) (header_name : string)
    : result string :=
  match items with
  | [] => raise ValueError
  | (key, column_def) :: rest =>
      if String.eqb (header column_def) header_name
      then ok key
      else find_header rest header_name
  end.

Definition _get_header_key (header_name : string) : result string :=
  let header_name :=
    if endswith header_name "*"%char
    then drop_last header_name
    else header_name in
  find_header columns header_name.

Definition all_headers : list string :=
  map (fun kc => header (snd kc)) columns.

Definition all_display_headers : list string :=
  map (fun kc => if is_modifiable (snd kc)
                 then (header (snd kc) ++ "*")%string
                 else header (snd kc)) columns.

Definition all_columns : list string := dict_keys columns.

Definition header_name (column : string) : result string :=
  column_def <- _get_column column ;;
  ok (header column_def).

Definition column_name (header_name : string) : result string :=
  _get_header_key header_name.
End BaseAdapter.

Local Close Scope result_scope.

(** * Specification-side definitions *)

(** The runnables registered for [(runnable_type, pk)], in registration
    order; none when [has_commit_runnable] is false. *)
Definition hooks (st : AdapterStaging) (runnable_type : string) (pk : Z)
    : list runnable :=
  match dict_get (commit_lambdas st) runnable_type with
  | Some per_pk =>
      match dict_get per_pk pk with
      | Some fns => fns
      | None => []
      end
  | None => []
  end.

(** Hook execution in the words of the specification, with the test the
    code makes on the return value: the runnables are called in
    registration order, each with the payload currently stored for the
    row id and with the row; a truthy return value replaces the stored
    payload, anything else leaves the payload object in place.  [slot] is
    the stored payload, [None] when the row id has no slot.  The result is
    the number of runnables called, the slot at the end, and the row or
    the exception that stopped the run. *)
Fixpoint run_hooks (fns : list runnable) (slot : option pyobj) (row : Row)
    : nat * option pyobj * result Row :=
  match fns with
  | [] => (O, slot, ok row)
  | fn :: rest =>
      match slot with
      | None => (O, None, raise KeyError)
      | Some data =>
          match fn data row with
          | HRaise e => (1%nat, Some data, raise e)
          | HReturn data' row' res =>
              let '(n, slot', out) :=
                run_hooks rest
                  (Some (if truthy res then res else data')) row' in
              (S n, slot', out)
          end
      end
  end.

(** The events of calling the runnables at positions [i .. i+n-1]. *)
Definition runs (runnable_type : string) (pk : Z) (i n : nat) : list event :=
  map (EvRun runnable_type pk) (seq i n).

(** The column maps staged for [(model, pk)], in buffer order. *)
Definition pending (st : AdapterStaging) (model : Model) (pk : Z)
    : list (dict string value) :=
  match dict_get (update_mapping st) model with
  | Some update_vals =>
      map snd (filter (fun m => fst m =? pk) update_vals)
  | None => []
  end.

(** At most one pending update per model and row id. *)
Definition at_most_one (st : AdapterStaging) : Prop :=
  forall model pk, (List.length (pending st model pk) <= 1)%nat.

(** A staging call. *)
Inductive staging_op : Type :=
| OpAdd (model : Model) (pk : Z) (kwargs : dict string value)
| OpDelete (model : Model) (pk : Z).

Definition is_add (op : staging_op) : bool :=
  match op with OpAdd _ _ _ => true | OpDelete _ _ => false end.

Definition run_op (st : AdapterStaging) (op : staging_op)
    : result AdapterStaging :=
  match op with
  | OpAdd model pk kwargs => add st model pk kwargs
  | OpDelete model pk => delete st model pk []
  end.

Fixpoint run_ops (ops : list staging_op) (st : AdapterStaging)
    : result AdapterStaging :=
  match ops with
  | [] => ok st
  | op :: rest =>
      match run_op st op with
      | inl e => inl e
      | inr st' => run_ops rest st'
      end
  end.

(** The keyword arguments of a staging call are a dict: no key occurs
    twice. *)
Definition op_kwargs_ok (op : staging_op) : Prop :=
  match op with
  | OpAdd _ _ kwargs => NoDup (dict_keys kwargs)
  | OpDelete _ _ => True
  end.

(** All pending updates in the order [commit] visits them. *)
Definition all_updates (um : dict Model (list PendingRowUpdate))
    : list (Model * PendingRowUpdate) :=
  flat_map (fun mu => map (fun u => (fst mu, u)) (snd mu)) um.

(** No runnable registered in [st] ever raises [ObjectDoesNotExist]. *)
Definition hooks_never_raise_ObjectDoesNotExist (st : AdapterStaging)
    : Prop :=
  forall runnable_type pk fn data row,
    In fn (hooks st runnable_type pk) ->
    fn data row <> HRaise ObjectDoesNotExist.

(** Whether [commit] takes the column [key] for the deletion marker. *)
Definition is_marker (cu : dict string value) (key : string) : bool :=
  String.eqb key "delete_tag" &&
  match dict_get cu key with
  | Some v => py_eq v (VStr "X")
  | None => false
  end.

(** 1 when [delete_tag] is one of the keys, 0 otherwise. *)
Definition marker_count (items : dict string value) : Z :=
  if existsb (fun key => String.eqb key "delete_tag") (dict_keys items)
  then 1 else 0.

(** The column maps of the buffer are dicts: no key occurs twice. *)
Definition unique_columns (st : AdapterStaging) : Prop :=
  forall model pk cu,
    In (model, (pk, cu)) (all_updates (update_mapping st)) ->
    NoDup (dict_keys cu).

(** How [commit] finds the staged column [key] against the row: [Some
    false] when the staged value equals the attribute, [Some true] when it
    differs, [None] when the column is the deletion marker or cannot be
    read. *)
Definition column_state (cu : dict string value) (row : Row) (key : string)
    : option bool :=
  if is_marker cu key then None
  else
    match getattr row key, dict_get cu key with
    | inr cur, Some v => Some (py_ne cur v)
    | _, _ => None
    end.

(** The comparisons of the columns [items] of the row [pk]. *)
Definition comparisons (pk : Z) (items : dict string value) : list event :=
  map (fun kv => EvGetattr pk (fst kv)) items.

Section CommitSpec.
Context {Store : Type} `{ORM Store}.

(** [row.delete()] and [row.save()] never raise [ObjectDoesNotExist]. *)
Definition writes_never_raise_ObjectDoesNotExist : Prop :=
  forall row d,
    row_delete row d <> inl ObjectDoesNotExist /\
    row_save row d <> inl ObjectDoesNotExist.

(** [commit] over a flat list of pending updates. *)
Fixpoint commit_all (updates : list (Model * PendingRowUpdate))
    : M Store unit :=
  match updates with
  | [] => ret tt
  | (model, update) :: rest =>
      bind (commit_row model update) (fun _ => commit_all rest)
  end.

(** What [commit] returns once its loops have ended in [r]. *)
Definition finish (r : frame Store * result unit)
    : frame Store * result Z :=
  match r with
  | (s, inl e) => (s, inl e)
  | (s, inr _) => (s, inr (rows_updated s))
  end.

(** A frame with another log. *)
Definition with_log (s : frame Store) (l : list event) : frame Store :=
  mkFrame (self s) (db s) l (rows_updated s).

(** The frame [_run_lambdas] leaves: [n] more calls in the log and the
    payload slot of [pk] holding [slot]. *)
Definition after_hooks (s : frame Store) (runnable_type : string)
    (pk : Z) (n : nat) (slot : option pyobj) : frame Store :=
  mkFrame
    (set_commit_lambdas_data (self s)
       match slot with
       | Some d => dict_set (commit_lambdas_data (self s)) pk d
       | None => commit_lambdas_data (self s)
       end)
    (db s) (log s ++ runs runnable_type pk 0 n) (rows_updated s).

(** Hoare triples on frame computations: from a frame satisfying [P],
    [m] returns in a frame satisfying [Q] or raises in one satisfying
    [E]. *)
Definition triple {A} (P : frame Store -> Prop) (m : M Store A)
    (Q : A -> frame Store -> Prop) (E : exn -> frame Store -> Prop)
    : Prop :=
  forall s, P s ->
    match m s with
    | (s', inr a) => Q a s'
    | (s', inl e) => E e s'
    end.

(** [m] keeps [P], whether it returns or raises. *)
Definition keeps {A} (P : frame Store -> Prop) (m : M Store A) : Prop :=
  triple P m (fun _ => P) (fun _ => P).

(** The frame still holds the pending updates and the runnables of
    [st]. *)
Definition same_staged (st : AdapterStaging) (s : frame Store) : Prop :=
  update_mapping (self s) = update_mapping st /\
  delete_mapping (self s) = delete_mapping st /\
  commit_lambdas (self s) = commit_lambdas st.

(** The counter agrees with the deletions and saves in the log. *)
Definition counted (s : frame Store) : Prop :=
  rows_updated s =
  count_events is_delete (log s) + count_events is_save (log s).

(** The counter is one behind: a deletion or a save is logged and not
    yet counted. *)
Definition one_behind (s : frame Store) : Prop :=
  rows_updated s + 1 =
  count_events is_delete (log s) + count_events is_save (log s).

(** The runnables are those of [st] and the counter is up to date. *)
Definition in_step (st : AdapterStaging) (s : frame Store) : Prop :=
  commit_lambdas (self s) = commit_lambdas st /\ counted s.

(** The runnables are those of [st] and one deletion or save is logged
    and not counted yet. *)
Definition one_short (st : AdapterStaging) (s : frame Store) : Prop :=
  commit_lambdas (self s) = commit_lambdas st /\ one_behind s.

(** What the [except] clause may catch: [ObjectDoesNotExist] reaches it
    only from a frame whose counter is up to date. *)
Definition catchable (st : AdapterStaging) (e : exn) (s : frame Store)
    : Prop :=
  match e with
  | ObjectDoesNotExist => in_step st s
  | _ => True
  end.

(** The counter is [r]. *)
Definition counter_is (r : Z) (s : frame Store) : Prop :=
  rows_updated s = r.

(** The counter is [r] or at most [k] more. *)
Definition counter_within (r k : Z) (s : frame Store) : Prop :=
  r <= rows_updated s <= r + k.

(** No save is logged. *)
Definition nosave (s : frame Store) : Prop :=
  count_events is_save (log s) = 0.
End CommitSpec.

(** * Sample tables, stores and buffers *)

Module Sample.

Definition Student : Model := "Student".

Definition alice : Row :=
  mkRow Student (Some 1) [("name", VStr "Alice"); ("banned", VBool false)].

Definition bob : Row :=
  mkRow Student (Some 2) [("name", VStr "Bob"); ("banned", VBool false)].

Definition students : MemStore := [alice; bob].

(** The buffer a sequence of calls builds ([init] if one raised). *)
Definition built (r : result AdapterStaging) : AdapterStaging :=
  match r with
  | inr st => st
  | inl _ => init
  end.

(** A runnable that returns a new payload. *)
Definition seen_hook : runnable :=
  fun data row => HReturn data row (PyDict [("seen", VBool true)]).

(** A runnable that returns nothing. *)
Definition quiet_hook : runnable :=
  fun data row => HReturn data row (PyVal VNone).

(** A runnable that returns an empty dict. *)
Definition empty_hook : runnable :=
  fun data row => HReturn data row (PyDict []).

(** A runnable that looks up a row that is gone. *)
Definition missing_hook : runnable :=
  fun data row => HRaise ObjectDoesNotExist.

(** A runnable that fails. *)
Definition failing_hook : runnable :=
  fun data row => HRaise (OtherError "RuntimeError").

(** [add(Student, 1, name='Alicia')] *)
Definition rename_alice : AdapterStaging :=
  built (add init Student 1 [("name", VStr "Alicia")]).

(** [add(Student, 1, name='Alice')] *)
Definition same_alice : AdapterStaging :=
  built (add init Student 1 [("name", VStr "Alice")]).

(** [delete(Student, 2)] *)
Definition delete_bob : AdapterStaging :=
  built (delete init Student 2 []).

(** [add(Student, 2, delete_tag='x')] *)
Definition delete_bob_lowercase : AdapterStaging :=
  built (add init Student 2 [("delete_tag", VStr "x")]).

(** [add(Student, 2, delete_tag='X', name='Bob')] *)
Definition delete_bob_and_name : AdapterStaging :=
  built (add init Student 2
           [("delete_tag", VStr "X"); ("name", VStr "Bob")]).

(** [add(Student, 2, name='Bobby', delete_tag='X')] *)
Definition rename_and_delete_bob : AdapterStaging :=
  built (add init Student 2
           [("name", VStr "Bobby"); ("delete_tag", VStr "X")]).

(** [delete(Student, 2)] with a runnable before and one after the
    deletion. *)
Definition delete_bob_hooked : AdapterStaging :=
  built (add_commit_runnable
           (built (add_commit_runnable delete_bob
                     PRECOMMIT_DELETE_LAMBDA 2 seen_hook))
           POSTCOMMIT_DELETE_LAMBDA 2 quiet_hook).

(** [delete(Student, 2)] where the runnable after the deletion raises
    [ObjectDoesNotExist]. *)
Definition delete_bob_then_missing : AdapterStaging :=
  built (add_commit_runnable delete_bob
           POSTCOMMIT_DELETE_LAMBDA 2 missing_hook).

(** [delete(Student, 1); delete(Student, 2)] where the runnable before
    the deletion of row 1 raises [ObjectDoesNotExist]. *)
Definition delete_both_first_missing : AdapterStaging :=
  built (add_commit_runnable
           (built (delete (built (delete init Student 1 [])) Student 2 []))
           PRECOMMIT_DELETE_LAMBDA 1 missing_hook).

(** [delete(Student, 1); delete(Student, 2)] where the runnable before
    the deletion of row 1 fails. *)
Definition delete_both_first_failing : AdapterStaging :=
  built (add_commit_runnable
           (built (delete (built (delete init Student 1 [])) Student 2 []))
           PRECOMMIT_DELETE_LAMBDA 1 failing_hook).

(** [delete(Student, 7); delete(Student, 2)]: row 7 does not exist. *)
Definition delete_absent_then_bob : AdapterStaging :=
  built (delete (built (delete init Student 7 [])) Student 2 []).

(** [delete(Student, 2)] with two runnables before the deletion: the
    first returns a payload, the second an empty dict. *)
Definition delete_bob_seen_empty : AdapterStaging :=
  built (add_commit_runnable
           (built (add_commit_runnable delete_bob
                     PRECOMMIT_DELETE_LAMBDA 2 seen_hook))
           PRECOMMIT_DELETE_LAMBDA 2 empty_hook).

(** The buffer of [delete_bob] with one runnable, after a commit. *)
Definition committed_once : AdapterStaging :=
  self (fst (commit
               (built (add_commit_runnable delete_bob
                         PRECOMMIT_DELETE_LAMBDA 2 seen_hook))
               students)).

(** A table in the style of the example adapter. *)
Definition student_columns : dict string Column :=
  [("id", mkColumn "DBID" None None);
   ("first name", mkColumn "First Name" None None);
   ("label",
    mkColumn "Label" None
     (Some (fun st pk v => add st Student pk [("label", v)])));
   ("delete_tag",
    mkColumn "Deletion Tag" None
     (Some (fun st pk _ => delete st Student pk [])))].

End Sample.

(** * The rest of the table definition and the exporters *)

Local Open Scope result_scope.

(** [f(table_updater, row, value)] for the [inserter] attribute [f] of a
    column: calling [None] raises [TypeError]. *)
Definition call_inserter
    (f : option (AdapterStaging -> Z -> value -> result AdapterStaging))
    (table_updater : AdapterStaging) (row : Z) (v : value)
    : result AdapterStaging :=
  match f with
  | Some g => g table_updater row v
  | None => raise (OtherError "TypeError")
  end.

Section BaseAdapterCalls.
(** [cls.columns] *)
Variable columns : dict string Column.

(** [BaseAdapter.extract] *)
Definition extract (row : Row) (column : string) : result value :=
  column_def <- _get_column columns column ;;
  match extractor column_def with
  | Some f => f row
  | None => getattr row column
  end.

(** [BaseAdapter.insert]; the inserter works on the buffer it is given,
    which is returned as the call leaves it. *)
Definition insert (table_updater : AdapterStaging) (row : Z)
    (column : string) (v : value) : result AdapterStaging :=
  column_def <- _get_column columns column ;;
  if is_modifiable column_def then
    call_inserter (inserter column_def) table_updater row v
  else if String.eqb column "delete_tag" || String.eqb column "copy_tag" then
    call_inserter (inserter column_def) table_updater row v
  else ok table_updater.

(** [Exporter._get_headers] *)
Definition _get_headers : list string := all_display_headers columns.

(** [Exporter._get_row_value]: [except Exception] catches whatever the
    extraction raises. *)
Definition _get_row_value (row : Row) (key : string) : value :=
  let excepted_columns := ["delete_tag"; "copy_tag"] in
  if existsb (String.eqb key) excepted_columns then VNone
  else
    match extract row key with
    | inr v => v
    | inl _ => VStr "ERROR"
    end.

(** [GenericInfo.info_rows], declared outside the files at hand. *)
Variable info_rows : list (list value).

(** [CSVExporter.export]: the rows handed to [writer.writerow], in
    order. *)
Definition CSVExporter_export (data : list Row) : list (list value) :=
  info_rows ++
  [map VStr _get_headers] ++
  map (fun row => map (fun key => _get_row_value row key)
                    (all_columns columns))
    data.
End BaseAdapterCalls.

(** The calls [ExcelExporter.export] makes on the worksheet. *)
Inductive xl_call : Type :=
| xl_set_column (first_col last_col : Z)
| xl_write (method : string) (row col : Z) (v : value)
| xl_add_table (first_row first_col last_row last_col : Z)
    (headers : list string).

(** [ExcelExporter._write]: the method is looked up by the exact type of
    the value, with [worksheet.write] for a type that is not a key. *)
Definition _write (row col : Z) (v : value) : xl_call :=
  xl_write
    match v with
    | VStr _ => "write_string"
    | VInt _ => "write_number"
    | VBool _ => "write_boolean"
    | VNone => "write"
    end row col v.

(** [for col in range(len(cells)): self._write(worksheet, cur_row, col,
    cells[col])], from column [col] on. *)
Fixpoint write_cells (cur_row col : Z) (cells : list value)
    : list xl_call :=
  match cells with
  | [] => []
  | v :: rest => _write cur_row col v :: write_cells cur_row (col + 1) rest
  end.

(** One worksheet row per list of cells, from [cur_row] on. *)
Fixpoint write_rows (cur_row : Z) (rows : list (list value))
    : list xl_call :=
  match rows with
  | [] => []
  | cells :: rest =>
      write_cells cur_row 0 cells ++ write_rows (cur_row + 1) rest
  end.

Section ExcelExporter.
Variable columns : dict string Column.
Variable info_rows : list (list value).

(** [ExcelExporter.export]: the calls on the worksheet, in order. *)
Definition ExcelExporter_export (data : list Row) : list xl_call :=
  let headers := _get_headers columns in
  let info_rows_count := Z.of_nat (List.length info_rows) in
  let header_keys := all_columns columns in
  [xl_set_column 0 0] ++
  write_rows 0 info_rows ++
  write_cells info_rows_count 0 (map VStr headers) ++
  [xl_add_table info_rows_count 0
     (Z.of_nat (List.length data) + info_rows_count)
     (Z.of_nat (List.length headers) - 1) headers] ++
  write_rows (info_rows_count + 1)
    (map (fun row => map (fun key => _get_row_value columns row key)
                       header_keys)
       data).
End ExcelExporter.

Local Close Scope result_scope.

(** Every pair with a registered runnable has a payload slot. *)
Definition slots_ok (st : AdapterStaging) : Prop :=
  forall t pk,
    has_commit_runnable st t pk = true ->
    dict_mem (commit_lambdas_data st) pk = true.

(** A registered list of runnables is never empty. *)
Definition lists_ok (st : AdapterStaging) : Prop :=
  forall t pk, has_commit_runnable st t pk = true -> hooks st t pk <> [].

(** The buffers the calls of [AdapterStaging] can build from a new one:
    [add], [delete], [add_commit_runnable] and [commit], on any store. *)
Inductive reachable : AdapterStaging -> Prop :=
| reach_init : reachable init
| reach_add st model pk kwargs st' :
    reachable st -> add st model pk kwargs = inr st' -> reachable st'
| reach_delete st model pk kwargs st' :
    reachable st -> delete st model pk kwargs = inr st' -> reachable st'
| reach_add_commit_runnable st t pk fn st' :
    reachable st -> add_commit_runnable st t pk fn = inr st' ->
    reachable st'
| reach_commit st (Store : Type) (orm : ORM Store) (d : Store) :
    reachable st -> reachable (self (fst (commit st d))).

(** A runnable that leaves the model and the primary key of the row it
    is given as they are, and that never raises [ObjectDoesNotExist]. *)
Definition keeps_row_identity (fn : runnable) : Prop :=
  forall data row,
    match fn data row with
    | HReturn _ row' _ =>
        row_model row' = row_model row /\ row_pk row' = row_pk row
    | HRaise e => e <> ObjectDoesNotExist
    end.

(** [deleted_from d n d']: the store [d'] is the store [d] after [n]
    calls of [row.delete()] that returned, and nothing else. *)
Inductive deleted_from {Store : Type} `{ORM Store} (d : Store)
    : Z -> Store -> Prop :=
| deleted_none : deleted_from d 0 d
| deleted_more n d1 row row' d2 :
    deleted_from d n d1 ->
    row_delete row d1 = inr (row', d2) ->
    deleted_from d (n + 1) d2.

(** No row of [model] with the primary key [pk] is stored. *)
Definition gone (model : Model) (pk : Z) (d : MemStore) : Prop :=
  mem_get model pk d = inl ObjectDoesNotExist.

(** The calls that write a cell. *)
Definition is_write (c : xl_call) : bool :=
  match c with xl_write _ _ _ _ => true | _ => false end.

(** The cell a call writes lies in the rows [first_row..last_row] and the
    columns [first_col..last_col]. *)
Definition write_within (first_row first_col last_row last_col : Z)
    (c : xl_call) : Prop :=
  match c with
  | xl_write _ row col _ =>
      first_row <= row <= last_row /\ first_col <= col <= last_col
  | _ => True
  end.

(** The row a call writes into, if it writes a cell. *)
Definition write_row (c : xl_call) : option Z :=
  match c with xl_write _ row _ _ => Some row | _ => None end.

(** * The CSV importer *)

(** [c.upper()] for the ASCII letters *)
Definition upper_char (c : ascii) : ascii :=
  let n := nat_of_ascii c in
  if ((97 <=? n) && (n <=? 122))%nat then ascii_of_nat (n - 32) else c.

(** [s.upper()] *)
Fixpoint upper (s : string) : string :=
  match s with
  | EmptyString => EmptyString
  | String c rest => String (upper_char c) (upper rest)
  end.

(** [c in s] for a one-character string [c] *)
Fixpoint contains (s : string) (c : ascii) : bool :=
  match s with
  | EmptyString => false
  | String a rest => Ascii.eqb a c || contains rest c
  end.

(** The value of a local variable that may not be bound yet:
    [UnboundLocalError] is a [NameError]. *)
Definition load_local {A} (v : option A) : result A :=
  match v with
  | Some a => ok a
  | None => raise NameError
  end.

Local Open Scope result_scope.

Section CSVImporter.
(** [self._table_definition.columns] *)
Variable columns : dict string Column.
(** [len(GenericInfo.info_rows)] *)
Variable header_count : Z.
(** The built-in [int] on a string; it raises [ValueError] on a string
    that is not an integer literal. *)
Variable int : string -> result Z.

(** The loop over the header row: [key_lookup[column_name(column)] =
    idx], where a header that [column_name] rejects is skipped. *)
Fixpoint read_headers (key_lookup : dict string Z) (idx : Z)
    (row : list string) : dict string Z :=
  match row with
  | [] => key_lookup
  | column :: rest =>
      read_headers
        match column_name columns column with
        | inr key => dict_set key_lookup key idx
        | inl _ => key_lookup
        end
        (idx + 1) rest
  end.

(** ['delete_tag' in key_lookup and 'X' in
    row[key_lookup['delete_tag']].upper()] *)
Definition marked_for_deletion (key_lookup : dict string Z)
    (row : list string) : result bool :=
  if dict_mem key_lookup "delete_tag" then
    idx <- dict_getitem key_lookup "delete_tag" ;;
    cell <- list_getitem row idx ;;
    ok (contains (upper cell) "X")
  else ok false.

(** The loop over [key_lookup.items()] for a row that is not marked for
    deletion.  The local variable [db_id] is the one of the whole
    function: it keeps its value from one row to the next. *)
Fixpoint import_cells (items : dict string Z) (row : list string)
    (db_id : option Z) (table_updater : AdapterStaging)
    : result (option Z * AdapterStaging) :=
  match items with
  | [] => ok (db_id, table_updater)
  | (key, idx) :: rest =>
      if String.eqb key "id" then
        cell <- list_getitem row idx ;;
        n <- int cell ;;
        import_cells rest row (Some n) table_updater
      else if String.eqb key "delete_tag" then
        import_cells rest row db_id table_updater
      else
        dbid <- load_local db_id ;;
        cell <- list_getitem row idx ;;
        table_updater' <- insert columns table_updater dbid key (VStr cell) ;;
        import_cells rest row db_id table_updater'
  end.

(** The body of the loop over the rows, for a data row. *)
Definition import_row (key_lookup : dict string Z) (row : list string)
    (db_id : option Z) (table_updater : AdapterStaging)
    : result (option Z * AdapterStaging) :=
  marked <- marked_for_deletion key_lookup row ;;
  if marked : bool then
    idx <- dict_getitem key_lookup "id" ;;
    cell <- list_getitem row idx ;;
    dbid <- int cell ;;
    table_updater' <-
      insert columns table_updater dbid "delete_tag" (VStr "X") ;;
    ok (db_id, table_updater')
  else import_cells key_lookup row db_id table_updater.

(** [for row_count, row in enumerate(reader)], from [row_count] on. *)
Fixpoint import_rows (row_count : Z) (rows : list (list string))
    (key_lookup : dict string Z) (db_id : option Z)
    (table_updater : AdapterStaging) : result AdapterStaging :=
  match rows with
  | [] => ok table_updater
  | row :: rest =>
      if row_count <? header_count then
        import_rows (row_count + 1) rest key_lookup db_id table_updater
      else if row_count =? header_count then
        import_rows (row_count + 1) rest
          (read_headers key_lookup 0 row) db_id table_updater
      else
        r <- import_row key_lookup row db_id table_updater ;;
        import_rows (row_count + 1) rest key_lookup (fst r) (snd r)
  end.

(** The loop over the rows where every row starts without a [db_id]. *)
Fixpoint import_rows_fresh (row_count : Z) (rows : list (list string))
    (key_lookup : dict string Z) (table_updater : AdapterStaging)
    : result AdapterStaging :=
  match rows with
  | [] => ok table_updater
  | row :: rest =>
      if row_count <? header_count then
        import_rows_fresh (row_count + 1) rest key_lookup table_updater
      else if row_count =? header_count then
        import_rows_fresh (row_count + 1) rest
          (read_headers key_lookup 0 row) table_updater
      else
        r <- import_row key_lookup row None table_updater ;;
        import_rows_fresh (row_count + 1) rest key_lookup (snd r)
  end.

(** [CSVImporter.import_data] on the rows the CSV reader yields: the rows
    are staged, then the buffer is committed.  An exception raised while
    the rows are read comes out before the commit. *)
Definition CSVImporter_import_data {Store : Type} `{ORM Store}
    (rows : list (list string)) (table_updater : AdapterStaging)
    (d : Store) : result (frame Store * result Z) :=
  staged <- import_rows 0 rows [] None table_updater ;;
  ok (commit staged d).
End CSVImporter.

Local Close Scope result_scope.

(** [int] on strings of decimal digits. *)
Fixpoint digits (acc : Z) (s : string) : result Z :=
  match s with
  | EmptyString => inr acc
  | String c rest =>
      let n := Z.of_nat (nat_of_ascii c) in
      if (48 <=? n) && (n <=? 57)
      then digits (10 * acc + (n - 48)) rest
      else inl ValueError
  end.

Definition int_of_digits (s : string) : result Z :=
  match s with
  | EmptyString => inl ValueError
  | _ => digits 0 s
  end.

(** Whether the loop over [items] reads [db_id] before it has set it:
    the first key that is not [delete_tag] is not [id]. *)
Fixpoint reads_db_id (items : dict string Z) : bool :=
  match items with
  | [] => false
  | (key, _) :: rest =>
      if String.eqb key "id" then false
      else if String.eqb key "delete_tag" then reads_db_id rest
      else true
  end.

(** The positions [0, 1, ...] of the cells of a row of [n] cells. *)
Definition positions (n : nat) : list Z := map Z.of_nat (seq 0 n).

(** The row holds a deletion mark in the column [delete_tag] and the
    literal of [pk] in the column [id]. *)
Definition marks_row (int : string -> result Z) (key_lookup : dict string Z)
    (row : list string) (pk : Z) : Prop :=
  exists i_del i_id mark cell,
    dict_get key_lookup "delete_tag" = Some i_del /\
    list_getitem row i_del = inr mark /\
    contains (upper mark) "X" = true /\
    dict_get key_lookup "id" = Some i_id /\
    list_getitem row i_id = inr cell /\
    int cell = inr pk.

(** * More specification-side definitions *)

(** The model and the row id a staging call is for. *)
Definition op_target (op : staging_op) : Model * Z :=
  match op with
  | OpAdd model pk _ => (model, pk)
  | OpDelete model pk => (model, pk)
  end.

Definition same_target (a b : Model * Z) : bool :=
  String.eqb (fst a) (fst b) && Z.eqb (snd a) (snd b).

(** No [delete] of the sequence is for a model and row id that an earlier
    call of the sequence, or one of [seen], was for. *)
Fixpoint deletes_on_new_rows (seen : list (Model * Z))
    (ops : list staging_op) : bool :=
  match ops with
  | [] => true
  | op :: rest =>
      (is_add op || negb (existsb (same_target (op_target op)) seen)) &&
      deletes_on_new_rows (op_target op :: seen) rest
  end.

Definition is_setattr (e : event) : bool :=
  match e with EvSetattr _ _ => true | _ => false end.

(** No runnable registered in [st] for the time after a deletion ever
    raises [ObjectDoesNotExist]. *)
Definition post_delete_never_raise_ObjectDoesNotExist
    (st : AdapterStaging) : Prop :=
  forall pk fn data row,
    In fn (hooks st POSTCOMMIT_DELETE_LAMBDA pk) ->
    fn data row <> HRaise ObjectDoesNotExist.

(** The counter is at least [k] behind the deletions and saves in the
    log. *)
Definition behind_by {Store : Type} (k : Z) (s : frame Store) : Prop :=
  rows_updated s + k <=
  count_events is_delete (log s) + count_events is_save (log s).

(** * Lemmas on dictionaries and lists *)

Section DictFacts.
Context {K V : Type} `{EqKey K}.

Lemma keqb_refl (k : K) : keqb k k = true.
Proof. apply keqb_eq; reflexivity. Qed.

Lemma keqb_neq (a b : K) : a <> b -> keqb a b = false.
Proof.
  intros Hne. destruct (keqb a b) eqn:E; [|reflexivity].
  apply keqb_eq in E. contradiction.
Qed.

Lemma dict_get_set_same (d : dict K V) k v :
  dict_get (dict_set d k v) k = Some v.
Proof.
  induction d as [|[k' v'] d IH]; simpl.
  - rewrite keqb_refl; reflexivity.
  - destruct (keqb k' k) eqn:E; simpl; rewrite E; auto.
Qed.

Lemma dict_get_set_other (d : dict K V) k k' v :
  k <> k' -> dict_get (dict_set d k v) k' = dict_get d k'.
Proof.
  intros Hne. induction d as [|[k0 v0] d IH]; simpl.
  - rewrite keqb_neq by assumption; reflexivity.
  - destruct (keqb k0 k) eqn:E; simpl.
    + apply keqb_eq in E; subst k0.
      rewrite keqb_neq by assumption; reflexivity.
    + destruct (keqb k0 k'); auto.
Qed.

Lemma dict_set_set (d : dict K V) k a b :
  dict_set (dict_set d k a) k b = dict_set d k b.
Proof.
  induction d as [|[k0 v0] d IH]; simpl.
  - rewrite keqb_refl; reflexivity.
  - destruct (keqb k0 k) eqn:E; simpl; rewrite E; congruence.
Qed.

Lemma dict_set_get_id (d : dict K V) k v :
  dict_get d k = Some v -> dict_set d k v = d.
Proof.
  induction d as [|[k0 v0] d IH]; simpl; [discriminate|].
  destruct (keqb k0 k) eqn:E; intros Hg.
  - congruence.
  - rewrite IH by assumption; reflexivity.
Qed.

Lemma dict_mem_set_same (d : dict K V) k v :
  dict_mem (dict_set d k v) k = true.
Proof. unfold dict_mem. rewrite dict_get_set_same. reflexivity. Qed.

Lemma dict_get_not_in (d : dict K V) k :
  ~ In k (dict_keys d) -> dict_get d k = None.
Proof.
  induction d as [|[k0 v0] d IH]; simpl; intros Hn; [reflexivity|].
  rewrite keqb_neq by tauto. apply IH; tauto.
Qed.

(** A key of the update holds the value of the update; any other key
    keeps its value. *)
Lemma dict_get_update (kw : dict K V) : forall (d : dict K V) k,
  NoDup (dict_keys kw) ->
  dict_get (dict_update d kw) k =
  match dict_get kw k with
  | Some v => Some v
  | None => dict_get d k
  end.
Proof.
  unfold dict_update.
  induction kw as [|[k0 v0] kw IH]; intros d k Hnd; simpl; [reflexivity|].
  inversion Hnd as [|? ? Hnotin Hnd']; subst.
  rewrite IH by assumption.
  destruct (keqb k0 k) eqn:E.
  - apply keqb_eq in E; subst k0.
    rewrite dict_get_not_in by assumption.
    apply dict_get_set_same.
  - destruct (dict_get kw k); [reflexivity|].
    apply dict_get_set_other. intros ->. rewrite keqb_refl in E.
    discriminate.
Qed.

Lemma dict_set_keys_in (d : dict K V) k v x :
  In x (dict_keys (dict_set d k v)) -> x = k \/ In x (dict_keys d).
Proof.
  induction d as [|[k0 v0] d IH]; simpl.
  - intros [<-|[]]. left; reflexivity.
  - destruct (keqb k0 k) eqn:E; simpl.
    + intros [<-|Hin]; right; [left; reflexivity|right; assumption].
    + intros [<-|Hin]; [right; left; reflexivity|].
      destruct (IH Hin); [left|right; right]; assumption.
Qed.

Lemma dict_set_keys_NoDup (d : dict K V) k v :
  NoDup (dict_keys d) -> NoDup (dict_keys (dict_set d k v)).
Proof.
  induction d as [|[k0 v0] d IH]; simpl; intros Hnd.
  - constructor; [intros []|constructor].
  - inversion Hnd as [|? ? Hnotin Hnd']; subst.
    destruct (keqb k0 k) eqn:E; simpl.
    + constructor; assumption.
    + constructor; [|apply IH; assumption].
      intros Hin. apply dict_set_keys_in in Hin as [->|Hin].
      * rewrite keqb_refl in E. discriminate.
      * contradiction.
Qed.

Lemma dict_update_keys_NoDup (kw : dict K V) : forall d : dict K V,
  NoDup (dict_keys d) -> NoDup (dict_keys (dict_update d kw)).
Proof.
  unfold dict_update.
  induction kw as [|[k v] kw IH]; intros d Hnd; simpl; [assumption|].
  apply IH, dict_set_keys_NoDup, Hnd.
Qed.

Lemma dict_set_in (d : dict K V) k v k' v' :
  In (k', v') (dict_set d k v) -> (k' = k /\ v' = v) \/ In (k', v') d.
Proof.
  induction d as [|[k0 v0] d IH]; simpl.
  - intros [[= <- <-]|[]]. left; split; reflexivity.
  - destruct (keqb k0 k) eqn:E; simpl.
    + apply keqb_eq in E; subst k0.
      intros [[= <- <-]|Hin];
      [left; split; reflexivity|right; right; assumption].
    + intros [Heq|Hin]; [right; left; assumption|].
      destruct (IH Hin); [left|right; right]; assumption.
Qed.

Lemma dict_get_in (d : dict K V) k v :
  dict_get d k = Some v -> In (k, v) d.
Proof.
  induction d as [|[k0 v0] d IH]; simpl; [discriminate|].
  destruct (keqb k0 k) eqn:E.
  - apply keqb_eq in E; subst k0. intros [= <-]. left; reflexivity.
  - intros Hg. right. apply IH; assumption.
Qed.
End DictFacts.

Lemma list_setitem_length {A} (l : list A) : forall i a,
  List.length (list_setitem l i a) = List.length l.
Proof.
  induction l as [|x l IH]; intros [|i] a; simpl; auto.
Qed.

Lemma list_setitem_in {A} (l : list A) : forall i a x,
  In x (list_setitem l i a) -> x = a \/ In x l.
Proof.
  induction l as [|y l IH]; intros [|i] a x; simpl; try tauto.
  - intros [<-|Hin]; [left; reflexivity|right; right; assumption].
  - intros [<-|Hin]; [right; left; reflexivity|].
    destruct (IH _ _ _ Hin); [left|right; right]; assumption.
Qed.

Lemma count_events_app p l1 l2 :
  count_events p (l1 ++ l2) = count_events p l1 + count_events p l2.
Proof.
  unfold count_events. rewrite filter_app, length_app. lia.
Qed.

Lemma count_events_runs p t pk i n :
  (forall j, p (EvRun t pk j) = false) ->
  count_events p (runs t pk i n) = 0.
Proof.
  intros Hp. unfold count_events, runs.
  revert i; induction n as [|n IH]; intros i; simpl; [reflexivity|].
  rewrite Hp. apply IH.
Qed.

(** * Staging: [add], [delete] and [add_commit_runnable] *)

Lemma filter_pk_none (l : list PendingRowUpdate) pk :
  Forall (fun m => fst m <> pk) l ->
  filter (fun m => fst m =? pk) l = [].
Proof.
  induction 1 as [|m l Hm _ IH]; simpl; [reflexivity|].
  destruct (Z.eqb_spec (fst m) pk); [contradiction|assumption].
Qed.

(** [_key_index] finds the first pending update of [pk]. *)
Lemma key_index_from_spec (l : list PendingRowUpdate) pk : forall idx,
  (key_index_from l pk idx = -1 /\ Forall (fun m => fst m <> pk) l) \/
  (exists l1 m l2,
     l = l1 ++ m :: l2 /\ Forall (fun m => fst m <> pk) l1 /\ fst m = pk /\
     key_index_from l pk idx = idx + Z.of_nat (List.length l1)).
Proof.
  induction l as [|m l IH]; intros idx; simpl.
  - left; split; [reflexivity|constructor].
  - destruct (Z.eqb_spec (fst m) pk) as [Heq|Hne].
    + right. exists [], m, l. simpl. repeat split; auto. lia.
    + destruct (IH (idx + 1))
        as [[Hk Hall]|(l1 & m' & l2 & -> & Hall & Hm & Hk)].
      * left; split; [assumption|constructor; assumption].
      * right. exists (m :: l1), m', l2. simpl.
        repeat split; auto. rewrite Hk. lia.
Qed.

Lemma list_setitem_middle {A} (l1 : list A) x y l2 :
  list_setitem (l1 ++ x :: l2) (List.length l1) y = l1 ++ y :: l2.
Proof. induction l1 as [|a l1 IH]; simpl; congruence. Qed.

Lemma nth_error_middle {A} (l1 : list A) x l2 :
  nth_error (l1 ++ x :: l2) (List.length l1) = Some x.
Proof. induction l1 as [|a l1 IH]; simpl; auto. Qed.

Lemma pending_set_same st um model uv pk :
  update_mapping st = dict_set um model uv ->
  pending st model pk = map snd (filter (fun m => fst m =? pk) uv).
Proof.
  intros Hum. unfold pending. rewrite Hum, dict_get_set_same. reflexivity.
Qed.

Lemma pending_set_other st st0 model uv model' pk :
  update_mapping st = dict_set (update_mapping st0) model uv ->
  model <> model' ->
  pending st model' pk = pending st0 model' pk.
Proof.
  intros Hum Hne. unfold pending.
  rewrite Hum, dict_get_set_other by assumption. reflexivity.
Qed.

(** [add] returns; it merges into the first pending update of the pair,
    or appends one, and touches nothing else. *)
Lemma add_spec st model pk kw :
  exists st',
    add st model pk kw = inr st' /\
    pending st' model pk =
      match pending st model pk with
      | [] => [kw]
      | c :: rest => dict_update c kw :: rest
      end /\
    (forall model' pk', (model', pk') <> (model, pk) ->
       pending st' model' pk' = pending st model' pk') /\
    commit_lambdas st' = commit_lambdas st /\
    commit_lambdas_data st' = commit_lambdas_data st.
Proof.
  unfold add, _key_index, dict_mem, dict_getitem.
  destruct (dict_get (update_mapping st) model) as [uv|] eqn:Hget; simpl.
  - destruct (key_index_from_spec uv pk 0)
      as [[Hk Hall]|(l1 & m & l2 & -> & Hall & Hm & Hk)]; rewrite Hk.
    + (* no pending update for [pk]: append *)
      simpl. eexists; split; [reflexivity|]. repeat split.
      * erewrite pending_set_same by reflexivity.
        unfold pending. rewrite Hget.
        rewrite filter_app, !(filter_pk_none Hall). simpl.
        rewrite Z.eqb_refl. reflexivity.
      * intros model' pk' Hne.
        destruct (String.eqb_spec model model') as [<-|Hm'].
        -- erewrite pending_set_same by reflexivity.
           unfold pending. rewrite Hget, filter_app. simpl.
           destruct (Z.eqb_spec pk pk'); [congruence|].
           rewrite app_nil_r. reflexivity.
        -- eapply pending_set_other; [reflexivity|assumption].
    + (* merge into the update at the index found *)
      replace (0 + Z.of_nat (List.length l1) >=? 0) with true
        by (symmetry; apply Z.geb_le; lia).
      unfold list_getitem. simpl (0 + _).
      rewrite Nat2Z.id, nth_error_middle. simpl.
      eexists; split; [reflexivity|]. repeat split.
      * erewrite pending_set_same by reflexivity.
        rewrite list_setitem_middle.
        unfold pending. rewrite Hget.
        rewrite !filter_app, !(filter_pk_none Hall). simpl.
        rewrite Hm, Z.eqb_refl. reflexivity.
      * intros model' pk' Hne.
        destruct (String.eqb_spec model model') as [<-|Hm'].
        -- erewrite pending_set_same by reflexivity.
           rewrite list_setitem_middle.
           unfold pending. rewrite Hget, !filter_app. simpl.
           rewrite Hm. destruct (Z.eqb_spec pk pk'); [congruence|].
           reflexivity.
        -- eapply pending_set_other; [reflexivity|assumption].
  - eexists; split; [reflexivity|]. repeat split.
    + erewrite pending_set_same by reflexivity.
      unfold pending. rewrite Hget. simpl. rewrite Z.eqb_refl. reflexivity.
    + intros model' pk' Hne.
      destruct (String.eqb_spec model model') as [<-|Hm'].
      * erewrite pending_set_same by reflexivity.
        unfold pending. rewrite Hget. simpl.
        destruct (Z.eqb_spec pk pk'); [congruence|reflexivity].
      * eapply pending_set_other; [reflexivity|assumption].
Qed.

(** [delete] returns; it appends a pending update that holds the deletion
    marker alone, whatever the buffer already holds for the pair. *)
Lemma delete_spec st model pk kw :
  exists st',
    delete st model pk kw = inr st' /\
    pending st' model pk =
      pending st model pk ++ [[("delete_tag", VStr "X")]] /\
    (forall model' pk', (model', pk') <> (model, pk) ->
       pending st' model' pk' = pending st model' pk').
Proof.
  unfold delete, dict_mem, dict_getitem.
  destruct (dict_get (update_mapping st) model) as [uv|] eqn:Hget; simpl.
  - eexists; split; [reflexivity|]. split.
    + erewrite pending_set_same by reflexivity.
      unfold pending. rewrite Hget, filter_app, map_app. simpl.
      rewrite Z.eqb_refl. reflexivity.
    + intros model' pk' Hne.
      destruct (String.eqb_spec model model') as [<-|Hm'].
      * erewrite pending_set_same by reflexivity.
        unfold pending. rewrite Hget, filter_app. simpl.
        destruct (Z.eqb_spec pk pk'); [congruence|].
        rewrite app_nil_r. reflexivity.
      * eapply pending_set_other; [reflexivity|assumption].
  - eexists; split; [reflexivity|]. split.
    + erewrite pending_set_same by reflexivity.
      unfold pending. rewrite Hget. simpl. rewrite Z.eqb_refl. reflexivity.
    + intros model' pk' Hne.
      destruct (String.eqb_spec model model') as [<-|Hm'].
      * erewrite pending_set_same by reflexivity.
        unfold pending. rewrite Hget. simpl.
        destruct (Z.eqb_spec pk pk'); [congruence|reflexivity].
      * eapply pending_set_other; [reflexivity|assumption].
Qed.

Lemma add_keeps_at_most_one st model pk kw st' :
  at_most_one st -> add st model pk kw = inr st' -> at_most_one st'.
Proof.
  intros Hinv Hadd model' pk'.
  destruct (add_spec st model pk kw) as (st2 & Hadd2 & Hsame & Hother & _).
  rewrite Hadd in Hadd2; injection Hadd2 as <-.
  destruct (String.eqb_spec model' model) as [->|Hm].
  - destruct (Z.eq_dec pk' pk) as [->|Hp].
    + rewrite Hsame. specialize (Hinv model pk).
      destruct (pending st model pk); simpl in *; lia.
    + rewrite Hother by congruence. apply Hinv.
  - rewrite Hother by congruence. apply Hinv.
Qed.

Lemma hooks_set_same st cl per_pk runnable_type pk fns :
  commit_lambdas st = dict_set cl runnable_type (dict_set per_pk pk fns) ->
  hooks st runnable_type pk = fns.
Proof.
  intros Hcl. unfold hooks.
  rewrite Hcl, dict_get_set_same, dict_get_set_same. reflexivity.
Qed.

Lemma hooks_set_other st cl per_pk runnable_type pk fns t' pk' :
  commit_lambdas st = dict_set cl runnable_type (dict_set per_pk pk fns) ->
  (dict_get cl runnable_type = Some per_pk \/
   dict_get cl runnable_type = None /\ per_pk = []) ->
  (t', pk') <> (runnable_type, pk) ->
  hooks st t' pk' =
  match dict_get cl t' with
  | Some q => match dict_get q pk' with Some fns' => fns' | None => [] end
  | None => []
  end.
Proof.
  intros Hcl Hper Hne. unfold hooks. rewrite Hcl.
  destruct (String.eqb_spec runnable_type t') as [<-|Ht].
  - rewrite dict_get_set_same.
    rewrite dict_get_set_other by congruence.
    destruct Hper as [->|[-> ->]]; reflexivity.
  - rewrite dict_get_set_other by assumption. reflexivity.
Qed.

(** [add_commit_runnable] returns; it appends [fn] to the runnables of
    [(runnable_type, pk)] and resets the payload of [pk] exactly when the
    pair had no runnable yet. *)
Lemma add_commit_runnable_spec st runnable_type pk fn :
  exists st',
    add_commit_runnable st runnable_type pk fn = inr st' /\
    hooks st' runnable_type pk = hooks st runnable_type pk ++ [fn] /\
    (forall t' pk', (t', pk') <> (runnable_type, pk) ->
       hooks st' t' pk' = hooks st t' pk') /\
    commit_lambdas_data st' =
      (if has_commit_runnable st runnable_type pk
       then commit_lambdas_data st
       else dict_set (commit_lambdas_data st) pk empty_dict) /\
    update_mapping st' = update_mapping st.
Proof.
  unfold add_commit_runnable, has_commit_runnable, dict_mem, dict_getitem.
  destruct (dict_get (commit_lambdas st) runnable_type) as [per_pk|] eqn:Ht;
    simpl.
  - rewrite Ht; simpl.
    destruct (dict_get per_pk pk) as [fns|] eqn:Hp; simpl.
    + rewrite Ht; simpl. rewrite Hp; simpl.
      eexists; split; [reflexivity|]. repeat split.
      * erewrite hooks_set_same by reflexivity.
        unfold hooks. rewrite Ht, Hp. reflexivity.
      * intros t' pk' Hne.
        erewrite hooks_set_other; [reflexivity|reflexivity|auto|assumption].
    + repeat (rewrite dict_get_set_same; simpl).
      rewrite dict_set_set, dict_set_set.
      eexists; split; [reflexivity|]. repeat split.
      * erewrite hooks_set_same by reflexivity.
        unfold hooks. rewrite Ht, Hp. reflexivity.
      * intros t' pk' Hne.
        erewrite hooks_set_other; [reflexivity|reflexivity|auto|assumption].
  - repeat (rewrite dict_get_set_same; simpl).
    rewrite !Z.eqb_refl. simpl. rewrite !dict_set_set.
    eexists; split; [reflexivity|]. repeat split.
    + erewrite hooks_set_same with (per_pk := []) by (simpl; reflexivity).
      unfold hooks. rewrite Ht. reflexivity.
    + intros t' pk' Hne.
      erewrite hooks_set_other with (per_pk := []);
        [|simpl; reflexivity|auto|assumption].
      unfold hooks. reflexivity.
Qed.

Lemma hooks_never_raise_empty st :
  commit_lambdas st = [] -> hooks_never_raise_ObjectDoesNotExist st.
Proof.
  intros Hcl t pk fn data row Hin. unfold hooks in Hin.
  rewrite Hcl in Hin. contradiction.
Qed.

(** Registering a runnable that never raises [ObjectDoesNotExist] keeps a
    buffer free of such runnables. *)
Lemma hooks_never_raise_add_commit_runnable st t pk fn st' :
  hooks_never_raise_ObjectDoesNotExist st ->
  (forall data row, fn data row <> HRaise ObjectDoesNotExist) ->
  add_commit_runnable st t pk fn = inr st' ->
  hooks_never_raise_ObjectDoesNotExist st'.
Proof.
  intros Hst Hfn Hadd t' pk' fn' data row Hin.
  destruct (add_commit_runnable_spec st t pk fn)
    as (st2 & Hadd2 & Hsame & Hother & _).
  rewrite Hadd in Hadd2; injection Hadd2 as <-.
  destruct (String.eqb_spec t' t) as [->|Ht].
  - destruct (Z.eq_dec pk' pk) as [->|Hp].
    + rewrite Hsame in Hin. apply in_app_or in Hin.
      destruct Hin as [Hin|[<-|[]]]; [|apply Hfn].
      eapply Hst; eassumption.
    + rewrite Hother in Hin by congruence. eapply Hst; eassumption.
  - rewrite Hother in Hin by congruence. eapply Hst; eassumption.
Qed.

(** * The column maps of a buffer are dicts *)

Lemma in_all_updates um model pk (cu : dict string value) :
  In (model, (pk, cu)) (all_updates um) <->
  exists update_vals, In (model, update_vals) um /\ In (pk, cu) update_vals.
Proof.
  unfold all_updates. rewrite in_flat_map. split.
  - intros ([m uv] & Hin & Hmap). simpl in Hmap.
    apply in_map_iff in Hmap as ([pk' cu'] & [= <- <- <-] & Hin').
    exists uv. split; assumption.
  - intros (uv & Hin & Hin'). exists (model, uv). split; [assumption|].
    simpl. apply in_map_iff. exists (pk, cu). split; [reflexivity|assumption].
Qed.

(** Replacing the pending updates of one model by updates with unique
    keys keeps the keys of the buffer unique. *)
Lemma unique_columns_set st st' model update_vals :
  unique_columns st ->
  update_mapping st' = dict_set (update_mapping st) model update_vals ->
  (forall pk cu, In (pk, cu) update_vals -> NoDup (dict_keys cu)) ->
  unique_columns st'.
Proof.
  intros Hst Hum Hnew m pk cu Hin. rewrite Hum in Hin.
  apply in_all_updates in Hin as (uv & Hin & Hin').
  apply dict_set_in in Hin as [[-> ->]|Hin].
  - eapply Hnew; eassumption.
  - apply (Hst m pk cu). apply in_all_updates. exists uv.
    split; assumption.
Qed.

Lemma unique_columns_lookup st model update_vals pk cu :
  unique_columns st ->
  dict_get (update_mapping st) model = Some update_vals ->
  In (pk, cu) update_vals ->
  NoDup (dict_keys cu).
Proof.
  intros Hst Hget Hin. apply (Hst model pk cu).
  apply in_all_updates. exists update_vals.
  split; [apply dict_get_in; assumption|assumption].
Qed.

Lemma add_unique_columns st model pk kw st' :
  unique_columns st -> NoDup (dict_keys kw) ->
  add st model pk kw = inr st' -> unique_columns st'.
Proof.
  intros Hst Hkw. unfold add, _key_index, dict_mem, dict_getitem.
  destruct (dict_get (update_mapping st) model) as [uv|] eqn:Hget; simpl.
  - destruct (key_index_from uv pk 0 >=? 0).
    + unfold list_getitem.
      destruct (nth_error uv (Z.to_nat (key_index_from uv pk 0)))
        as [m|] eqn:Hnth; simpl; [|discriminate].
      intros [= <-].
      eapply unique_columns_set; [exact Hst|reflexivity|].
      intros pk' cu' Hin. apply list_setitem_in in Hin as [[= -> ->]|Hin].
      * apply dict_update_keys_NoDup.
        eapply unique_columns_lookup with (pk := fst m);
          [exact Hst|exact Hget|].
        rewrite <- surjective_pairing. eapply nth_error_In; exact Hnth.
      * eapply unique_columns_lookup; eassumption.
    + intros [= <-].
      eapply unique_columns_set; [exact Hst|reflexivity|].
      intros pk' cu' Hin. apply in_app_or in Hin as [Hin|[[= <- <-]|[]]].
      * eapply unique_columns_lookup; eassumption.
      * exact Hkw.
  - intros [= <-].
    eapply unique_columns_set; [exact Hst|reflexivity|].
    intros pk' cu' [[= <- <-]|[]]. exact Hkw.
Qed.

Lemma marker_alone_unique : NoDup (dict_keys [("delete_tag", VStr "X")]).
Proof. repeat constructor. simpl. tauto. Qed.

Lemma delete_unique_columns st model pk kw st' :
  unique_columns st ->
  delete st model pk kw = inr st' -> unique_columns st'.
Proof.
  intros Hst. unfold delete, dict_mem, dict_getitem.
  destruct (dict_get (update_mapping st) model) as [uv|] eqn:Hget; simpl.
  - intros [= <-].
    eapply unique_columns_set; [exact Hst|reflexivity|].
    intros pk' cu' Hin. apply in_app_or in Hin as [Hin|[[= <- <-]|[]]].
    + eapply unique_columns_lookup; eassumption.
    + exact marker_alone_unique.
  - intros [= <-].
    eapply unique_columns_set; [exact Hst|reflexivity|].
    intros pk' cu' [[= <- <-]|[]]. exact marker_alone_unique.
Qed.

(** Every buffer built by [add] and [delete] calls has column maps with
    unique keys. *)
Lemma run_ops_unique_columns ops : forall st st',
  unique_columns st ->
  Forall op_kwargs_ok ops ->
  run_ops ops st = inr st' ->
  unique_columns st'.
Proof.
  induction ops as [|op ops IH]; intros st st' Hst Hops; simpl.
  - intros [= <-]. exact Hst.
  - inversion Hops as [|? ? Hop Hrest]; subst.
    destruct (run_op st op) as [e|st1] eqn:Hrun; [discriminate|].
    apply IH; [|assumption].
    destruct op as [model pk kw|model pk]; simpl in *.
    + eapply add_unique_columns; eassumption.
    + eapply delete_unique_columns; eassumption.
Qed.

(** * Running the registered runnables *)

Lemma set_commit_lambdas_data_id st :
  set_commit_lambdas_data st (commit_lambdas_data st) = st.
Proof. destruct st; reflexivity. Qed.

Lemma run_hooks_slot fns : forall d row n slot out,
  run_hooks fns (Some d) row = (n, slot, out) -> exists d', slot = Some d'.
Proof.
  induction fns as [|fn fns IH]; intros d row n slot out; simpl.
  - intros [= <- <- <-]. eauto.
  - destruct (fn d row) as [e|data' row' res].
    + intros [= <- <- <-]. eauto.
    + destruct (run_hooks fns _ row') as [[n' slot'] out'] eqn:Hr.
      intros [= <- <- <-]. eapply IH; eassumption.
Qed.

Lemma run_hooks_calls fns : forall slot row n slot' row',
  run_hooks fns slot row = (n, slot', inr row') -> n = List.length fns.
Proof.
  induction fns as [|fn fns IH]; intros slot row n slot' row'; simpl.
  - intros [= <- _ _]. reflexivity.
  - destruct slot as [d|]; [|discriminate].
    destruct (fn d row) as [e|data1 row1 res]; [discriminate|].
    destruct (run_hooks fns _ row1) as [[n1 slot1] out1] eqn:Hr.
    intros [= <- <- ->]. f_equal. eapply IH; eassumption.
Qed.

Lemma runs_cons t pk i n :
  runs t pk i (S n) = EvRun t pk i :: runs t pk (S i) n.
Proof. reflexivity. Qed.

Section HookFacts.
Context {Store : Type} `{ORM Store}.

Lemma frame_slot_id (s : frame Store) pk :
  mkFrame
    (set_commit_lambdas_data (self s)
       match dict_get (commit_lambdas_data (self s)) pk with
       | Some d => dict_set (commit_lambdas_data (self s)) pk d
       | None => commit_lambdas_data (self s)
       end)
    (db s) (log s ++ []) (rows_updated s) = s.
Proof.
  rewrite app_nil_r.
  destruct (dict_get (commit_lambdas_data (self s)) pk) eqn:Hg.
  - rewrite (dict_set_get_id _ _ Hg), set_commit_lambdas_data_id.
    destruct s; reflexivity.
  - rewrite set_commit_lambdas_data_id. destruct s; reflexivity.
Qed.

(** The loop of [_run_lambdas] computes [run_hooks]: it reads the slot
    before each call and writes it after each call that returns. *)
Lemma run_each_spec t pk fns : forall i row (s : frame Store) n slot out,
  run_hooks fns (dict_get (commit_lambdas_data (self s)) pk) row
    = (n, slot, out) ->
  run_each t pk i fns row s =
  (mkFrame
     (set_commit_lambdas_data (self s)
        match slot with
        | Some d => dict_set (commit_lambdas_data (self s)) pk d
        | None => commit_lambdas_data (self s)
        end)
     (db s) (log s ++ runs t pk i n) (rows_updated s), out).
Proof.
  induction fns as [|fn fns IH]; intros i row s n slot out; simpl.
  - intros [= <- <- <-]. unfold ret, runs. simpl.
    rewrite frame_slot_id. reflexivity.
  - unfold bind, load_data, dict_getitem.
    destruct (dict_get (commit_lambdas_data (self s)) pk) as [d|] eqn:Hg.
    + simpl. destruct (fn d row) as [e|data' row' res].
      * intros [= <- <- <-]. unfold throw. simpl.
        rewrite (dict_set_get_id _ _ Hg), set_commit_lambdas_data_id.
        reflexivity.
      * destruct (run_hooks fns _ row') as [[n1 slot1] out1] eqn:Hr.
        intros [= <- <- <-]. unfold store_data. simpl.
        destruct (run_hooks_slot _ _ _ Hr) as [d1 ->].
        erewrite IH; cycle 1.
        { simpl. rewrite dict_get_set_same. exact Hr. }
        simpl. rewrite dict_set_set, <- app_assoc. reflexivity.
    + intros [= <- <- <-]. unfold raise, runs. simpl.
      rewrite app_nil_r, set_commit_lambdas_data_id.
      destruct s; reflexivity.
Qed.

Lemma has_commit_runnable_false_hooks st t pk :
  has_commit_runnable st t pk = false -> hooks st t pk = [].
Proof.
  unfold has_commit_runnable, hooks, dict_mem.
  destruct (dict_get (commit_lambdas st) t) as [per_pk|]; [|reflexivity].
  destruct (dict_get per_pk pk); [discriminate|reflexivity].
Qed.

(** [_run_lambdas] refines [run_hooks] on the runnables registered for
    the pair and the payload slot of the row id. *)
Lemma run_lambdas_refines t pk row (s : frame Store) n slot out :
  run_hooks (hooks (self s) t pk)
    (dict_get (commit_lambdas_data (self s)) pk) row = (n, slot, out) ->
  _run_lambdas t pk row s = (after_hooks s t pk n slot, out).
Proof.
  unfold _run_lambdas, after_hooks.
  destruct (has_commit_runnable (self s) t pk) eqn:Hh.
  - unfold has_commit_runnable, dict_mem in Hh. unfold hooks.
    unfold bind, lift, dict_getitem.
    destruct (dict_get (commit_lambdas (self s)) t) as [per_pk|];
      [|discriminate].
    simpl.
    destruct (dict_get per_pk pk) as [fns|]; [|discriminate].
    simpl. apply run_each_spec.
  - rewrite (has_commit_runnable_false_hooks _ _ _ Hh). simpl.
    intros [= <- <- <-]. unfold runs. simpl.
    rewrite frame_slot_id. reflexivity.
Qed.
End HookFacts.

(** * Reasoning rules for frame computations *)

Section Triples.
Context {Store : Type} `{ORM Store}.

Implicit Types P : frame Store -> Prop.
Implicit Types E : exn -> frame Store -> Prop.

Lemma triple_ret {A} P (a : A) (Q : A -> frame Store -> Prop) E :
  (forall s, P s -> Q a s) -> triple P (ret a) Q E.
Proof. intros HQ s Hs. simpl. auto. Qed.

Lemma triple_bind {A B} P (m : M Store A) (f : A -> M Store B)
    (Q : A -> frame Store -> Prop) (R : B -> frame Store -> Prop) E :
  triple P m Q E ->
  (forall a, triple (Q a) (f a) R E) ->
  triple P (bind m f) R E.
Proof.
  intros Hm Hf s Hs. unfold bind.
  specialize (Hm s Hs). destruct (m s) as [s' [e|a]]; [assumption|].
  apply Hf; assumption.
Qed.

Lemma triple_bind_ret {A B} P (a : A) (f : A -> M Store B)
    (Q : B -> frame Store -> Prop) E :
  triple P (f a) Q E -> triple P (bind (ret a) f) Q E.
Proof. intros Hf s Hs. exact (Hf s Hs). Qed.

Lemma triple_conseq {A} P P' (m : M Store A)
    (Q Q' : A -> frame Store -> Prop) E E' :
  triple P' m Q' E' ->
  (forall s, P s -> P' s) ->
  (forall a s, Q' a s -> Q a s) ->
  (forall e s, E' e s -> E e s) ->
  triple P m Q E.
Proof.
  intros Hm HP HQ HE s Hs. specialize (Hm s (HP s Hs)).
  destruct (m s) as [s' [e|a]]; auto.
Qed.

Lemma triple_lift {A} P (r : result A) (Q : A -> frame Store -> Prop) E :
  (forall s, P s -> match r with inr a => Q a s | inl e => E e s end) ->
  triple P (lift r) Q E.
Proof. intros Hr s Hs. unfold lift. specialize (Hr s Hs). destruct r; auto. Qed.

Lemma triple_emit P ev (Q : unit -> frame Store -> Prop) E :
  (forall s, P s -> Q tt (with_log s (log s ++ [ev]))) ->
  triple P (emit ev) Q E.
Proof. intros HQ s Hs. simpl. apply HQ; assumption. Qed.

Lemma triple_incr P (Q : unit -> frame Store -> Prop) E :
  (forall s, P s ->
     Q tt (mkFrame (self s) (db s) (log s) (rows_updated s + 1))) ->
  triple P incr_rows_updated Q E.
Proof. intros HQ s Hs. simpl. apply HQ; assumption. Qed.

Lemma triple_run_lambdas P t pk row (Q : Row -> frame Store -> Prop) E :
  (forall s n slot out,
     P s ->
     run_hooks (hooks (self s) t pk)
       (dict_get (commit_lambdas_data (self s)) pk) row = (n, slot, out) ->
     match out with
     | inr r => Q r (after_hooks s t pk n slot)
     | inl e => E e (after_hooks s t pk n slot)
     end) ->
  triple P (_run_lambdas t pk row) Q E.
Proof.
  intros HQ s Hs.
  destruct (run_hooks (hooks (self s) t pk)
              (dict_get (commit_lambdas_data (self s)) pk) row)
    as [[n slot] out] eqn:Hr.
  rewrite (run_lambdas_refines _ _ _ _ Hr).
  exact (HQ s n slot out Hs Hr).
Qed.

Lemma triple_get P model pk (Q : Row -> frame Store -> Prop) E :
  (forall s, P s ->
     match objects_get model pk (db s) with
     | inr r => Q r (with_log s (log s ++ [EvGet model pk]))
     | inl e => E e (with_log s (log s ++ [EvGet model pk]))
     end) ->
  triple P (do_get model pk) Q E.
Proof.
  intros HQ s Hs. unfold do_get, bind, emit. simpl.
  specialize (HQ s Hs).
  destruct (objects_get model pk (db s)); assumption.
Qed.

Lemma triple_delete P model pk row (Q : Row -> frame Store -> Prop) E :
  (forall s, P s ->
     match row_delete row (db s) with
     | inr (r, d) =>
         Q r (mkFrame (self s) d (log s ++ [EvDelete model pk])
                (rows_updated s))
     | inl e => E e s
     end) ->
  triple P (do_delete model pk row) Q E.
Proof.
  intros HQ s Hs. unfold do_delete. specialize (HQ s Hs).
  destruct (row_delete row (db s)) as [e|[r d]]; assumption.
Qed.

Lemma triple_save P model pk row (Q : Row -> frame Store -> Prop) E :
  (forall s, P s ->
     match row_save row (db s) with
     | inr (r, d) =>
         Q r (mkFrame (self s) d (log s ++ [EvSave model pk])
                (rows_updated s))
     | inl e => E e s
     end) ->
  triple P (do_save model pk row) Q E.
Proof.
  intros HQ s Hs. unfold do_save. specialize (HQ s Hs).
  destruct (row_save row (db s)) as [e|[r d]]; assumption.
Qed.

Lemma triple_try P (body : M Store unit)
    (Q : unit -> frame Store -> Prop) E :
  triple P body Q
    (fun e s => match e with ObjectDoesNotExist => Q tt s | _ => E e s end) ->
  triple P (try_except_ObjectDoesNotExist body) Q E.
Proof.
  intros Hb s Hs. unfold try_except_ObjectDoesNotExist.
  specialize (Hb s Hs). destruct (body s) as [s' [e|[]]]; [|assumption].
  destruct e; assumption.
Qed.
End Triples.

(** * What [commit] leaves alone *)

Create HintDb keeps.

Section Keeps.
Context {Store : Type} `{ORM Store}.

(** A property of frames that does not look at the log, the payloads,
    the store or the counter. *)
Variable P : frame Store -> Prop.
Hypothesis P_log : forall s l, P s -> P (with_log s l).
Hypothesis P_data : forall s cd, P s ->
  P (mkFrame (set_commit_lambdas_data (self s) cd) (db s) (log s)
       (rows_updated s)).
Hypothesis P_db : forall s d, P s ->
  P (mkFrame (self s) d (log s) (rows_updated s)).
Hypothesis P_count : forall s n, P s ->
  P (mkFrame (self s) (db s) (log s) n).

Lemma keeps_bind {A B} (m : M Store A) (f : A -> M Store B) :
  keeps P m -> (forall a, keeps P (f a)) -> keeps P (bind m f).
Proof. intros Hm Hf. eapply triple_bind; [exact Hm|exact Hf]. Qed.

Lemma keeps_ret {A} (a : A) : keeps P (ret a).
Proof. apply triple_ret; auto. Qed.

Lemma keeps_lift {A} (r : result A) : keeps P (lift r).
Proof. apply triple_lift. intros s Hs. destruct r; assumption. Qed.

Lemma keeps_emit ev : keeps P (emit ev).
Proof. apply triple_emit. intros s Hs. apply P_log; assumption. Qed.

Lemma keeps_incr : keeps P incr_rows_updated.
Proof. apply triple_incr. intros s Hs. apply P_count; assumption. Qed.

Lemma keeps_run_lambdas t pk row : keeps P (_run_lambdas t pk row).
Proof.
  apply triple_run_lambdas. intros s n slot out Hs _.
  assert (P (after_hooks s t pk n slot)) as Ha.
  { unfold after_hooks.
    apply (P_log (log s ++ runs t pk 0 n)) in Hs.
    apply (P_data
             match slot with
             | Some d => dict_set (commit_lambdas_data (self s)) pk d
             | None => commit_lambdas_data (self s)
             end) in Hs.
    exact Hs. }
  destruct out; assumption.
Qed.

Lemma keeps_get model pk : keeps P (do_get model pk).
Proof.
  apply triple_get. intros s Hs.
  destruct (objects_get model pk (db s)); apply P_log; assumption.
Qed.

Lemma keeps_delete model pk row : keeps P (do_delete model pk row).
Proof.
  apply triple_delete. intros s Hs.
  destruct (row_delete row (db s)) as [e|[r d]]; [assumption|].
  apply (P_db d) in Hs. apply (P_log (log s ++ [EvDelete model pk])) in Hs.
  exact Hs.
Qed.

Lemma keeps_save model pk row : keeps P (do_save model pk row).
Proof.
  apply triple_save. intros s Hs.
  destruct (row_save row (db s)) as [e|[r d]]; [assumption|].
  apply (P_db d) in Hs. apply (P_log (log s ++ [EvSave model pk])) in Hs.
  exact Hs.
Qed.

Lemma keeps_try (body : M Store unit) :
  keeps P body -> keeps P (try_except_ObjectDoesNotExist body).
Proof.
  intros Hb. apply triple_try.
  eapply triple_conseq; [exact Hb|auto|auto|].
  intros e s Hs. destruct e; assumption.
Qed.

Hint Resolve keeps_ret keeps_lift keeps_emit keeps_incr keeps_run_lambdas
  keeps_get keeps_delete keeps_save : keeps.

Ltac keeps_step :=
  repeat first
    [ solve [auto with keeps]
    | match goal with
      | |- keeps _ (bind _ _) => apply keeps_bind; [|intro]
      | |- keeps _ (if ?b then _ else _) => destruct b
      end ].

Lemma keeps_commit_columns model pk cu items : forall row n,
  keeps P (commit_columns model pk cu items row n).
Proof.
  induction items as [|[key val] rest IH]; intros row n; simpl.
  - apply keeps_ret.
  - keeps_step; apply IH.
Qed.

Lemma keeps_row_body model update : keeps P (row_body model update).
Proof.
  destruct update as [pk cu]. unfold row_body.
  keeps_step. apply keeps_commit_columns.
Qed.

Lemma keeps_commit_row model update : keeps P (commit_row model update).
Proof. apply keeps_try, keeps_row_body. Qed.

Lemma keeps_commit_update_vals model update_vals :
  keeps P (commit_update_vals model update_vals).
Proof.
  induction update_vals as [|u rest IH]; simpl.
  - apply keeps_ret.
  - apply keeps_bind; [apply keeps_commit_row|intro; exact IH].
Qed.

Lemma keeps_commit_all updates : keeps P (commit_all updates).
Proof.
  induction updates as [|[model u] rest IH]; simpl.
  - apply keeps_ret.
  - apply keeps_bind; [apply keeps_commit_row|intro; exact IH].
Qed.

Lemma keeps_commit_models items : keeps P (commit_models items).
Proof.
  induction items as [|[model uv] rest IH]; simpl.
  - apply keeps_ret.
  - apply keeps_bind; [apply keeps_commit_update_vals|intro; exact IH].
Qed.
End Keeps.

(** * The loops of [commit] *)

Section CommitStructure.
Context {Store : Type} `{ORM Store}.

Lemma commit_update_vals_all model update_vals :
  forall (k : M Store unit) rest,
  (forall s, k s = commit_all rest s) ->
  forall s,
    bind (commit_update_vals model update_vals) (fun _ => k) s =
    commit_all (map (fun u => (model, u)) update_vals ++ rest) s.
Proof.
  induction update_vals as [|u uv IH]; intros k rest Hk s; simpl.
  - apply Hk.
  - unfold bind.
    destruct (commit_row model u s) as [s' [e|[]]]; [reflexivity|].
    apply IH; assumption.
Qed.

(** The nested loops visit the pending updates in the order of
    [all_updates]. *)
Lemma commit_models_all items : forall s : frame Store,
  commit_models items s = commit_all (all_updates items) s.
Proof.
  induction items as [|[model uv] rest IH]; intros s; simpl.
  - reflexivity.
  - apply commit_update_vals_all. exact IH.
Qed.

Lemma commit_as_all st (d : Store) :
  commit st d =
  finish (commit_all (all_updates (update_mapping st)) (mkFrame st d [] 0)).
Proof.
  unfold commit, finish. rewrite commit_models_all.
  destruct (commit_all _ _) as [s [e|[]]]; reflexivity.
Qed.

Lemma commit_all_app pre : forall post (s : frame Store),
  commit_all (pre ++ post) s =
  match commit_all pre s with
  | (s', inl e) => (s', inl e)
  | (s', inr _) => commit_all post s'
  end.
Proof.
  induction pre as [|[model u] pre IH]; intros post s; simpl.
  - reflexivity.
  - unfold bind.
    destruct (commit_row model u s) as [s' [e|[]]]; [reflexivity|].
    apply IH.
Qed.

End CommitStructure.

(** * The count [commit] returns *)

Lemma run_hooks_raises fns : forall slot row n slot' e,
  run_hooks fns slot row = (n, slot', inl e) ->
  (forall fn data r, In fn fns -> fn data r <> HRaise ObjectDoesNotExist) ->
  e <> ObjectDoesNotExist.
Proof.
  induction fns as [|fn fns IH]; intros slot row n slot' e; simpl.
  - discriminate.
  - destruct slot as [d|]; [|intros [= _ _ <-] _; discriminate].
    destruct (fn d row) as [e0|data1 row1 res] eqn:Hfn.
    + intros [= _ _ <-] Hno Heq. subst e0.
      exact (Hno fn d row (or_introl eq_refl) Hfn).
    + destruct (run_hooks fns _ row1) as [[n1 slot1] out1] eqn:Hr.
      intros [= _ _ ->] Hno. eapply IH; [exact Hr|].
      intros fn' data r Hin. apply Hno. right; assumption.
Qed.

Section Count.
Context {Store : Type} `{ORM Store}.

Variable st : AdapterStaging.
Hypothesis hooks_ok : hooks_never_raise_ObjectDoesNotExist st.
Hypothesis writes_ok : writes_never_raise_ObjectDoesNotExist.

Local Abbreviation even := (@in_step Store st).
Local Abbreviation behind := (@one_short Store st).
Local Abbreviation caught := (@catchable Store st).

Lemma caught_of_even e s : even s -> caught e s.
Proof. intros Hs. destruct e; simpl; auto. Qed.

Lemma caught_of_neq e s : e <> ObjectDoesNotExist -> caught e s.
Proof. intros Hne. destruct e; simpl; auto. congruence. Qed.

Lemma hooks_of_frame (s : frame Store) t pk :
  commit_lambdas (self s) = commit_lambdas st ->
  hooks (self s) t pk = hooks st t pk.
Proof. intros Hcl. unfold hooks. rewrite Hcl. reflexivity. Qed.

(** Running the runnables logs neither a deletion nor a save and does
    not touch the counter. *)
Lemma run_lambdas_count (C : frame Store -> Prop) t pk row :
  (forall s n slot, C s -> C (after_hooks s t pk n slot)) ->
  triple (fun s => commit_lambdas (self s) = commit_lambdas st /\ C s)
    (_run_lambdas t pk row)
    (fun _ s => commit_lambdas (self s) = commit_lambdas st /\ C s)
    (fun e _ => e <> ObjectDoesNotExist).
Proof.
  intros HC. apply triple_run_lambdas.
  intros s n slot out [Hcl Hs] Hr.
  destruct out as [e|r].
  - eapply run_hooks_raises; [exact Hr|].
    intros fn data r Hin. rewrite hooks_of_frame in Hin by assumption.
    eapply hooks_ok; eassumption.
  - split; [exact Hcl|apply HC; exact Hs].
Qed.

Lemma counted_after_hooks (s : frame Store) t pk n slot :
  counted s -> counted (after_hooks s t pk n slot).
Proof.
  unfold counted, after_hooks. simpl. intros Hs.
  rewrite !count_events_app, !count_events_runs by reflexivity. lia.
Qed.

Lemma one_behind_after_hooks (s : frame Store) t pk n slot :
  one_behind s -> one_behind (after_hooks s t pk n slot).
Proof.
  unfold one_behind, after_hooks. simpl. intros Hs.
  rewrite !count_events_app, !count_events_runs by reflexivity. lia.
Qed.

Lemma even_run_lambdas t pk row :
  triple even (_run_lambdas t pk row) (fun _ => even) caught.
Proof.
  eapply triple_conseq;
    [apply (run_lambdas_count (@counted Store));
     intros; apply counted_after_hooks; assumption
    |auto|auto|intros; apply caught_of_neq; assumption].
Qed.

Lemma behind_run_lambdas t pk row :
  triple behind (_run_lambdas t pk row) (fun _ => behind) caught.
Proof.
  eapply triple_conseq;
    [apply (run_lambdas_count (@one_behind Store));
     intros; apply one_behind_after_hooks; assumption
    |auto|auto|intros; apply caught_of_neq; assumption].
Qed.

Lemma even_emit ev :
  is_delete ev = false -> is_save ev = false ->
  triple even (emit ev) (fun _ => even) caught.
Proof.
  intros Hd Hv. apply triple_emit. intros s [Hcl Hs].
  split; [exact Hcl|]. unfold counted, with_log in *. simpl.
  rewrite !count_events_app. unfold count_events at 2 4. simpl.
  rewrite Hd, Hv. simpl. lia.
Qed.

Lemma even_lift {A} (r : result A) :
  triple even (lift r) (fun _ => even) caught.
Proof.
  apply triple_lift. intros s Hs.
  destruct r; [apply caught_of_even|]; assumption.
Qed.

Lemma even_delete model pk row :
  triple even (do_delete model pk row) (fun _ => behind) caught.
Proof.
  apply triple_delete. intros s [Hcl Hs].
  destruct (row_delete row (db s)) as [e|[r d]] eqn:Hd.
  - apply caught_of_neq. intros ->.
    destruct (writes_ok row (db s)) as [Hno _]. contradiction.
  - split; [exact Hcl|]. unfold one_behind, counted in *. simpl.
    rewrite !count_events_app. unfold count_events at 2 4. simpl. lia.
Qed.

Lemma even_save model pk row :
  triple even (do_save model pk row) (fun _ => behind) caught.
Proof.
  apply triple_save. intros s [Hcl Hs].
  destruct (row_save row (db s)) as [e|[r d]] eqn:Hd.
  - apply caught_of_neq. intros ->.
    destruct (writes_ok row (db s)) as [_ Hno]. contradiction.
  - split; [exact Hcl|]. unfold one_behind, counted in *. simpl.
    rewrite !count_events_app. unfold count_events at 2 4. simpl. lia.
Qed.

Lemma behind_incr :
  triple behind incr_rows_updated (fun _ => even) caught.
Proof.
  apply triple_incr. intros s [Hcl Hs].
  split; [exact Hcl|]. unfold one_behind, counted in *. simpl. lia.
Qed.

Lemma even_ret {A} (a : A) : triple even (ret a) (fun _ => even) caught.
Proof. apply triple_ret; auto. Qed.

Lemma even_commit_columns model pk cu items : forall row n,
  triple even (commit_columns model pk cu items row n)
    (fun _ => even) caught.
Proof.
  induction items as [|[key val] rest IH]; intros row n; simpl.
  - apply even_ret.
  - apply triple_bind with (Q := fun _ => even).
    { destruct (String.eqb key "delete_tag").
      - apply triple_bind with (Q := fun _ => even);
          [apply even_lift|intro; apply even_ret].
      - apply even_ret. }
    intros [|].
    + apply triple_bind with (Q := fun _ => even);
        [apply even_run_lambdas|intro].
      apply triple_bind with (Q := fun _ => behind);
        [apply even_delete|intro].
      apply triple_bind with (Q := fun _ => behind);
        [apply behind_run_lambdas|intro].
      apply triple_bind with (Q := fun _ => even);
        [apply behind_incr|intro].
      apply IH.
    + apply triple_bind with (Q := fun _ => even);
        [apply even_emit; reflexivity|intro].
      apply triple_bind with (Q := fun _ => even);
        [apply even_lift|intro].
      apply triple_bind with (Q := fun _ => even);
        [apply even_lift|intro].
      destruct (py_ne _ _); [|apply IH].
      apply triple_bind with (Q := fun _ => even);
        [apply even_lift|intro].
      apply triple_bind with (Q := fun _ => even); [|intro; apply IH].
      destruct (negb _); [|apply even_ret].
      apply triple_bind with (Q := fun _ => even);
        [apply even_emit; reflexivity|intro; apply even_ret].
Qed.

Lemma even_row_body model update :
  triple even (row_body model update) (fun _ => even) caught.
Proof.
  destruct update as [pk cu]. unfold row_body.
  apply triple_bind with (Q := fun _ => even).
  { apply triple_get. intros s [Hcl Hs].
    assert (even (with_log s (log s ++ [EvGet model pk]))) as He.
    { split; [exact Hcl|]. unfold counted, with_log in *. simpl.
      rewrite !count_events_app. unfold count_events at 2 4. simpl. lia. }
    destruct (objects_get model pk (db s));
      [apply caught_of_even|]; assumption. }
  intro row.
  apply triple_bind with (Q := fun _ => even);
    [apply even_commit_columns|intro r].
  destruct (snd r >? 0); [|apply even_ret].
  apply triple_bind with (Q := fun _ => even);
    [apply even_run_lambdas|intro].
  apply triple_bind with (Q := fun _ => behind);
    [apply even_save|intro].
  apply triple_bind with (Q := fun _ => behind);
    [apply behind_run_lambdas|intro].
  apply behind_incr.
Qed.

Lemma even_commit_row model update :
  triple even (commit_row model update) (fun _ => even)
    (fun _ _ => True).
Proof.
  apply triple_try.
  eapply triple_conseq; [apply even_row_body|auto|auto|].
  intros e s He. destruct e; simpl in *; auto.
Qed.

Lemma even_commit_all updates :
  triple even (commit_all updates) (fun _ => even) (fun _ _ => True).
Proof.
  induction updates as [|[model u] rest IH]; simpl.
  - apply triple_ret; auto.
  - apply triple_bind with (Q := fun _ => even);
      [apply even_commit_row|intro; exact IH].
Qed.

(** When [commit] returns, it returns the number of deletions and saves
    it has made. *)
Lemma commit_counts (d : Store) s n :
  commit st d = (s, inr n) ->
  n = count_events is_delete (log s) + count_events is_save (log s).
Proof.
  rewrite commit_as_all. unfold finish.
  assert (even (mkFrame st d [] 0)) as H0 by (split; reflexivity).
  pose proof (even_commit_all (all_updates (update_mapping st)) H0)
    as Hall.
  destruct (commit_all _ _) as [s' [e|[]]]; [discriminate|].
  intros [= <- <-]. destruct Hall as [_ Hc]. exact Hc.
Qed.
End Count.

(** * Stepping through a frame computation *)

Section Steps.
Context {Store : Type} `{ORM Store}.

Lemma bind_inr {A B} (m : M Store A) (f : A -> M Store B) s s' a :
  m s = (s', inr a) -> bind m f s = f a s'.
Proof. intros Hm. unfold bind. rewrite Hm. reflexivity. Qed.

Lemma bind_inl {A B} (m : M Store A) (f : A -> M Store B) s s' e :
  m s = (s', inl e) -> bind m f s = (s', inl e).
Proof. intros Hm. unfold bind. rewrite Hm. reflexivity. Qed.

Lemma do_get_eq model pk (s : frame Store) :
  do_get model pk s =
  (with_log s (log s ++ [EvGet model pk]), objects_get model pk (db s)).
Proof. reflexivity. Qed.

Lemma do_delete_ok model pk row (s : frame Store) row' d' :
  row_delete row (db s) = inr (row', d') ->
  do_delete model pk row s =
  (mkFrame (self s) d' (log s ++ [EvDelete model pk]) (rows_updated s),
   inr row').
Proof. intros Hd. unfold do_delete. rewrite Hd. reflexivity. Qed.

(** The column [delete_tag] with the value ["X"]. *)
Lemma commit_columns_marker model pk cu val rest row n (s : frame Store) :
  dict_get cu "delete_tag" = Some (VStr "X") ->
  commit_columns model pk cu (("delete_tag", val) :: rest) row n s =
  bind (_run_lambdas PRECOMMIT_DELETE_LAMBDA pk row) (fun row1 =>
  bind (do_delete model pk row1) (fun row2 =>
  bind (_run_lambdas POSTCOMMIT_DELETE_LAMBDA pk row2) (fun row3 =>
  bind incr_rows_updated (fun _ =>
  commit_columns model pk cu rest row3 n)))) s.
Proof.
  intros Hg. cbn [commit_columns].
  erewrite bind_inr; cycle 1.
  { cbn [String.eqb Ascii.eqb Bool.eqb]. cbv beta iota.
    unfold bind, lift, dict_getitem. rewrite Hg. cbn. reflexivity. }
  cbv beta iota. reflexivity.
Qed.

(** A column that is not the deletion marker and whose staged value
    equals the attribute of the row: one comparison, nothing else. *)
Lemma commit_columns_equal model pk cu key val rest row n
    (s : frame Store) cur v :
  is_marker cu key = false ->
  getattr row key = inr cur ->
  dict_get cu key = Some v ->
  py_ne cur v = false ->
  commit_columns model pk cu ((key, val) :: rest) row n s =
  commit_columns model pk cu rest row n
    (with_log s (log s ++ [EvGetattr pk key])).
Proof.
  intros Hm Hcur Hv Hne. cbn [commit_columns].
  unfold is_marker in Hm. rewrite Hv in Hm.
  erewrite bind_inr with (a := false); cycle 1.
  { destruct (String.eqb key "delete_tag"); [|reflexivity].
    unfold bind, lift, dict_getitem. rewrite Hv. simpl in *.
    rewrite Hm. reflexivity. }
  cbv beta iota.
  erewrite bind_inr by reflexivity.
  erewrite bind_inr by (unfold lift; rewrite Hcur; reflexivity).
  erewrite bind_inr
    by (unfold lift, dict_getitem; rewrite Hv; reflexivity).
  rewrite Hne. reflexivity.
Qed.

(** A column that is not the deletion marker and whose staged value
    differs from the attribute of the row: the comparison, then the
    evaluation of [EXEMPTED_COLUMNS] raises. *)
Lemma commit_columns_differs model pk cu key val rest row n
    (s : frame Store) cur v :
  is_marker cu key = false ->
  getattr row key = inr cur ->
  dict_get cu key = Some v ->
  py_ne cur v = true ->
  commit_columns model pk cu ((key, val) :: rest) row n s =
  (with_log s (log s ++ [EvGetattr pk key]), inl NameError).
Proof.
  intros Hm Hcur Hv Hne. cbn [commit_columns].
  unfold is_marker in Hm. rewrite Hv in Hm.
  erewrite bind_inr with (a := false); cycle 1.
  { destruct (String.eqb key "delete_tag"); [|reflexivity].
    unfold bind, lift, dict_getitem. rewrite Hv. simpl in *.
    rewrite Hm. reflexivity. }
  cbv beta iota.
  erewrite bind_inr by reflexivity.
  erewrite bind_inr by (unfold lift; rewrite Hcur; reflexivity).
  erewrite bind_inr
    by (unfold lift, dict_getitem; rewrite Hv; reflexivity).
  rewrite Hne. reflexivity.
Qed.
End Steps.

(** * Invariants of [commit], step by step *)

Section FinePath.
Context {Store : Type} `{ORM Store}.

(** A property of frames kept by each step [commit] can take on the
    pending updates of the row ids in [touched]: a lookup or a
    comparison in the log, a run of runnables, a deletion, a count. *)
Variable touched : Z -> Prop.
Variable P : frame Store -> Prop.
Hypothesis P_event : forall s ev,
  is_delete ev = false -> is_save ev = false -> is_run ev = false ->
  is_setattr ev = false -> P s ->
  P (with_log s (log s ++ [ev])).
Hypothesis P_hooks : forall s t pk row n slot out,
  touched pk -> P s ->
  run_hooks (hooks (self s) t pk)
    (dict_get (commit_lambdas_data (self s)) pk) row = (n, slot, out) ->
  P (after_hooks s t pk n slot).
Hypothesis P_delete : forall s model pk row row' d',
  P s -> row_delete row (db s) = inr (row', d') ->
  P (mkFrame (self s) d' (log s ++ [EvDelete model pk]) (rows_updated s)).
Hypothesis P_count : forall s,
  P s -> P (mkFrame (self s) (db s) (log s) (rows_updated s + 1)).

Lemma fine_ret {A} (a : A) : keeps P (ret a).
Proof. apply triple_ret; auto. Qed.

Lemma fine_lift {A} (r : result A) : keeps P (lift r).
Proof. apply triple_lift. intros s Hs. destruct r; assumption. Qed.

Lemma fine_emit ev :
  is_delete ev = false -> is_save ev = false -> is_run ev = false ->
  is_setattr ev = false -> keeps P (emit ev).
Proof.
  intros Hd Hv Hr Ha. apply triple_emit. intros s Hs.
  apply P_event; assumption.
Qed.

Lemma fine_run_lambdas t pk row :
  touched pk -> keeps P (_run_lambdas t pk row).
Proof.
  intros Hpk. apply triple_run_lambdas. intros s n slot out Hs Hr.
  pose proof (@P_hooks s t pk row n slot out Hpk Hs Hr) as Ha.
  destruct out; exact Ha.
Qed.

Lemma fine_get model pk : keeps P (do_get model pk).
Proof.
  apply triple_get. intros s Hs.
  destruct (objects_get model pk (db s)); apply P_event; auto.
Qed.

Lemma fine_delete model pk row : keeps P (do_delete model pk row).
Proof.
  apply triple_delete. intros s Hs.
  destruct (row_delete row (db s)) as [e|[r d]] eqn:Hd; [assumption|].
  eapply P_delete; eassumption.
Qed.

Lemma fine_incr : keeps P incr_rows_updated.
Proof. apply triple_incr. intros s Hs. apply P_count. exact Hs. Qed.

Lemma fine_commit_columns model pk cu items :
  touched pk ->
  forall row n,
  triple P (commit_columns model pk cu items row n)
    (fun r s => snd r = n /\ P s) (fun _ => P).
Proof.
  intros Hpk. induction items as [|[key val] rest IH]; intros row n; simpl.
  - apply triple_ret. auto.
  - apply triple_bind with (Q := fun _ => P).
    { destruct (String.eqb key "delete_tag").
      - apply triple_bind with (Q := fun _ => P);
          [apply fine_lift|intro; apply fine_ret].
      - apply fine_ret. }
    intros [|].
    + apply triple_bind with (Q := fun _ => P);
        [apply fine_run_lambdas; exact Hpk|intro].
      apply triple_bind with (Q := fun _ => P);
        [apply fine_delete|intro].
      apply triple_bind with (Q := fun _ => P);
        [apply fine_run_lambdas; exact Hpk|intro].
      apply triple_bind with (Q := fun _ => P);
        [apply fine_incr|intro].
      apply IH.
    + apply triple_bind with (Q := fun _ => P);
        [apply fine_emit; reflexivity|intro].
      apply triple_bind with (Q := fun _ => P);
        [apply fine_lift|intro].
      apply triple_bind with (Q := fun _ => P);
        [apply fine_lift|intro].
      destruct (py_ne _ _); [|apply IH].
      apply triple_bind with (Q := fun _ _ => False).
      * apply triple_lift. intros s Hs. exact Hs.
      * intros exempted s [].
Qed.

Lemma fine_row_body model update :
  touched (fst update) -> keeps P (row_body model update).
Proof.
  destruct update as [pk cu]. intros Hpk. unfold row_body.
  apply triple_bind with (Q := fun _ => P); [apply fine_get|intro].
  apply triple_bind with (Q := fun r s => snd r = 0 /\ P s);
    [apply fine_commit_columns; exact Hpk|intro r].
  intros s [Hr Hs]. rewrite Hr. simpl. exact Hs.
Qed.

Lemma fine_commit_row model update :
  touched (fst update) -> keeps P (commit_row model update).
Proof.
  intros Hpk. apply triple_try.
  eapply triple_conseq; [apply fine_row_body; exact Hpk|auto|auto|].
  intros e s Hs. destruct e; assumption.
Qed.

Lemma fine_commit_all updates :
  Forall (fun mu => touched (fst (snd mu))) updates ->
  keeps P (commit_all updates).
Proof.
  induction updates as [|[model u] rest IH]; intros Hall; simpl.
  - apply fine_ret.
  - inversion Hall as [|x l Hu Hrest]; subst.
    apply triple_bind with (Q := fun _ => P);
      [apply fine_commit_row; exact Hu|intro; exact (IH Hrest)].
Qed.

Lemma fine_commit st (d : Store) :
  Forall (fun mu => touched (fst (snd mu)))
    (all_updates (update_mapping st)) ->
  P (mkFrame st d [] 0) -> P (fst (commit st d)).
Proof.
  intros Hall H0. rewrite commit_as_all. unfold finish.
  pose proof (fine_commit_all Hall H0) as Hk.
  destruct (commit_all _ _) as [s [e|[]]]; exact Hk.
Qed.
End FinePath.

(** * The update path of [commit] *)

Section UpdatePath.
Context {Store : Type} `{ORM Store}.

(** A property of frames that survives every step of [commit] other than
    a save. *)
Variable P : frame Store -> Prop.
Hypothesis P_event : forall s ev, is_save ev = false -> P s ->
  P (with_log s (log s ++ [ev])).
Hypothesis P_runs : forall s t pk n, P s ->
  P (with_log s (log s ++ runs t pk 0 n)).
Hypothesis P_data : forall s cd, P s ->
  P (mkFrame (set_commit_lambdas_data (self s) cd) (db s) (log s)
       (rows_updated s)).
Hypothesis P_db : forall s d, P s ->
  P (mkFrame (self s) d (log s) (rows_updated s)).
Hypothesis P_count : forall s n, P s ->
  P (mkFrame (self s) (db s) (log s) n).

Lemma path_ret {A} (a : A) : keeps P (ret a).
Proof. apply triple_ret; auto. Qed.

Lemma path_lift {A} (r : result A) : keeps P (lift r).
Proof. apply triple_lift. intros s Hs. destruct r; assumption. Qed.

Lemma path_emit ev : is_save ev = false -> keeps P (emit ev).
Proof.
  intros Hev. apply triple_emit. intros s Hs. apply P_event; assumption.
Qed.

Lemma path_run_lambdas t pk row : keeps P (_run_lambdas t pk row).
Proof.
  apply triple_run_lambdas. intros s n slot out Hs _.
  assert (P (after_hooks s t pk n slot)) as Ha.
  { apply (P_runs t pk n) in Hs.
    apply (P_data
             match slot with
             | Some d => dict_set (commit_lambdas_data (self s)) pk d
             | None => commit_lambdas_data (self s)
             end) in Hs.
    exact Hs. }
  destruct out; assumption.
Qed.

Lemma path_get model pk : keeps P (do_get model pk).
Proof.
  apply triple_get. intros s Hs.
  destruct (objects_get model pk (db s)); apply P_event; auto.
Qed.

Lemma path_delete model pk row : keeps P (do_delete model pk row).
Proof.
  apply triple_delete. intros s Hs.
  destruct (row_delete row (db s)) as [e|[r d]]; [assumption|].
  apply (P_db d) in Hs.
  apply (P_event (EvDelete model pk) eq_refl) in Hs. exact Hs.
Qed.

Lemma path_incr : keeps P incr_rows_updated.
Proof. apply triple_incr. intros s Hs. apply P_count. exact Hs. Qed.

(** The loop over the columns never counts a changed column: where it
    finds one, the evaluation of [EXEMPTED_COLUMNS] raises. *)
Lemma commit_columns_never_counts model pk cu items : forall row n,
  triple P (commit_columns model pk cu items row n)
    (fun r s => snd r = n /\ P s) (fun _ => P).
Proof.
  induction items as [|[key val] rest IH]; intros row n; simpl.
  - apply triple_ret. auto.
  - apply triple_bind with (Q := fun _ => P).
    { destruct (String.eqb key "delete_tag").
      - apply triple_bind with (Q := fun _ => P);
          [apply path_lift|intro; apply path_ret].
      - apply path_ret. }
    intros [|].
    + apply triple_bind with (Q := fun _ => P);
        [apply path_run_lambdas|intro].
      apply triple_bind with (Q := fun _ => P);
        [apply path_delete|intro].
      apply triple_bind with (Q := fun _ => P);
        [apply path_run_lambdas|intro].
      apply triple_bind with (Q := fun _ => P);
        [apply path_incr|intro].
      apply IH.
    + apply triple_bind with (Q := fun _ => P);
        [apply path_emit; reflexivity|intro].
      apply triple_bind with (Q := fun _ => P);
        [apply path_lift|intro].
      apply triple_bind with (Q := fun _ => P);
        [apply path_lift|intro].
      destruct (py_ne _ _); [|apply IH].
      apply triple_bind with (Q := fun _ _ => False).
      * apply triple_lift. intros s Hs. exact Hs.
      * intros exempted s [].
Qed.

Lemma path_row_body model update : keeps P (row_body model update).
Proof.
  destruct update as [pk cu]. unfold row_body.
  apply triple_bind with (Q := fun _ => P); [apply path_get|intro].
  apply triple_bind with (Q := fun r s => snd r = 0 /\ P s);
    [apply commit_columns_never_counts|intro r].
  intros s [Hr Hs]. rewrite Hr. simpl. exact Hs.
Qed.

Lemma path_commit_all updates : keeps P (commit_all updates).
Proof.
  induction updates as [|[model u] rest IH]; simpl.
  - apply path_ret.
  - apply triple_bind with (Q := fun _ => P); [|intro; exact IH].
    apply triple_try.
    eapply triple_conseq; [apply path_row_body|auto|auto|].
    intros e s Hs. destruct e; assumption.
Qed.
End UpdatePath.

Section NeverSaves.
Context {Store : Type} `{ORM Store}.

(** Whatever the buffer, the store and the runnables, [commit] saves no
    row. *)
Lemma commit_never_saves st (d : Store) :
  count_events is_save (log (fst (commit st d))) = 0.
Proof.
  rewrite commit_as_all. unfold finish.
  assert (keeps (@nosave Store)
            (commit_all (all_updates (update_mapping st)))) as Hk.
  { apply path_commit_all; unfold nosave, with_log; simpl; auto.
    - intros s ev Hev Hs. rewrite count_events_app.
      unfold count_events at 2. simpl. rewrite Hev. simpl. lia.
    - intros s t pk n Hs.
      rewrite count_events_app, count_events_runs by reflexivity. lia. }
  specialize (Hk (mkFrame st d [] 0) eq_refl).
  destruct (commit_all _ _) as [s [e|[]]]; exact Hk.
Qed.

(** The number of changed columns the loop returns is the number it
    started with. *)
Lemma commit_columns_result model pk cu items row n (s s' : frame Store) r :
  commit_columns model pk cu items row n s = (s', inr r) -> snd r = n.
Proof.
  intros Hc.
  pose proof (@commit_columns_never_counts Store _ (fun _ => True)
                ltac:(auto) ltac:(auto) ltac:(auto) ltac:(auto) ltac:(auto)
                model pk cu items row n s I) as Ht.
  rewrite Hc in Ht. apply Ht.
Qed.
End NeverSaves.

(** * A pending update is counted at most once *)

Lemma marker_count_range items : 0 <= marker_count items <= 1.
Proof. unfold marker_count. destruct (existsb _ _); lia. Qed.

Lemma marker_count_cons key val rest :
  marker_count rest <= marker_count ((key, val) :: rest).
Proof.
  unfold marker_count. simpl.
  destruct (String.eqb key "delete_tag"); simpl;
    destruct (existsb _ (dict_keys rest)); lia.
Qed.

Lemma marker_count_head val (rest : dict string value) :
  ~ In "delete_tag" (dict_keys rest) ->
  marker_count (("delete_tag", val) :: rest) = 1 /\ marker_count rest = 0.
Proof.
  intros Hnotin. unfold marker_count. simpl. split; [reflexivity|].
  destruct (existsb _ (dict_keys rest)) eqn:He; [|reflexivity].
  apply existsb_exists in He as (key & Hin & Heq).
  apply String.eqb_eq in Heq. subst key. contradiction.
Qed.

Section AtMostOnce.
Context {Store : Type} `{ORM Store}.

Local Abbreviation stays r := (@counter_is Store r).
Local Abbreviation within r k := (fun _ : exn => @counter_within Store r k).

Lemma within_of_stays r k (s : frame Store) :
  0 <= k -> counter_is r s -> counter_within r k s.
Proof. unfold counter_is, counter_within. lia. Qed.

(** A step that keeps the counter, followed by the rest. *)
Lemma counter_step {A B} r k (m : M Store A) (f : A -> M Store B)
    (Q : B -> frame Store -> Prop) :
  0 <= k ->
  keeps (stays r) m ->
  (forall a, triple (stays r) (f a) Q (within r k)) ->
  triple (stays r) (bind m f) Q (within r k).
Proof.
  intros Hk Hm Hf. apply triple_bind with (Q := fun _ => stays r); [|exact Hf].
  eapply triple_conseq; [exact Hm|auto|auto|].
  intros e s Hs. apply within_of_stays; assumption.
Qed.

Lemma stays_lift {A} r (x : result A) : keeps (stays r) (lift x).
Proof. apply keeps_lift. Qed.

Lemma stays_ret {A} r (a : A) : keeps (stays r) (ret a).
Proof. apply keeps_ret. Qed.

Lemma stays_emit r ev : keeps (stays r) (emit ev).
Proof. apply keeps_emit. intros s l Hs. exact Hs. Qed.

Lemma stays_run_lambdas r t pk row : keeps (stays r) (_run_lambdas t pk row).
Proof. apply keeps_run_lambdas; intros s x Hs; exact Hs. Qed.

Lemma stays_get r model pk : keeps (stays r) (do_get model pk).
Proof. apply keeps_get. intros s l Hs. exact Hs. Qed.

Lemma stays_delete r model pk row : keeps (stays r) (do_delete model pk row).
Proof. apply keeps_delete; intros s x Hs; exact Hs. Qed.

(** The loop over the columns adds 1 to the counter when it meets the
    deletion marker, and nothing otherwise. *)
Lemma commit_columns_counter model pk cu items : forall row n r,
  NoDup (dict_keys items) ->
  triple (stays r) (commit_columns model pk cu items row n)
    (fun _ => counter_within r (marker_count items))
    (within r (marker_count items)).
Proof.
  induction items as [|[key val] rest IH]; intros row n r Hnd.
  - simpl. apply triple_ret. intros s Hs.
    apply within_of_stays; [apply marker_count_range|assumption].
  - inversion Hnd as [|? ? Hnotin Hnd']; subst.
    pose proof (marker_count_range ((key, val) :: rest)) as Hrange.
    pose proof (marker_count_cons key val rest) as Hmono.
    cbn [commit_columns].
    destruct (String.eqb_spec key "delete_tag") as [->|Hkey].
    + (* the key is [delete_tag] *)
      destruct (marker_count_head val rest Hnotin) as [Hone Hzero].
      apply counter_step; [lia| |intros [|]].
      * apply keeps_bind; [apply stays_lift|intro; apply stays_ret].
      * apply counter_step; [lia|apply stays_run_lambdas|intro].
        apply counter_step; [lia|apply stays_delete|intro].
        apply counter_step; [lia|apply stays_run_lambdas|intro].
        apply triple_bind with (Q := fun _ => stays (r + 1)).
        { apply triple_incr. intros s Hs. unfold counter_is in *.
          simpl. lia. }
        intro. eapply triple_conseq; [apply (IH _ _ (r + 1) Hnd')|auto| |];
          intros x s; unfold counter_within; rewrite Hone, Hzero; lia.
      * apply counter_step; [lia|apply stays_emit|intro].
        apply counter_step; [lia|apply stays_lift|intro].
        apply counter_step; [lia|apply stays_lift|intro].
        destruct (py_ne _ _).
        -- apply triple_bind with (Q := fun _ _ => False).
           ++ apply triple_lift. intros s Hs.
              apply within_of_stays; [lia|assumption].
           ++ intros exempted s [].
        -- eapply triple_conseq; [apply (IH _ _ r Hnd')|auto| |];
             intros x s; unfold counter_within; lia.
    + (* any other key *)
      apply triple_bind_ret.
      apply counter_step; [lia|apply stays_emit|intro].
      apply counter_step; [lia|apply stays_lift|intro].
      apply counter_step; [lia|apply stays_lift|intro].
      destruct (py_ne _ _).
      * apply triple_bind with (Q := fun _ _ => False).
        -- apply triple_lift. intros s Hs.
           apply within_of_stays; [lia|assumption].
        -- intros exempted s [].
      * eapply triple_conseq; [apply (IH _ _ r Hnd')|auto| |];
          intros x s; unfold counter_within; lia.
Qed.

(** One pending update adds at most 1 to the counter, whether its
    processing returns or raises. *)
Lemma commit_row_counter model pk cu r :
  NoDup (dict_keys cu) ->
  triple (stays r) (commit_row model (pk, cu))
    (fun _ => counter_within r 1) (within r 1).
Proof.
  intros Hnd s Hs.
  pose proof (marker_count_range cu) as Hrange.
  assert (forall s' : frame Store,
            counter_within r (marker_count cu) s' -> counter_within r 1 s')
    as Hweaken by (unfold counter_within; intros; lia).
  unfold commit_row, try_except_ObjectDoesNotExist, row_body, bind.
  rewrite do_get_eq.
  assert (counter_is r (with_log s (log s ++ [EvGet model pk]))) as Hs0
    by exact Hs.
  destruct (objects_get model pk (db s)) as [e|row].
  - assert (counter_within r 1 (with_log s (log s ++ [EvGet model pk])))
      as Hw by (apply within_of_stays; [lia|exact Hs0]).
    destruct e; exact Hw.
  - pose proof (@commit_columns_counter model pk cu cu row 0 r Hnd _ Hs0)
      as Hcols.
    destruct (commit_columns model pk cu cu row 0
                (with_log s (log s ++ [EvGet model pk])))
      as [s1 [e|r0]] eqn:Hc.
    + apply Hweaken in Hcols. destruct e; exact Hcols.
    + rewrite (commit_columns_result _ _ _ _ _ _ _ Hc). simpl.
      apply Hweaken. exact Hcols.
Qed.

(** [commit] adds at most 1 to the counter for each pending update. *)
Lemma commit_all_counter updates :
  (forall model pk cu, In (model, (pk, cu)) updates ->
                       NoDup (dict_keys cu)) ->
  forall r,
    triple (stays r) (commit_all updates)
      (fun _ => counter_within r (Z.of_nat (List.length updates)))
      (within r (Z.of_nat (List.length updates))).
Proof.
  induction updates as [|[model [pk cu]] rest IH]; intros Hwf r s Hs.
  - simpl. unfold counter_is, counter_within in *. lia.
  - cbn [commit_all]. unfold bind.
    pose proof (@commit_row_counter model pk cu r
                  (Hwf model pk cu (or_introl eq_refl)) s Hs) as Hrow.
    destruct (commit_row model (pk, cu) s) as [s1 [e|[]]].
    + unfold counter_within in *. rewrite length_cons. lia.
    + assert (forall model' pk' cu', In (model', (pk', cu')) rest ->
                                     NoDup (dict_keys cu')) as Hwf'
        by (intros; eapply Hwf; right; eassumption).
      pose proof (IH Hwf' (rows_updated s1) s1 eq_refl) as Hrest.
      destruct (commit_all rest s1) as [s2 [e|[]]];
        unfold counter_within in *; rewrite length_cons; lia.
Qed.
End AtMostOnce.

(** * Deletion during [commit] *)

Section DeleteTag.
Context {Store : Type} `{ORM Store}.

(** After the runnables have run, the payload slot of [pk] holds what
    [run_hooks] leaves in it. *)
Lemma slot_after_hooks (s : frame Store) t pk fns row n slot out :
  run_hooks fns (dict_get (commit_lambdas_data (self s)) pk) row
    = (n, slot, out) ->
  dict_get (commit_lambdas_data (self (after_hooks s t pk n slot))) pk
    = slot.
Proof.
  intros Hr. unfold after_hooks. simpl.
  destruct slot as [d|]; [apply dict_get_set_same|].
  destruct (dict_get (commit_lambdas_data (self s)) pk) as [d0|] eqn:Hg;
    [|reflexivity].
  destruct (run_hooks_slot _ _ _ Hr) as [d' Hd]. discriminate.
Qed.

Lemma same_staged_commit_all st (d : Store) updates s r :
  commit_all updates (mkFrame st d [] 0) = (s, r) ->
  same_staged st s.
Proof.
  intros Hc.
  assert (keeps (same_staged st) (commit_all updates)) as Hk.
  { apply keeps_commit_all; intros s0; intros; assumption. }
  assert (same_staged st (mkFrame st d [] 0)) as H0 by (repeat split).
  specialize (Hk _ H0). rewrite Hc in Hk. destruct r; exact Hk.
Qed.

Lemma hooks_same_staged st (s : frame Store) t pk :
  same_staged st s -> hooks (self s) t pk = hooks st t pk.
Proof. intros (_ & _ & Hcl). unfold hooks. rewrite Hcl. reflexivity. Qed.

(** What [commit] does with the rest of the buffer once it has reached
    the pending update [(model, update)] in the frame [s]. *)
Lemma commit_reaches st (d : Store) pre model update post s :
  all_updates (update_mapping st) = pre ++ (model, update) :: post ->
  commit_all pre (mkFrame st d [] 0) = (s, inr tt) ->
  commit st d =
  finish (match commit_row model update s with
          | (s', inl e) => (s', inl e)
          | (s', inr _) => commit_all post s'
          end).
Proof.
  intros Hall Hpre. rewrite commit_as_all, Hall, commit_all_app, Hpre.
  reflexivity.
Qed.

End DeleteTag.

(** * Updates during [commit] *)

Section Update.
Context {Store : Type} `{ORM Store}.

Lemma column_state_inv cu row key b :
  column_state cu row key = Some b ->
  is_marker cu key = false /\
  exists cur v,
    getattr row key = inr cur /\ dict_get cu key = Some v /\
    py_ne cur v = b.
Proof.
  unfold column_state.
  destruct (is_marker cu key); [discriminate|].
  destruct (getattr row key) as [e|cur]; [discriminate|].
  destruct (dict_get cu key) as [v|]; [|discriminate].
  intros [= <-]. eauto 6.
Qed.

Lemma with_log_app (s : frame Store) l1 l2 :
  with_log (with_log s (log s ++ l1)) (log (with_log s (log s ++ l1)) ++ l2)
  = with_log s (log s ++ l1 ++ l2).
Proof. unfold with_log. simpl. rewrite app_assoc. reflexivity. Qed.

Lemma with_log_nil (s : frame Store) : with_log s (log s ++ []) = s.
Proof. unfold with_log. rewrite app_nil_r. destruct s; reflexivity. Qed.

(** Columns that all equal the row: one comparison each, the row and
    the number of changed columns as they were. *)
Lemma commit_columns_all_equal model pk cu items : forall row n
    (s : frame Store),
  Forall (fun kv => column_state cu row (fst kv) = Some false) items ->
  commit_columns model pk cu items row n s =
  (with_log s (log s ++ comparisons pk items), inr (row, n)).
Proof.
  induction items as [|[key val] rest IH]; intros row n s Hall.
  - simpl. rewrite with_log_nil. reflexivity.
  - inversion Hall as [|? ? Hkey Hrest]; subst.
    destruct (column_state_inv _ _ _ Hkey)
      as (Hm & cur & v & Hcur & Hv & Hne).
    erewrite commit_columns_equal by eassumption.
    rewrite IH by assumption.
    rewrite (with_log_app s [EvGetattr pk key]). reflexivity.
Qed.

(** Columns that equal the row up to one that differs: the comparisons
    up to that one, then [NameError]. *)
Lemma commit_columns_first_difference model pk cu same key val rest :
  forall row n (s : frame Store),
  Forall (fun kv => column_state cu row (fst kv) = Some false) same ->
  column_state cu row key = Some true ->
  commit_columns model pk cu (same ++ (key, val) :: rest) row n s =
  (with_log s (log s ++ comparisons pk same ++ [EvGetattr pk key]),
   inl NameError).
Proof.
  induction same as [|[k0 v0] same IH]; intros row n s Hall Hkey.
  - simpl app.
    destruct (column_state_inv _ _ _ Hkey)
      as (Hm & cur & v & Hcur & Hv & Hne).
    erewrite commit_columns_differs by eassumption. reflexivity.
  - inversion Hall as [|? ? Hk0 Hrest]; subst.
    destruct (column_state_inv _ _ _ Hk0)
      as (Hm & cur & v & Hcur & Hv & Hne).
    simpl app. erewrite commit_columns_equal by eassumption.
    rewrite IH by assumption.
    rewrite (with_log_app s [EvGetattr pk k0]). reflexivity.
Qed.

(** A pending update whose staged values all equal the row: the lookup
    and the comparisons, and nothing else; no runnable is called, the
    row is not saved and the count is as it was. *)
Lemma commit_row_unchanged model pk cu (s : frame Store) row :
  objects_get model pk (db s) = inr row ->
  Forall (fun kv => column_state cu row (fst kv) = Some false) cu ->
  commit_row model (pk, cu) s =
  (with_log s (log s ++ EvGet model pk :: comparisons pk cu), inr tt).
Proof.
  intros Hget Hall.
  unfold commit_row, try_except_ObjectDoesNotExist, row_body.
  erewrite bind_inr by (rewrite do_get_eq, Hget; reflexivity).
  erewrite bind_inr by (apply commit_columns_all_equal; exact Hall).
  simpl. rewrite <- app_assoc. reflexivity.
Qed.

(** C2 on the code.  For a pending update without a deletion marker
    whose row exists and whose staged values equal the row up to a
    first one that differs, [commit] raises [NameError] at that column:
    the value is not written, no runnable is called, the row is not
    saved and no count is returned. *)
Theorem commit_changed_column_raises st (d : Store) pre post model pk
    same key val rest (s : frame Store) row :
  all_updates (update_mapping st) =
    pre ++ (model, (pk, same ++ (key, val) :: rest)) :: post ->
  commit_all pre (mkFrame st d [] 0) = (s, inr tt) ->
  objects_get model pk (db s) = inr row ->
  Forall (fun kv =>
            column_state (same ++ (key, val) :: rest) row (fst kv)
            = Some false) same ->
  column_state (same ++ (key, val) :: rest) row key = Some true ->
  commit st d =
  (with_log s
     (log s ++ EvGet model pk :: comparisons pk same ++ [EvGetattr pk key]),
   inl NameError).
Proof.
  intros Hall Hpre Hget Hsame Hkey.
  rewrite (@commit_reaches _ _ st d pre model _ post s Hall Hpre).
  assert (commit_row model (pk, same ++ (key, val) :: rest) s =
          (with_log s
             (log s ++
              EvGet model pk :: comparisons pk same ++ [EvGetattr pk key]),
           inl NameError)) as ->.
  { unfold commit_row, try_except_ObjectDoesNotExist, row_body.
    erewrite bind_inr by (rewrite do_get_eq, Hget; reflexivity).
    erewrite bind_inl
      by (apply commit_columns_first_difference; assumption).
    simpl. rewrite <- app_assoc. reflexivity. }
  reflexivity.
Qed.

End Update.

Lemma MemStore_writes_ok :
  @writes_never_raise_ObjectDoesNotExist MemStore _.
Proof.
  intros row d. split.
  - unfold row_delete; simpl. unfold mem_delete.
    destruct (row_pk row); discriminate.
  - discriminate.
Qed.

(** [commit_changed_column_raises] on [add(Student, 1, name='Alicia')]
    with a store in which row 1 is named Alice. *)
Lemma commit_changed_column_raises_witness :
  commit Sample.rename_alice Sample.students =
  (mkFrame Sample.rename_alice Sample.students
     [EvGet "Student" 1; EvGetattr 1 "name"] 0,
   inl NameError).
Proof.
  apply (@commit_changed_column_raises MemStore _ Sample.rename_alice
           Sample.students [] [] Sample.Student 1 [] "name" (VStr "Alicia")
           [] (mkFrame Sample.rename_alice Sample.students [] 0)
           Sample.alice);
    [reflexivity | reflexivity | reflexivity | constructor | reflexivity].
Defined.

(** [commit_row_unchanged] on [add(Student, 1, name='Alice')] with a
    store in which row 1 is named Alice: one lookup, one comparison, no
    save, and the count 0. *)
Lemma commit_unchanged_example :
  commit Sample.same_alice Sample.students =
  (mkFrame Sample.same_alice Sample.students
     [EvGet "Student" 1; EvGetattr 1 "name"] 0,
   inr 0).
Proof.
  rewrite (@commit_reaches MemStore _ Sample.same_alice Sample.students
             [] "Student" (1, [("name", VStr "Alice")]) []
             (mkFrame Sample.same_alice Sample.students [] 0)
             eq_refl eq_refl).
  rewrite (@commit_row_unchanged MemStore _ "Student" 1
             [("name", VStr "Alice")]
             (mkFrame Sample.same_alice Sample.students [] 0)
             Sample.alice);
    [reflexivity|reflexivity|repeat constructor].
Qed.

(** * The deletion marker among other columns *)

Section MarkerStep.
Context {Store : Type} `{ORM Store}.

(** Columns before the one at hand that all equal the row: one
    comparison each. *)
Lemma commit_columns_equal_prefix model pk cu same items : forall row n
    (s : frame Store),
  Forall (fun kv => column_state cu row (fst kv) = Some false) same ->
  commit_columns model pk cu (same ++ items) row n s =
  commit_columns model pk cu items row n
    (with_log s (log s ++ comparisons pk same)).
Proof.
  induction same as [|[key val] same IH]; intros row n s Hall.
  - simpl. rewrite with_log_nil. reflexivity.
  - inversion Hall as [|? ? Hkey Hrest]; subst.
    destruct (column_state_inv _ _ _ Hkey)
      as (Hm & cur & v & Hcur & Hv & Hne).
    simpl app. erewrite commit_columns_equal by eassumption.
    rewrite IH by assumption.
    rewrite (with_log_app s [EvGetattr pk key]). reflexivity.
Qed.

(** The loop over the columns never counts a changed column, so what
    follows it in the body of a row is nothing. *)
Lemma row_body_after_get model pk cu (s : frame Store) row :
  objects_get model pk (db s) = inr row ->
  row_body model (pk, cu) s =
  bind (commit_columns model pk cu cu row 0) (fun _ => ret tt)
    (with_log s (log s ++ [EvGet model pk])).
Proof.
  intros Hget. unfold row_body.
  erewrite bind_inr by (rewrite do_get_eq, Hget; reflexivity).
  unfold bind.
  destruct (commit_columns model pk cu cu row 0 _) as [s' [e|r]] eqn:Hc;
    [reflexivity|].
  rewrite (commit_columns_result _ _ _ _ _ _ _ Hc). reflexivity.
Qed.

(** A pending update that reaches its deletion marker: the columns
    before the marker equal the row, the row exists, the runnables
    before the deletion and [row.delete()] return.  The frame [s3] is
    the one in which the runnables after the deletion end. *)
Lemma commit_row_marker_step st model pk (cu same : dict string value)
    val rest (s : frame Store) row n1 slot1 row1 row2 d2 n2 slot2 out2 :
  same_staged st s ->
  cu = same ++ ("delete_tag", val) :: rest ->
  dict_get cu "delete_tag" = Some (VStr "X") ->
  objects_get model pk (db s) = inr row ->
  Forall (fun kv => column_state cu row (fst kv) = Some false) same ->
  run_hooks (hooks st PRECOMMIT_DELETE_LAMBDA pk)
    (dict_get (commit_lambdas_data (self s)) pk) row
    = (n1, slot1, inr row1) ->
  row_delete row1 (db s) = inr (row2, d2) ->
  run_hooks (hooks st POSTCOMMIT_DELETE_LAMBDA pk) slot1 row2
    = (n2, slot2, out2) ->
  exists s3,
    rows_updated s3 = rows_updated s /\
    db s3 = d2 /\
    log s3 =
      log s ++
      EvGet model pk :: comparisons pk same ++
      runs PRECOMMIT_DELETE_LAMBDA pk 0 n1 ++
      EvDelete model pk :: runs POSTCOMMIT_DELETE_LAMBDA pk 0 n2 /\
    dict_get (commit_lambdas_data (self s3)) pk = slot2 /\
    same_staged st s3 /\
    row_body model (pk, cu) s =
    match out2 with
    | inl e => (s3, inl e)
    | inr row3 =>
        bind (commit_columns model pk cu rest row3 0) (fun _ => ret tt)
          (mkFrame (self s3) (db s3) (log s3) (rows_updated s3 + 1))
    end.
Proof.
  intros Hsame Hcu Hmark Hget Hequal Hpre_hooks Hdel Hpost_hooks.
  set (s0 := with_log s (log s ++ [EvGet model pk])).
  set (s0' := with_log s0 (log s0 ++ comparisons pk same)).
  assert (_run_lambdas PRECOMMIT_DELETE_LAMBDA pk row s0' =
          (after_hooks s0' PRECOMMIT_DELETE_LAMBDA pk n1 slot1, inr row1))
    as Hrun1.
  { apply run_lambdas_refines. simpl.
    rewrite (hooks_same_staged _ _ Hsame). exact Hpre_hooks. }
  set (s1 := after_hooks s0' PRECOMMIT_DELETE_LAMBDA pk n1 slot1) in *.
  set (s2 := mkFrame (self s1) d2 (log s1 ++ [EvDelete model pk])
               (rows_updated s1)).
  assert (dict_get (commit_lambdas_data (self s2)) pk = slot1) as Hslot1.
  { change (dict_get (commit_lambdas_data (self s1)) pk = slot1).
    unfold s1.
    eapply slot_after_hooks with (fns := hooks st PRECOMMIT_DELETE_LAMBDA pk).
    exact Hpre_hooks. }
  assert (_run_lambdas POSTCOMMIT_DELETE_LAMBDA pk row2 s2 =
          (after_hooks s2 POSTCOMMIT_DELETE_LAMBDA pk n2 slot2, out2))
    as Hrun2.
  { apply run_lambdas_refines. rewrite Hslot1.
    assert (hooks (self s2) POSTCOMMIT_DELETE_LAMBDA pk =
            hooks st POSTCOMMIT_DELETE_LAMBDA pk) as ->.
    { unfold hooks. simpl. destruct Hsame as (_ & _ & ->). reflexivity. }
    exact Hpost_hooks. }
  set (s3 := after_hooks s2 POSTCOMMIT_DELETE_LAMBDA pk n2 slot2) in *.
  exists s3.
  split; [reflexivity|]. split; [reflexivity|].
  split.
  { simpl. rewrite <- !app_assoc. reflexivity. }
  split.
  { unfold s3.
    eapply slot_after_hooks
      with (fns := hooks st POSTCOMMIT_DELETE_LAMBDA pk).
    rewrite Hslot1. exact Hpost_hooks. }
  split.
  { destruct Hsame as (Hu & Hd & Hc). repeat split; simpl; assumption. }
  rewrite (row_body_after_get _ _ _ _ Hget). fold s0.
  assert (commit_columns model pk cu cu row 0 s0 =
          match out2 with
          | inl e => (s3, inl e)
          | inr row3 =>
              commit_columns model pk cu rest row3 0
                (mkFrame (self s3) (db s3) (log s3) (rows_updated s3 + 1))
          end) as Hcc.
  { rewrite Hcu at 2.
    rewrite commit_columns_equal_prefix by exact Hequal. fold s0'.
    rewrite commit_columns_marker by exact Hmark.
    erewrite bind_inr by exact Hrun1.
    erewrite bind_inr by (apply do_delete_ok; exact Hdel).
    fold s2.
    destruct out2 as [e|row3].
    - erewrite bind_inl by exact Hrun2. reflexivity.
    - erewrite bind_inr by exact Hrun2. reflexivity. }
  unfold bind at 1. rewrite Hcc.
  destruct out2 as [e|row3]; reflexivity.
Qed.

(** Whatever the buffer and the store, [commit] writes no attribute and
    saves no row. *)
Lemma commit_writes_nothing st (d : Store) ev :
  In ev (log (fst (commit st d))) ->
  is_save ev = false /\ is_setattr ev = false.
Proof.
  revert ev.
  apply (@fine_commit Store _ (fun _ => True)
           (fun s => forall ev, In ev (log s) ->
                       is_save ev = false /\ is_setattr ev = false)).
  - intros s ev _ Hsave _ Hset Hl ev' Hin. simpl in Hin.
    apply in_app_or in Hin. destruct Hin as [Hin|[<-|[]]]; auto.
  - intros s t pk row n slot out _ Hl _ ev Hin.
    unfold after_hooks in Hin. simpl in Hin. apply in_app_or in Hin.
    destruct Hin as [Hin|Hin]; [auto|].
    unfold runs in Hin. apply in_map_iff in Hin as (j & <- & _). auto.
  - intros s model pk row row' d' Hl _ ev Hin. simpl in Hin.
    apply in_app_or in Hin. destruct Hin as [Hin|[<-|[]]]; auto.
  - intros s Hs. exact Hs.
  - apply Forall_forall. auto.
  - intros ev [].
Qed.

(** C1, as amended.  For a pending update whose column map holds the
    deletion marker, [delete_tag] with the value ["X"] compared as it
    is, whose row exists and whose columns staged before the marker
    equal the row, where the runnables and [row.delete()] return:
    [commit] calls the pre-delete runnables of the row once each in
    registration order, deletes the row, calls the post-delete runnables
    once each in registration order and adds exactly 1 to the count.  It
    does not skip the columns staged after the marker: it goes on with
    them, on the deleted row, and once they are found equal with the
    next pending update.  No column is written and no row is saved. *)
Theorem commit_deletion_marker st (d : Store) pre post model pk
    (cu same : dict string value) val rest (s : frame Store) row
    n1 slot1 row1 row2 d2 n2 slot2 row3 :
  all_updates (update_mapping st) = pre ++ (model, (pk, cu)) :: post ->
  cu = same ++ ("delete_tag", val) :: rest ->
  dict_get cu "delete_tag" = Some (VStr "X") ->
  commit_all pre (mkFrame st d [] 0) = (s, inr tt) ->
  objects_get model pk (db s) = inr row ->
  Forall (fun kv => column_state cu row (fst kv) = Some false) same ->
  run_hooks (hooks st PRECOMMIT_DELETE_LAMBDA pk)
    (dict_get (commit_lambdas_data (self s)) pk) row
    = (n1, slot1, inr row1) ->
  row_delete row1 (db s) = inr (row2, d2) ->
  run_hooks (hooks st POSTCOMMIT_DELETE_LAMBDA pk) slot1 row2
    = (n2, slot2, inr row3) ->
  exists s',
    commit_row model (pk, cu) s =
      try_except_ObjectDoesNotExist
        (bind (commit_columns model pk cu rest row3 0) (fun _ => ret tt))
        s' /\
    rows_updated s' = rows_updated s + 1 /\
    db s' = d2 /\
    log s' =
      log s ++
      EvGet model pk :: comparisons pk same ++
      runs PRECOMMIT_DELETE_LAMBDA pk 0
        (List.length (hooks st PRECOMMIT_DELETE_LAMBDA pk)) ++
      EvDelete model pk ::
      runs POSTCOMMIT_DELETE_LAMBDA pk 0
        (List.length (hooks st POSTCOMMIT_DELETE_LAMBDA pk)) /\
    dict_get (commit_lambdas_data (self s')) pk = slot2 /\
    same_staged st s' /\
    (Forall (fun kv => column_state cu row3 (fst kv) = Some false) rest ->
     commit st d =
     finish (commit_all post
               (with_log s' (log s' ++ comparisons pk rest)))) /\
    (forall ev, In ev (log (fst (commit st d))) ->
       is_save ev = false /\ is_setattr ev = false).
Proof.
  intros Hall Hcu Hmark Hpre Hget Hequal Hpre_hooks Hdel Hpost_hooks.
  pose proof (same_staged_commit_all _ _ _ Hpre) as Hsame.
  pose proof (run_hooks_calls _ _ _ Hpre_hooks) as Hn1.
  pose proof (run_hooks_calls _ _ _ Hpost_hooks) as Hn2.
  destruct (@commit_row_marker_step st model pk cu same val rest s row
              n1 slot1 row1 row2 d2 n2 slot2 (inr row3)
              Hsame Hcu Hmark Hget Hequal Hpre_hooks Hdel Hpost_hooks)
    as (s3 & Hcount & Hdb & Hlog & Hslot & Hsame3 & Hbody).
  exists (mkFrame (self s3) (db s3) (log s3) (rows_updated s3 + 1)).
  assert (commit_row model (pk, cu) s =
          try_except_ObjectDoesNotExist
            (bind (commit_columns model pk cu rest row3 0)
               (fun _ => ret tt))
            (mkFrame (self s3) (db s3) (log s3) (rows_updated s3 + 1)))
    as Hrow.
  { unfold commit_row, try_except_ObjectDoesNotExist.
    rewrite Hbody. reflexivity. }
  split; [exact Hrow|].
  split; [simpl; lia|].
  split; [exact Hdb|].
  split; [simpl; rewrite Hlog, Hn1, Hn2; reflexivity|].
  split; [exact Hslot|].
  split; [exact Hsame3|].
  split; [|intros ev; apply commit_writes_nothing].
  intros Hrest.
  rewrite (@commit_reaches _ _ st d pre model _ post s Hall Hpre), Hrow.
  unfold try_except_ObjectDoesNotExist.
  erewrite bind_inr by (apply commit_columns_all_equal; exact Hrest).
  reflexivity.
Qed.
End MarkerStep.

(** [commit_deletion_marker] on [add(Student, 2, delete_tag='X',
    name='Bob')]: row 2 is deleted and counted, and the column [name]
    is compared after the deletion. *)
Lemma commit_deletion_marker_witness :
  let r := commit Sample.delete_bob_and_name Sample.students in
  snd r = inr 1 /\
  db (fst r) = [Sample.alice] /\
  log (fst r) =
    [EvGet "Student" 2; EvDelete "Student" 2; EvGetattr 2 "name"].
Proof.
  edestruct
    (@commit_deletion_marker MemStore _ Sample.delete_bob_and_name
       Sample.students [] [] Sample.Student 2
       [("delete_tag", VStr "X"); ("name", VStr "Bob")]
       [] (VStr "X") [("name", VStr "Bob")]
       (mkFrame Sample.delete_bob_and_name Sample.students [] 0))
    as (s' & Hrow & Hcount & Hdb & Hlog & _ & _ & Hcommit & _);
    [reflexivity | reflexivity | reflexivity | reflexivity | reflexivity
    | constructor | reflexivity | reflexivity | reflexivity |].
  cbv zeta. rewrite Hcommit by (repeat constructor). simpl.
  rewrite Hcount, Hdb, Hlog. repeat split.
Defined.

(** C1 as stated fails on three inputs, on a store that holds row 2.  A
    marker in lower case is not a marker for [commit]: the row stays and
    the lookup of an attribute [delete_tag] raises.  A marker does not
    end the processing of its pending update: the column staged after it
    is compared with the row.  And a column staged before the marker
    that differs from the row raises [NameError] before the marker is
    reached: the row stays. *)
Lemma commit_deletion_marker_counterexample :
  (pending Sample.delete_bob_lowercase "Student" 2
     = [[("delete_tag", VStr "x")]] /\
   objects_get "Student" 2 Sample.students = inr Sample.bob /\
   commit Sample.delete_bob_lowercase Sample.students =
     (mkFrame Sample.delete_bob_lowercase Sample.students
        [EvGet "Student" 2; EvGetattr 2 "delete_tag"] 0,
      inl AttributeError)) /\
  (pending Sample.delete_bob_and_name "Student" 2
     = [[("delete_tag", VStr "X"); ("name", VStr "Bob")]] /\
   log (fst (commit Sample.delete_bob_and_name Sample.students)) =
     [EvGet "Student" 2; EvDelete "Student" 2; EvGetattr 2 "name"]) /\
  (pending Sample.rename_and_delete_bob "Student" 2
     = [[("name", VStr "Bobby"); ("delete_tag", VStr "X")]] /\
   commit Sample.rename_and_delete_bob Sample.students =
     (mkFrame Sample.rename_and_delete_bob Sample.students
        [EvGet "Student" 2; EvGetattr 2 "name"] 0,
      inl NameError)).
Proof. repeat split. Qed.

(** * Staging: merging and duplicates *)

(** C4.  On a buffer that holds no pending update for [(model, pk)], two
    calls of [add] for the pair leave exactly one pending update for it;
    its column map holds the keys of both calls, with the value of the
    second call for a key of the second call and the value of the first
    call for any other key. *)
Theorem add_twice_merges st model pk kw1 kw2 :
  pending st model pk = [] ->
  NoDup (dict_keys kw2) ->
  exists st1 st2 cols,
    add st model pk kw1 = inr st1 /\
    add st1 model pk kw2 = inr st2 /\
    pending st2 model pk = [cols] /\
    cols = dict_update kw1 kw2 /\
    forall key,
      dict_get cols key =
      match dict_get kw2 key with
      | Some v => Some v
      | None => dict_get kw1 key
      end.
Proof.
  intros Hfresh Hnd.
  destruct (add_spec st model pk kw1) as (st1 & Hadd1 & Hp1 & _).
  destruct (add_spec st1 model pk kw2) as (st2 & Hadd2 & Hp2 & _).
  rewrite Hfresh in Hp1. rewrite Hp1 in Hp2.
  exists st1, st2, (dict_update kw1 kw2).
  repeat split; try assumption.
  intros key. apply dict_get_update. exact Hnd.
Qed.

(** [add_twice_merges] on the empty buffer: [add(Student, 1, name='A',
    x=1)] then [add(Student, 1, x=2, y=3)]. *)
Lemma add_twice_merges_witness :
  exists st1 st2 cols,
    add init "Student" 1 [("name", VStr "A"); ("x", VInt 1)] = inr st1 /\
    add st1 "Student" 1 [("x", VInt 2); ("y", VInt 3)] = inr st2 /\
    pending st2 "Student" 1 = [cols] /\
    cols = dict_update [("name", VStr "A"); ("x", VInt 1)]
             [("x", VInt 2); ("y", VInt 3)] /\
    forall key,
      dict_get cols key =
      match dict_get [("x", VInt 2); ("y", VInt 3)] key with
      | Some v => Some v
      | None => dict_get [("name", VStr "A"); ("x", VInt 1)] key
      end.
Proof.
  apply (@add_twice_merges init "Student" 1
           [("name", VStr "A"); ("x", VInt 1)]
           [("x", VInt 2); ("y", VInt 3)]).
  - reflexivity.
  - repeat constructor; simpl; intuition discriminate.
Defined.

Lemma at_most_one_init : at_most_one init.
Proof. intros model pk. simpl. lia. Qed.

Lemma same_target_spec a b : same_target a b = true <-> a = b.
Proof.
  destruct a as [m pk], b as [m' pk']. unfold same_target. simpl.
  rewrite andb_true_iff, String.eqb_eq, Z.eqb_eq.
  split; [intros [-> ->]; reflexivity|intros [= -> ->]; auto].
Qed.

Lemma seen_spec seen target :
  existsb (same_target target) seen = true <-> In target seen.
Proof.
  rewrite existsb_exists. split.
  - intros (x & Hin & Hx). apply same_target_spec in Hx. subst x. exact Hin.
  - intros Hin. exists target. split; [exact Hin|].
    apply same_target_spec. reflexivity.
Qed.

(** Staging calls whose deletions are for new rows keep the bound, from
    any buffer that has it and whose pending updates are all for rows in
    [seen]. *)
Lemma run_ops_on_new_rows ops : forall seen st0,
  at_most_one st0 ->
  (forall model pk, pending st0 model pk <> [] -> In (model, pk) seen) ->
  deletes_on_new_rows seen ops = true ->
  exists st, run_ops ops st0 = inr st /\ at_most_one st.
Proof.
  induction ops as [|op ops IH]; intros seen st0 Hinv Hseen Hops; simpl.
  - exists st0. split; [reflexivity|assumption].
  - simpl in Hops. apply andb_prop in Hops as [Hop Hrest].
    destruct op as [model pk kw|model pk]; simpl in *.
    + destruct (add_spec st0 model pk kw)
        as (st1 & Hadd & Hsame & Hother & _).
      rewrite Hadd. apply (IH ((model, pk) :: seen)); [| |assumption].
      * eapply add_keeps_at_most_one; eassumption.
      * intros model' pk' Hne.
        destruct (String.eqb_spec model' model) as [->|Hm];
          [destruct (Z.eq_dec pk' pk) as [->|Hp]|].
        -- left. reflexivity.
        -- right. apply Hseen. rewrite <- Hother by congruence. exact Hne.
        -- right. apply Hseen. rewrite <- Hother by congruence. exact Hne.
    + destruct (delete_spec st0 model pk [])
        as (st1 & Hdel & Hsame & Hother).
      rewrite Hdel. apply (IH ((model, pk) :: seen)); [| |assumption].
      * assert (pending st0 model pk = []) as Hfresh.
        { destruct (pending st0 model pk) as [|c l] eqn:Hp; [reflexivity|].
          exfalso. apply negb_true_iff in Hop.
          assert (In (model, pk) seen) as Hin
            by (apply Hseen; rewrite Hp; discriminate).
          apply seen_spec in Hin. congruence. }
        intros model' pk'.
        destruct (String.eqb_spec model' model) as [->|Hm];
          [destruct (Z.eq_dec pk' pk) as [->|Hp]|].
        -- rewrite Hsame, Hfresh. simpl. lia.
        -- rewrite Hother by congruence. apply Hinv.
        -- rewrite Hother by congruence. apply Hinv.
      * intros model' pk' Hne.
        destruct (String.eqb_spec model' model) as [->|Hm];
          [destruct (Z.eq_dec pk' pk) as [->|Hp]|].
        -- left. reflexivity.
        -- right. apply Hseen. rewrite <- Hother by congruence. exact Hne.
        -- right. apply Hseen. rewrite <- Hother by congruence. exact Hne.
Qed.

(** C5, as amended.  After any sequence of [add] and [delete] calls on a
    new buffer in which no [delete] is for a row that an earlier call of
    the sequence was for, the buffer holds at most one pending update per
    model and row id; a further [add] for a row that has a pending
    update merges into its column map and adds no entry, while a
    [delete] for such a row adds a second entry. *)
Theorem staging_keeps_at_most_one ops :
  deletes_on_new_rows [] ops = true ->
  exists st,
    run_ops ops init = inr st /\
    at_most_one st /\
    (forall model pk kw,
       exists st',
         add st model pk kw = inr st' /\
         pending st' model pk =
           match pending st model pk with
           | [] => [kw]
           | c :: _ => [dict_update c kw]
           end) /\
    (forall model pk,
       pending st model pk <> [] ->
       exists st',
         delete st model pk [] = inr st' /\
         List.length (pending st' model pk) = 2%nat).
Proof.
  intros Hops.
  destruct (@run_ops_on_new_rows ops [] init at_most_one_init)
    as (st & Hrun & Hinv); [|exact Hops|].
  { intros model pk Hne. exfalso. apply Hne. reflexivity. }
  exists st. split; [assumption|]. split; [assumption|]. split.
  - intros model pk kw.
    destruct (add_spec st model pk kw) as (st' & Hadd & Hp & _).
    exists st'. split; [assumption|]. rewrite Hp.
    specialize (Hinv model pk).
    destruct (pending st model pk) as [|c [|c' rest]]; simpl in *;
      [reflexivity|reflexivity|lia].
  - intros model pk Hne.
    destruct (delete_spec st model pk []) as (st' & Hdel & Hp & _).
    exists st'. split; [assumption|]. rewrite Hp, length_app.
    specialize (Hinv model pk).
    destruct (pending st model pk) as [|c [|c' rest]]; simpl in *;
      [contradiction|reflexivity|lia].
Qed.

(** [staging_keeps_at_most_one] on the calls of an import: a deletion of
    row 2, two [add] calls for row 1, and an [add] for the deleted row,
    which merges into the marker. *)
Lemma staging_keeps_at_most_one_witness :
  exists st,
    run_ops [OpDelete "Student" 2;
             OpAdd "Student" 1 [("name", VStr "A")];
             OpAdd "Student" 1 [("label", VStr "L")];
             OpAdd "Student" 2 [("name", VStr "B")]] init = inr st /\
    at_most_one st /\
    pending st "Student" 2
      = [[("delete_tag", VStr "X"); ("name", VStr "B")]].
Proof.
  destruct (@staging_keeps_at_most_one
              [OpDelete "Student" 2;
               OpAdd "Student" 1 [("name", VStr "A")];
               OpAdd "Student" 1 [("label", VStr "L")];
               OpAdd "Student" 2 [("name", VStr "B")]] eq_refl)
    as (st & Hrun & Hinv & _).
  exists st. split; [exact Hrun|]. split; [exact Hinv|].
  simpl in Hrun. injection Hrun as <-. reflexivity.
Defined.

(** C5 as stated fails when a [delete] is for a row that has a pending
    update: [add(Student, 1, name='A')] then [delete(Student, 1)] leave
    two pending updates for the row. *)
Lemma staging_keeps_at_most_one_counterexample :
  exists st,
    run_ops [OpAdd "Student" 1 [("name", VStr "A")]; OpDelete "Student" 1]
      init = inr st /\
    pending st "Student" 1 =
      [[("name", VStr "A")]; [("delete_tag", VStr "X")]] /\
    ~ at_most_one st.
Proof.
  eexists. split; [reflexivity|]. split; [reflexivity|].
  intros Hinv. specialize (Hinv "Student" 1). simpl in Hinv. lia.
Qed.

(** * The count [commit] returns, once more *)

Lemma count_events_comparisons p pk items :
  (forall key, p (EvGetattr pk key) = false) ->
  count_events p (comparisons pk items) = 0.
Proof.
  intros Hp. unfold count_events, comparisons.
  induction items as [|[key val] items IH]; simpl; [reflexivity|].
  rewrite Hp. exact IH.
Qed.

Lemma count_events_cons p ev l :
  count_events p (ev :: l) = (if p ev then 1 else 0) + count_events p l.
Proof.
  unfold count_events. simpl. destruct (p ev); simpl List.length; lia.
Qed.

Lemma count_events_nil p : count_events p [] = 0.
Proof. reflexivity. Qed.

Section CountBound.
Context {Store : Type} `{ORM Store}.

Local Abbreviation lag k := (@behind_by Store k).

Lemma lag_weaken k (s : frame Store) : lag (k + 1) s -> lag k s.
Proof. unfold behind_by. lia. Qed.

Lemma lag_log k (s : frame Store) l :
  count_events is_delete l = 0 -> count_events is_save l = 0 ->
  lag k s -> lag k (with_log s (log s ++ l)).
Proof.
  unfold behind_by, with_log. simpl. intros Hd Hv Hs.
  rewrite !count_events_app. lia.
Qed.

Lemma lag_emit k ev :
  is_delete ev = false -> is_save ev = false -> keeps (lag k) (emit ev).
Proof.
  intros Hd Hv. apply triple_emit. intros s Hs. apply lag_log; try exact Hs.
  - rewrite count_events_cons, Hd, count_events_nil. reflexivity.
  - rewrite count_events_cons, Hv, count_events_nil. reflexivity.
Qed.

Lemma lag_lift {A} k (r : result A) : keeps (lag k) (lift r).
Proof. apply triple_lift. intros s Hs. destruct r; exact Hs. Qed.

Lemma lag_ret {A} k (a : A) : keeps (lag k) (ret a).
Proof. apply triple_ret. auto. Qed.

Lemma lag_run_lambdas k t pk row : keeps (lag k) (_run_lambdas t pk row).
Proof.
  apply triple_run_lambdas. intros s n slot out Hs _.
  assert (lag k (after_hooks s t pk n slot)) as Ha.
  { unfold behind_by, after_hooks in *. simpl.
    rewrite !count_events_app, !count_events_runs by reflexivity. lia. }
  destruct out; exact Ha.
Qed.

Lemma lag_get k model pk : keeps (lag k) (do_get model pk).
Proof.
  apply triple_get. intros s Hs.
  assert (lag k (with_log s (log s ++ [EvGet model pk]))) as Ha
    by (apply lag_log; [reflexivity|reflexivity|exact Hs]).
  destruct (objects_get model pk (db s)); exact Ha.
Qed.

Lemma lag_delete k model pk row :
  triple (lag k) (do_delete model pk row)
    (fun _ => lag (k + 1)) (fun _ => lag k).
Proof.
  apply triple_delete. intros s Hs.
  destruct (row_delete row (db s)) as [e|[r d]]; [exact Hs|].
  unfold behind_by in *. simpl.
  rewrite !count_events_app, !count_events_cons, !count_events_nil.
  simpl. lia.
Qed.

Lemma lag_incr k :
  triple (lag (k + 1)) incr_rows_updated (fun _ => lag k) (fun _ => lag k).
Proof.
  apply triple_incr. intros s Hs. unfold behind_by in *. simpl. lia.
Qed.

Lemma lag_commit_columns k model pk cu items : forall row n,
  triple (lag k) (commit_columns model pk cu items row n)
    (fun r s => snd r = n /\ lag k s) (fun _ => lag k).
Proof.
  induction items as [|[key val] rest IH]; intros row n; simpl.
  - apply triple_ret. auto.
  - apply triple_bind with (Q := fun _ => lag k).
    { destruct (String.eqb key "delete_tag").
      - apply triple_bind with (Q := fun _ => lag k);
          [apply lag_lift|intro; apply lag_ret].
      - apply lag_ret. }
    intros [|].
    + apply triple_bind with (Q := fun _ => lag k);
        [apply lag_run_lambdas|intro].
      apply triple_bind with (Q := fun _ => lag (k + 1));
        [apply lag_delete|intro].
      apply triple_bind with (Q := fun _ => lag (k + 1)).
      { eapply triple_conseq;
          [apply lag_run_lambdas with (k := k + 1)|auto|auto|].
        intros e s. apply lag_weaken. }
      intro.
      apply triple_bind with (Q := fun _ => lag k);
        [apply lag_incr|intro].
      apply IH.
    + apply triple_bind with (Q := fun _ => lag k);
        [apply lag_emit; reflexivity|intro].
      apply triple_bind with (Q := fun _ => lag k);
        [apply lag_lift|intro].
      apply triple_bind with (Q := fun _ => lag k);
        [apply lag_lift|intro].
      destruct (py_ne _ _); [|apply IH].
      apply triple_bind with (Q := fun _ _ => False).
      * apply triple_lift. intros s Hs. exact Hs.
      * intros exempted s [].
Qed.

Lemma lag_commit_row k model update : keeps (lag k) (commit_row model update).
Proof.
  destruct update as [pk cu]. apply triple_try. unfold row_body.
  apply triple_bind with (Q := fun _ => lag k).
  { eapply triple_conseq; [apply lag_get with (k := k)|auto|auto|].
    intros e s; destruct e; intro Hs; exact Hs. }
  intro row.
  apply triple_bind with (Q := fun r s => snd r = 0 /\ lag k s).
  { eapply triple_conseq;
      [apply lag_commit_columns with (k := k)|auto|auto|].
    intros e s; destruct e; intro Hs; exact Hs. }
  intros r s Hrs. destruct Hrs as [Hr Hs]. rewrite Hr. simpl. exact Hs.
Qed.

Lemma lag_commit_all k updates : keeps (lag k) (commit_all updates).
Proof.
  induction updates as [|[model u] rest IH]; simpl.
  - apply lag_ret.
  - apply triple_bind with (Q := fun _ => lag k);
      [apply lag_commit_row|intro; exact IH].
Qed.

(** The count [commit] returns is never negative and never more than
    the number of deletions it has made. *)
Lemma commit_count_bounds st (d : Store) s n :
  commit st d = (s, inr n) ->
  0 <= n <= count_events is_delete (log s) + count_events is_save (log s).
Proof.
  intros Hc. split.
  - assert (0 <= rows_updated (fst (commit st d))) as Hn.
    { apply (@fine_commit Store _ (fun _ => True)
               (fun s => 0 <= rows_updated s)).
      - intros s0 ev _ _ _ _ Hs. exact Hs.
      - intros s0 t pk row k slot out _ Hs _. exact Hs.
      - intros s0 model pk row row' d' Hs _. exact Hs.
      - intros s0 Hs. simpl. lia.
      - apply Forall_forall. intros x _. exact I.
      - simpl. lia. }
    rewrite commit_as_all in Hc, Hn. unfold finish in Hc, Hn.
    destruct (commit_all _ _) as [s' [e|[]]]; [discriminate|].
    injection Hc as <- <-. exact Hn.
  - rewrite commit_as_all in Hc. unfold finish in Hc.
    assert (lag 0 (mkFrame st d [] 0)) as H0
      by (unfold behind_by; simpl; reflexivity).
    pose proof (@lag_commit_all 0 (all_updates (update_mapping st)) _ H0)
      as Hall.
    destruct (commit_all _ _) as [s' [e|[]]]; [discriminate|].
    injection Hc as <- <-. unfold behind_by in Hall. lia.
Qed.

Variable st : AdapterStaging.

Local Abbreviation even := (@in_step Store st).
Local Abbreviation behind := (@one_short Store st).
Local Abbreviation caught := (@catchable Store st).

Lemma even_caught e (s : frame Store) : even s -> caught e s.
Proof. intros Hs. destruct e; simpl; auto. Qed.

Lemma other_caught e (s : frame Store) : e <> ObjectDoesNotExist -> caught e s.
Proof. intros Hne. destruct e; simpl; auto. congruence. Qed.

Lemma even_log (s : frame Store) l :
  count_events is_delete l = 0 -> count_events is_save l = 0 ->
  even s -> even (with_log s (log s ++ l)).
Proof.
  intros Hd Hv [Hcl Hs]. split; [exact Hcl|].
  unfold counted, with_log in *. simpl. rewrite !count_events_app. lia.
Qed.

(** Before the deletion any exception leaves the counter up to date. *)
Lemma runnables_before t pk row :
  triple even (_run_lambdas t pk row) (fun _ => even) caught.
Proof.
  apply triple_run_lambdas. intros s n slot out [Hcl Hs] _.
  assert (even (after_hooks s t pk n slot)) as Ha.
  { split; [exact Hcl|]. unfold counted, after_hooks in *. simpl.
    rewrite !count_events_app, !count_events_runs by reflexivity. lia. }
  destruct out; [apply even_caught|]; exact Ha.
Qed.

Section PostDeleteOk.
Hypothesis posts_ok : post_delete_never_raise_ObjectDoesNotExist st.

(** After the deletion the counter is one behind, and no runnable
    raises [ObjectDoesNotExist]. *)
Lemma runnables_after_deletion pk row :
  triple behind (_run_lambdas POSTCOMMIT_DELETE_LAMBDA pk row)
    (fun _ => behind) caught.
Proof.
  apply triple_run_lambdas. intros s n slot out [Hcl Hs] Hr.
  destruct out as [e|r].
  - apply other_caught. eapply run_hooks_raises; [exact Hr|].
    intros fn data r Hin. apply (posts_ok pk).
    unfold hooks in *. rewrite Hcl in Hin. exact Hin.
  - split; [exact Hcl|]. unfold one_behind, after_hooks in *. simpl.
    rewrite !count_events_app, !count_events_runs by reflexivity. lia.
Qed.

Lemma exact_commit_columns model pk cu items : forall row n,
  triple even (commit_columns model pk cu items row n)
    (fun r s => snd r = n /\ even s) caught.
Proof.
  induction items as [|[key val] rest IH]; intros row n; simpl.
  - apply triple_ret. auto.
  - apply triple_bind with (Q := fun _ => even).
    { destruct (String.eqb key "delete_tag").
      - apply triple_bind with (Q := fun _ => even).
        + apply triple_lift. intros s Hs.
          destruct (dict_getitem cu key); [apply even_caught|]; exact Hs.
        + intro. apply triple_ret. auto.
      - apply triple_ret. auto. }
    intros [|].
    + apply triple_bind with (Q := fun _ => even);
        [apply runnables_before|intro row1].
      apply triple_bind with (Q := fun _ => behind).
      { apply triple_delete. intros s [Hcl Hs].
        destruct (row_delete row1 (db s)) as [e|[r d]];
          [apply even_caught; split; assumption|].
        split; [exact Hcl|]. unfold one_behind, counted in *. simpl.
        rewrite !count_events_app, !count_events_cons, !count_events_nil.
        simpl. lia. }
      intro row2.
      apply triple_bind with (Q := fun _ => behind);
        [apply runnables_after_deletion|intro row3].
      apply triple_bind with (Q := fun _ => even).
      { apply triple_incr. intros s [Hcl Hs].
        split; [exact Hcl|]. unfold one_behind, counted in *. simpl. lia. }
      intro. apply IH.
    + apply triple_bind with (Q := fun _ => even).
      { apply triple_emit. intros s Hs.
        apply even_log; [reflexivity|reflexivity|exact Hs]. }
      intro.
      apply triple_bind with (Q := fun _ => even).
      { apply triple_lift. intros s Hs.
        destruct (getattr row key); [apply even_caught|]; exact Hs. }
      intro cur.
      apply triple_bind with (Q := fun _ => even).
      { apply triple_lift. intros s Hs.
        destruct (dict_getitem cu key); [apply even_caught|]; exact Hs. }
      intro v.
      destruct (py_ne _ _); [|apply IH].
      apply triple_bind with (Q := fun _ _ => False).
      * apply triple_lift. intros s Hs. simpl. exact I.
      * intros exempted s [].
Qed.

Lemma exact_commit_row model update :
  triple even (commit_row model update) (fun _ => even) (fun _ _ => True).
Proof.
  destruct update as [pk cu]. apply triple_try. unfold row_body.
  apply triple_bind
    with (Q := fun _ => even)
         (E := fun e s => match e with
                          | ObjectDoesNotExist => even s
                          | _ => True
                          end).
  { apply triple_get. intros s Hs.
    assert (even (with_log s (log s ++ [EvGet model pk]))) as Ha
      by (apply even_log; [reflexivity|reflexivity|exact Hs]).
    destruct (objects_get model pk (db s)) as [e|row]; [|exact Ha].
    destruct e; auto. }
  intro row.
  apply triple_bind with (Q := fun r s => snd r = 0 /\ even s).
  { apply exact_commit_columns. }
  intros r s [Hr Hs]. rewrite Hr. simpl. exact Hs.
Qed.

Lemma exact_commit_all updates :
  triple even (commit_all updates) (fun _ => even) (fun _ _ => True).
Proof.
  induction updates as [|[model u] rest IH]; simpl.
  - apply triple_ret; auto.
  - apply triple_bind with (Q := fun _ => even);
      [apply exact_commit_row|intro; exact IH].
Qed.

(** When no runnable called after a deletion raises
    [ObjectDoesNotExist], the count [commit] returns is the number of
    deletions and saves it has made. *)
Lemma commit_count_exact (d : Store) s n :
  commit st d = (s, inr n) ->
  n = count_events is_delete (log s) + count_events is_save (log s).
Proof.
  rewrite commit_as_all. unfold finish.
  assert (even (mkFrame st d [] 0)) as H0 by (split; reflexivity).
  pose proof (exact_commit_all (all_updates (update_mapping st)) H0)
    as Hall.
  destruct (commit_all _ _) as [s' [e|[]]]; [discriminate|].
  intros [= <- <-]. destruct Hall as [_ Hc]. exact Hc.
Qed.
End PostDeleteOk.

(** A pending update that reaches its marker and whose runnables after
    the deletion raise [ObjectDoesNotExist]: the row is deleted and the
    counter stays, and every count [commit] returns afterwards is short
    of the deletions. *)
Lemma commit_count_short (d : Store) pre post model pk
    (cu same : dict string value) val rest (s0 : frame Store) row
    n1 slot1 row1 row2 d2 n2 slot2 s n :
  all_updates (update_mapping st) = pre ++ (model, (pk, cu)) :: post ->
  cu = same ++ ("delete_tag", val) :: rest ->
  dict_get cu "delete_tag" = Some (VStr "X") ->
  commit_all pre (mkFrame st d [] 0) = (s0, inr tt) ->
  objects_get model pk (db s0) = inr row ->
  Forall (fun kv => column_state cu row (fst kv) = Some false) same ->
  run_hooks (hooks st PRECOMMIT_DELETE_LAMBDA pk)
    (dict_get (commit_lambdas_data (self s0)) pk) row
    = (n1, slot1, inr row1) ->
  row_delete row1 (db s0) = inr (row2, d2) ->
  run_hooks (hooks st POSTCOMMIT_DELETE_LAMBDA pk) slot1 row2
    = (n2, slot2, inl ObjectDoesNotExist) ->
  commit st d = (s, inr n) ->
  n < count_events is_delete (log s) + count_events is_save (log s).
Proof.
  intros Hall Hcu Hmark Hpre Hget Hequal Hpre_hooks Hdel Hpost_hooks Hc.
  pose proof (same_staged_commit_all _ _ _ Hpre) as Hsame.
  destruct (@commit_row_marker_step _ _ st model pk cu same val rest s0 row
              n1 slot1 row1 row2 d2 n2 slot2 (inl ObjectDoesNotExist)
              Hsame Hcu Hmark Hget Hequal Hpre_hooks Hdel Hpost_hooks)
    as (s3 & Hcount & Hdb & Hlog & _ & _ & Hbody).
  assert (lag 0 s0) as H0.
  { assert (lag 0 (mkFrame st d [] 0)) as Hinit
      by (unfold behind_by; simpl; reflexivity).
    pose proof (@lag_commit_all 0 pre _ Hinit) as Hk.
    rewrite Hpre in Hk. exact Hk. }
  assert (lag 1 s3) as H3.
  { unfold behind_by in *. rewrite Hcount, Hlog.
    rewrite !count_events_app, !count_events_cons, !count_events_app,
      !count_events_cons.
    rewrite !count_events_runs, !count_events_comparisons by reflexivity.
    simpl. lia. }
  rewrite (@commit_reaches _ _ st d pre model _ post s0 Hall Hpre) in Hc.
  unfold commit_row, try_except_ObjectDoesNotExist in Hc.
  rewrite Hbody in Hc. unfold finish in Hc.
  pose proof (@lag_commit_all 1 post _ H3) as Hk.
  destruct (commit_all post s3) as [s' [e|[]]]; [discriminate|].
  injection Hc as <- <-. unfold behind_by in Hk. lia.
Qed.
End CountBound.

Section Count3.
Context {Store : Type} `{ORM Store}.

(** C3 on the code.  When [commit] returns, the integer it returns is
    never more than the number of rows it has deleted, and it has saved
    none.  It is that number when no runnable called after a deletion
    raises [ObjectDoesNotExist]; it is less as soon as one does: the
    [except] clause takes the exception after [row.delete()] and before
    the count, so the row is deleted and not counted.  No pending update
    adds more than 1. *)
Theorem commit_returns_deletions_plus_saves st (d : Store) s n :
  commit st d = (s, inr n) ->
  count_events is_save (log s) = 0 /\
  0 <= n <= count_events is_delete (log s) /\
  (post_delete_never_raise_ObjectDoesNotExist st ->
   n = count_events is_delete (log s) + count_events is_save (log s)) /\
  (forall pre post model pk (cu same : dict string value) val rest
          (s0 : frame Store) row n1 slot1 row1 row2 d2 n2 slot2,
     all_updates (update_mapping st) = pre ++ (model, (pk, cu)) :: post ->
     cu = same ++ ("delete_tag", val) :: rest ->
     dict_get cu "delete_tag" = Some (VStr "X") ->
     commit_all pre (mkFrame st d [] 0) = (s0, inr tt) ->
     objects_get model pk (db s0) = inr row ->
     Forall (fun kv => column_state cu row (fst kv) = Some false) same ->
     run_hooks (hooks st PRECOMMIT_DELETE_LAMBDA pk)
       (dict_get (commit_lambdas_data (self s0)) pk) row
       = (n1, slot1, inr row1) ->
     row_delete row1 (db s0) = inr (row2, d2) ->
     run_hooks (hooks st POSTCOMMIT_DELETE_LAMBDA pk) slot1 row2
       = (n2, slot2, inl ObjectDoesNotExist) ->
     n < count_events is_delete (log s)) /\
  (unique_columns st ->
   forall model pk cu (s0 : frame Store),
     In (model, (pk, cu)) (all_updates (update_mapping st)) ->
     rows_updated s0
     <= rows_updated (fst (commit_row model (pk, cu) s0))
     <= rows_updated s0 + 1).
Proof.
  intros Hcommit.
  assert (count_events is_save (log s) = 0) as Hsave.
  { pose proof (commit_never_saves st d) as Hn.
    rewrite Hcommit in Hn. exact Hn. }
  pose proof (commit_count_bounds _ _ Hcommit) as Hbounds.
  split; [exact Hsave|]. split; [lia|]. split; [|split].
  - intros Hposts. eapply commit_count_exact; eassumption.
  - intros pre post model pk cu same val rest s0 row n1 slot1 row1 row2 d2
      n2 slot2 Hall Hcu Hmark Hpre Hget Hequal Hh1 Hdel Hh2.
    pose proof (@commit_count_short _ _ st d pre post model pk cu same val
                  rest s0 row n1 slot1 row1 row2 d2 n2 slot2 s n
                  Hall Hcu Hmark Hpre Hget Hequal Hh1 Hdel Hh2 Hcommit).
    lia.
  - intros Hunique model pk cu s0 Hin.
    pose proof (@commit_row_counter Store _ model pk cu (rows_updated s0)
                  (Hunique model pk cu Hin) s0 eq_refl) as Hrow.
    destruct (commit_row model (pk, cu) s0) as [s1 [e|[]]];
      exact Hrow.
Qed.
End Count3.

(** [commit_returns_deletions_plus_saves] on [delete(Student, 2)] with
    a runnable after the deletion that raises [ObjectDoesNotExist]: row
    2 is deleted and [commit] returns 0.  And on [add(Student, 1,
    name='Alicia')] no count is returned at all. *)
Lemma commit_returns_deletions_plus_saves_witness :
  exists s,
    commit Sample.delete_bob_then_missing Sample.students = (s, inr 0) /\
    db s = [Sample.alice] /\
    log s = [EvGet "Student" 2; EvDelete "Student" 2;
             EvRun POSTCOMMIT_DELETE_LAMBDA 2 0] /\
    0 < count_events is_delete (log s) /\
    snd (commit Sample.rename_alice Sample.students) = inl NameError.
Proof.
  exists (fst (commit Sample.delete_bob_then_missing Sample.students)).
  split; [reflexivity|]. split; [reflexivity|]. split; [reflexivity|].
  split; [|reflexivity].
  assert (commit Sample.delete_bob_then_missing Sample.students =
          (fst (commit Sample.delete_bob_then_missing Sample.students),
           inr 0)) as Hc by reflexivity.
  destruct (@commit_returns_deletions_plus_saves MemStore _
              Sample.delete_bob_then_missing Sample.students
              (fst (commit Sample.delete_bob_then_missing Sample.students))
              0 Hc)
    as (_ & _ & _ & Hshort & _).
  apply (Hshort [] [] Sample.Student 2
           [("delete_tag", VStr "X")] [] (VStr "X") []
           (mkFrame Sample.delete_bob_then_missing Sample.students [] 0)
           Sample.bob O (Some empty_dict) Sample.bob
           (mkRow Sample.Student None (row_attrs Sample.bob))
           [Sample.alice] 1%nat (Some empty_dict));
    try reflexivity.
  constructor.
Defined.

(** * Missing rows and exceptions during [commit] *)

Section Failures.
Context {Store : Type} `{ORM Store}.

Lemma commit_row_of_body model update (s s' : frame Store) r :
  row_body model update s = (s', r) ->
  commit_row model update s =
  (s', match r with
       | inl ObjectDoesNotExist => inr tt
       | _ => r
       end).
Proof.
  intros Hb. unfold commit_row, try_except_ObjectDoesNotExist.
  rewrite Hb. destruct r as [[]|[]]; reflexivity.
Qed.

(** C6, as amended.  When [commit] reaches a pending update: if its row
    is missing, nothing but the lookup happens, the count included, and
    [commit] goes on with the next pending update; an exception other
    than [ObjectDoesNotExist] raised while the row is processed comes out
    of [commit] and no further pending update is processed; an
    [ObjectDoesNotExist] raised while the row is processed, wherever it
    comes from, is dropped and [commit] goes on with the next pending
    update. *)
Theorem commit_failure_semantics st (d : Store) pre post model pk cu
    (s : frame Store) :
  all_updates (update_mapping st) = pre ++ (model, (pk, cu)) :: post ->
  commit_all pre (mkFrame st d [] 0) = (s, inr tt) ->
  (objects_get model pk (db s) = inl ObjectDoesNotExist ->
   commit st d =
   finish (commit_all post (with_log s (log s ++ [EvGet model pk])))) /\
  (forall s' e,
     row_body model (pk, cu) s = (s', inl e) ->
     e <> ObjectDoesNotExist ->
     commit st d = (s', inl e)) /\
  (forall s',
     row_body model (pk, cu) s = (s', inl ObjectDoesNotExist) ->
     commit st d = finish (commit_all post s')).
Proof.
  intros Hall Hpre.
  pose proof (@commit_reaches _ _ st d pre model (pk, cu) post s Hall Hpre)
    as Hcommit.
  split; [|split].
  - intros Hmissing.
    assert (row_body model (pk, cu) s =
            (with_log s (log s ++ [EvGet model pk]),
             inl ObjectDoesNotExist)) as Hbody.
    { unfold row_body. apply bind_inl. rewrite do_get_eq, Hmissing.
      reflexivity. }
    rewrite Hcommit, (commit_row_of_body _ _ _ Hbody). reflexivity.
  - intros s' e Hbody Hne.
    rewrite Hcommit, (commit_row_of_body _ _ _ Hbody).
    destruct e; try reflexivity. contradiction.
  - intros s' Hbody.
    rewrite Hcommit, (commit_row_of_body _ _ _ Hbody). reflexivity.
Qed.

(** C7, as amended.  [_run_lambdas] calls the runnables registered for the
    phase and the row id in registration order, each with the payload
    stored for the row id at that moment and with the row.  A return
    value that is truthy replaces the stored payload; after any other
    return value ([None], an empty dict, [0], [''], [False]) the stored
    payload object stays.  When all of them return, each has been called
    once. *)
Theorem run_lambdas_in_registration_order (s : frame Store) t pk row :
  let '(n, slot, out) :=
    run_hooks (hooks (self s) t pk)
      (dict_get (commit_lambdas_data (self s)) pk) row in
  _run_lambdas t pk row s = (after_hooks s t pk n slot, out) /\
  log (after_hooks s t pk n slot) = log s ++ runs t pk 0 n /\
  dict_get (commit_lambdas_data (self (after_hooks s t pk n slot))) pk
    = slot /\
  (forall row', out = inr row' -> n = List.length (hooks (self s) t pk)).
Proof.
  destruct (run_hooks (hooks (self s) t pk)
              (dict_get (commit_lambdas_data (self s)) pk) row)
    as [[n slot] out] eqn:Hr.
  split; [apply run_lambdas_refines; exact Hr|].
  split; [reflexivity|].
  split; [eapply slot_after_hooks; exact Hr|].
  intros row' ->. eapply run_hooks_calls; exact Hr.
Qed.

(** C10, as amended.  Whether [commit] returns or raises, the buffer it
    leaves holds the pending updates and the runnables it held before;
    only the payloads may differ.  A second [commit] on that buffer
    therefore visits the same pending updates with the same runnables,
    on the store as the first call left it. *)
Theorem commit_keeps_staged_state st (d : Store) :
  let s := fst (commit st d) in
  same_staged st s /\
  self s = set_commit_lambdas_data st (commit_lambdas_data (self s)) /\
  (forall t pk, hooks (self s) t pk = hooks st t pk) /\
  commit (self s) (db s) =
  finish (commit_all (all_updates (update_mapping st))
            (mkFrame (self s) (db s) [] 0)).
Proof.
  assert (same_staged st (fst (commit st d))) as Hsame.
  { assert (keeps (same_staged st) (commit_models (update_mapping st)))
      as Hk.
    { apply keeps_commit_models; intros s0; intros; assumption. }
    specialize (Hk (mkFrame st d [] 0)). unfold commit.
    destruct (commit_models (update_mapping st) (mkFrame st d [] 0))
      as [s [e|[]]]; simpl; apply Hk; repeat split. }
  cbv zeta. set (s := fst (commit st d)) in *.
  split; [exact Hsame|].
  split.
  { destruct Hsame as (Hu & Hd & Hc).
    destruct (self s) as [um dm cl cd]; destruct st as [um0 dm0 cl0 cd0].
    simpl in *. subst. reflexivity. }
  split.
  { intros t pk. apply hooks_same_staged. exact Hsame. }
  rewrite commit_as_all. destruct Hsame as (-> & _). reflexivity.
Qed.
End Failures.

(** [commit_failure_semantics] on [delete(Student, 7); delete(Student,
    2)] with a store that has no row 7: the first pending update is
    skipped, the second is applied and the count is 1. *)
Lemma commit_failure_semantics_witness :
  commit Sample.delete_absent_then_bob Sample.students =
  (mkFrame Sample.delete_absent_then_bob [Sample.alice]
     [EvGet "Student" 7; EvGet "Student" 2; EvDelete "Student" 2] 1,
   inr 1).
Proof.
  destruct
    (@commit_failure_semantics MemStore _ Sample.delete_absent_then_bob
       Sample.students [] [("Student", (2, [("delete_tag", VStr "X")]))]
       "Student" 7 [("delete_tag", VStr "X")]
       (mkFrame Sample.delete_absent_then_bob Sample.students [] 0)
       eq_refl eq_refl) as (Hmissing & _).
  rewrite (Hmissing eq_refl). reflexivity.
Defined.

(** An exception that is not [ObjectDoesNotExist] ends the commit: with a
    failing runnable on row 1, row 2 is never looked up. *)
Lemma commit_aborts_on_hook_failure :
  commit Sample.delete_both_first_failing Sample.students =
  (mkFrame Sample.delete_both_first_failing Sample.students
     [EvGet "Student" 1; EvRun PRECOMMIT_DELETE_LAMBDA 1 0] 0,
   inl (OtherError "RuntimeError")).
Proof. reflexivity. Qed.

(** C6 as stated fails for a runnable that raises [ObjectDoesNotExist]:
    the exception does not reach the caller, row 1 stays, and [commit]
    goes on to delete row 2 and returns 1. *)
Lemma commit_failure_semantics_counterexample :
  hooks Sample.delete_both_first_missing PRECOMMIT_DELETE_LAMBDA 1
    = [Sample.missing_hook] /\
  (forall data row, Sample.missing_hook data row = HRaise ObjectDoesNotExist) /\
  exists s,
    commit Sample.delete_both_first_missing Sample.students = (s, inr 1) /\
    db s = [Sample.alice] /\
    log s = [EvGet "Student" 1; EvRun PRECOMMIT_DELETE_LAMBDA 1 0;
             EvGet "Student" 2; EvDelete "Student" 2].
Proof.
  split; [reflexivity|]. split; [reflexivity|].
  eexists. repeat split.
Qed.

(** C7 as stated fails for a runnable that returns an empty dict: the
    second runnable of row 2 is called with the payload [{'seen': True}]
    and returns [{}]; the stored payload is still [{'seen': True}]. *)
Lemma run_lambdas_in_registration_order_counterexample :
  hooks Sample.delete_bob_seen_empty PRECOMMIT_DELETE_LAMBDA 2
    = [Sample.seen_hook; Sample.empty_hook] /\
  Sample.empty_hook (PyDict [("seen", VBool true)]) Sample.bob
    = HReturn (PyDict [("seen", VBool true)]) Sample.bob (PyDict []) /\
  exists s,
    commit Sample.delete_bob_seen_empty Sample.students = (s, inr 1) /\
    log s = [EvGet "Student" 2; EvRun PRECOMMIT_DELETE_LAMBDA 2 0;
             EvRun PRECOMMIT_DELETE_LAMBDA 2 1; EvDelete "Student" 2] /\
    dict_get (commit_lambdas_data (self s)) 2
      = Some (PyDict [("seen", VBool true)]).
Proof.
  split; [reflexivity|]. split; [reflexivity|].
  eexists. repeat split.
Qed.

(** C10 as stated fails on a second [commit]: the first call deletes row
    2 and calls its runnable; the second call, on the buffer and the
    store the first one left, finds no row 2, calls no runnable and
    returns 0. *)
Lemma commit_keeps_staged_state_counterexample :
  let st := Sample.built
              (add_commit_runnable Sample.delete_bob
                 PRECOMMIT_DELETE_LAMBDA 2 Sample.seen_hook) in
  let first := commit st Sample.students in
  let second := commit (self (fst first)) (db (fst first)) in
  snd first = inr 1 /\
  log (fst first) =
    [EvGet "Student" 2; EvRun PRECOMMIT_DELETE_LAMBDA 2 0;
     EvDelete "Student" 2] /\
  hooks (self (fst first)) PRECOMMIT_DELETE_LAMBDA 2 = [Sample.seen_hook] /\
  snd second = inr 0 /\
  log (fst second) = [EvGet "Student" 2] /\
  count_events is_run (log (fst second)) = 0.
Proof. repeat split. Qed.

(** * Registering runnables *)

(** C8, as amended.  [add_commit_runnable] appends the runnable to those
    of the phase and the row id and leaves the runnables of every other
    phase and row id as they are.  It sets the payload of the row id to
    an empty dict when the row id has no runnable in that phase yet, and
    leaves all payloads as they are when it has one. *)
Theorem add_commit_runnable_registers st runnable_type pk fn :
  exists st',
    add_commit_runnable st runnable_type pk fn = inr st' /\
    hooks st' runnable_type pk = hooks st runnable_type pk ++ [fn] /\
    (forall t' pk', (t', pk') <> (runnable_type, pk) ->
       hooks st' t' pk' = hooks st t' pk') /\
    has_commit_runnable st' runnable_type pk = true /\
    commit_lambdas_data st' =
      (if has_commit_runnable st runnable_type pk
       then commit_lambdas_data st
       else dict_set (commit_lambdas_data st) pk empty_dict) /\
    update_mapping st' = update_mapping st.
Proof.
  destruct (add_commit_runnable_spec st runnable_type pk fn)
    as (st' & Hadd & Hsame & Hother & Hdata & Hum).
  exists st'. repeat split; try assumption.
  destruct (has_commit_runnable st' runnable_type pk) eqn:Hhas;
    [reflexivity|].
  apply has_commit_runnable_false_hooks in Hhas.
  rewrite Hhas in Hsame.
  destruct (hooks st runnable_type pk); discriminate.
Qed.

(** C8 as stated fails for a row id that has a runnable in another
    phase.  After a commit the payload of row 2, registered before the
    deletion, is [{'seen': True}]; registering a runnable for row 2 after
    the deletion sets it to [{}]. *)
Lemma add_commit_runnable_registers_counterexample :
  has_commit_runnable Sample.committed_once PRECOMMIT_DELETE_LAMBDA 2
    = true /\
  dict_get (commit_lambdas_data Sample.committed_once) 2
    = Some (PyDict [("seen", VBool true)]) /\
  exists st',
    add_commit_runnable Sample.committed_once POSTCOMMIT_DELETE_LAMBDA 2
      Sample.quiet_hook = inr st' /\
    dict_get (commit_lambdas_data st') 2 = Some empty_dict.
Proof.
  split; [reflexivity|]. split; [reflexivity|].
  eexists. split; reflexivity.
Qed.

(** * Header lookup *)

Lemma endswith_app_char s c : endswith (s ++ String c "") c = true.
Proof.
  induction s as [|a s IH]; simpl.
  - apply Ascii.eqb_refl.
  - destruct (s ++ String c "")%string eqn:Hs; [|exact IH].
    destruct s; discriminate.
Qed.

Lemma drop_last_app_char s c : drop_last (s ++ String c "") = s.
Proof.
  induction s as [|a s IH]; simpl.
  - reflexivity.
  - destruct (s ++ String c "")%string eqn:Hs.
    + destruct s; discriminate.
    + rewrite IH. reflexivity.
Qed.

(** The loop returns the key of the first column with that header, or
    raises [ValueError] when no column has it. *)
Lemma find_header_spec items h :
  match find_header items h with
  | inr key =>
      exists before c after,
        items = before ++ (key, c) :: after /\ header c = h /\
        Forall (fun kc => header (snd kc) <> h) before
  | inl e =>
      e = ValueError /\ Forall (fun kc => header (snd kc) <> h) items
  end.
Proof.
  induction items as [|[key c] rest IH]; simpl.
  - split; [reflexivity|constructor].
  - destruct (String.eqb_spec (header c) h) as [Heq|Hne].
    + exists [], c, rest. repeat split; [assumption|constructor].
    + destruct (find_header rest h) as [e|key'].
      * destruct IH as [-> Hnone]. split; [reflexivity|].
        constructor; assumption.
      * destruct IH as (before & c' & after & -> & Hh & Hbefore).
        exists ((key, c) :: before), c', after.
        repeat split; [assumption|constructor; assumption].
Qed.

(** C9, as amended.  [_get_header_key] removes one trailing [*] from the
    header, if there is one, and returns the key of the first column
    whose header is exactly the remaining name; when no column has that
    header it raises [ValueError], which is not a [LookupError]. *)
Theorem get_header_key_spec columns h :
  (forall name, _get_header_key columns (name ++ "*")
                = find_header columns name) /\
  (endswith h "*" = false ->
   _get_header_key columns h = find_header columns h) /\
  let name := if endswith h "*" then drop_last h else h in
  match _get_header_key columns h with
  | inr key =>
      exists before c after,
        columns = before ++ (key, c) :: after /\ header c = name /\
        Forall (fun kc => header (snd kc) <> name) before
  | inl e =>
      e = ValueError /\ is_LookupError e = false /\
      Forall (fun kc => header (snd kc) <> name) columns
  end.
Proof.
  split; [|split].
  - intros name. unfold _get_header_key.
    rewrite endswith_app_char, drop_last_app_char. reflexivity.
  - intros Hno. unfold _get_header_key. rewrite Hno. reflexivity.
  - cbv zeta. unfold _get_header_key.
    pose proof (find_header_spec columns
                  (if endswith h "*" then drop_last h else h)) as Hspec.
    destruct (find_header columns _) as [e|key]; [|exact Hspec].
    destruct Hspec as [-> Hnone]. repeat split. exact Hnone.
Qed.

(** The headers of the sample table resolve with and without the
    marker, and only one marker is removed. *)
Lemma get_header_key_examples :
  _get_header_key Sample.student_columns "Label*" = inr "label" /\
  _get_header_key Sample.student_columns "Label" = inr "label" /\
  _get_header_key Sample.student_columns "DBID" = inr "id" /\
  _get_header_key Sample.student_columns "Label**" = inl ValueError.
Proof. repeat split. Qed.

(** C9 as stated fails on a header that no column has: the exception is
    [ValueError], which [except LookupError] does not catch. *)
Lemma get_header_key_spec_counterexample :
  _get_header_key Sample.student_columns "Grade" = inl ValueError /\
  is_LookupError ValueError = false.
Proof. split; reflexivity. Qed.

(** * More on the table definition *)

Lemma find_header_first before key c after h :
  Forall (fun kc => header (snd kc) <> h) before ->
  header c = h ->
  find_header (before ++ (key, c) :: after) h = inr key.
Proof.
  intros Hbefore Hc.
  induction Hbefore as [|[k0 c0] before Hne _ IH]; simpl.
  - rewrite Hc, String.eqb_refl. reflexivity.
  - simpl in Hne. destruct (String.eqb_spec (header c0) h);
      [contradiction|exact IH].
Qed.

Lemma nth_error_split_map {A B} (f : A -> B) (l : list A) : forall i b,
  nth_error (map f l) i = Some b ->
  exists before a after,
    l = before ++ a :: after /\ List.length before = i /\ f a = b.
Proof.
  induction l as [|x l IH]; intros [|i] b; simpl; try discriminate.
  - intros [= <-]. exists [], x, l. repeat split.
  - intros Hn. destruct (IH _ _ Hn) as (before & a & after & -> & <- & <-).
    exists (x :: before), a, after. repeat split.
Qed.

Lemma NoDup_headers_before before key (c : Column) after :
  NoDup (all_headers (before ++ (key, c) :: after)) ->
  Forall (fun kc => header (snd kc) <> header c) before.
Proof.
  unfold all_headers. rewrite map_app. simpl. intros Hnd.
  apply Forall_forall. intros kc Hin Heq.
  apply NoDup_remove_2 in Hnd. apply Hnd.
  apply in_or_app. left. rewrite <- Heq.
  apply in_map with (f := fun kc => header (snd kc)). exact Hin.
Qed.

Lemma app_inj_length {A} (l1 l2 r1 r2 : list A) :
  l1 ++ r1 = l2 ++ r2 -> List.length l1 = List.length l2 ->
  l1 = l2 /\ r1 = r2.
Proof.
  revert l2. induction l1 as [|x l1 IH]; intros [|y l2]; simpl;
    try discriminate.
  - auto.
  - intros [= -> Happ] [= Hlen]. destruct (IH _ Happ Hlen) as [-> ->].
    auto.
Qed.

(** The display header at a position resolves to the key at that
    position. *)
Lemma display_header_at columns i h key :
  NoDup (all_headers columns) ->
  Forall (fun kc => is_modifiable (snd kc) = false ->
                    endswith (header (snd kc)) "*" = false) columns ->
  nth_error (all_display_headers columns) i = Some h ->
  nth_error (all_columns columns) i = Some key ->
  _get_header_key columns h = inr key.
Proof.
  intros Hnd Hstar Hh Hkey.
  unfold all_display_headers in Hh. unfold all_columns, dict_keys in Hkey.
  apply nth_error_split_map in Hh
    as (before & [k c] & after & Hcols & Hlen & Hdisp).
  apply nth_error_split_map in Hkey
    as (before' & [k' c'] & after' & Hcols' & Hlen' & Hk).
  simpl in Hdisp, Hk. subst k'.
  assert (before = before' /\ (k, c) :: after = (key, c') :: after')
    as [<- [= -> <- <-]].
  { apply app_inj_length; congruence. }
  subst columns.
  pose proof (NoDup_headers_before _ _ _ _ Hnd) as Hbefore.
  rewrite Forall_forall in Hstar.
  specialize (Hstar (key, c) (in_elt _ _ _)). simpl in Hstar.
  unfold _get_header_key.
  destruct (is_modifiable c); subst h.
  - rewrite endswith_app_char, drop_last_app_char.
    apply find_header_first; [assumption|reflexivity].
  - rewrite (Hstar eq_refl).
    apply find_header_first; [assumption|reflexivity].
Qed.

(** X1.  In a table whose headers are distinct and in which no column
    without inserter has a header ending in [*], the display header at
    any position resolves, through [column_name], to the column key at
    that position. *)
Theorem display_header_resolves columns i h key :
  NoDup (all_headers columns) ->
  Forall (fun kc => is_modifiable (snd kc) = false ->
                    endswith (header (snd kc)) "*" = false) columns ->
  nth_error (all_display_headers columns) i = Some h ->
  nth_error (all_columns columns) i = Some key ->
  column_name columns h = inr key.
Proof. unfold column_name. apply display_header_at. Qed.

(** [display_header_resolves] on the sample table: position 2 holds the
    display header [Label*] and the key [label]. *)
Lemma display_header_resolves_witness :
  column_name Sample.student_columns "Label*" = inr "label".
Proof.
  apply (@display_header_resolves Sample.student_columns 2 "Label*" "label").
  - repeat constructor; simpl; intuition discriminate.
  - repeat constructor; simpl; intros; try reflexivity; discriminate.
  - reflexivity.
  - reflexivity.
Defined.

Lemma dict_get_split {V} (d : dict string V) key v :
  dict_get d key = Some v ->
  exists before after,
    d = before ++ (key, v) :: after /\ ~ In key (dict_keys before).
Proof.
  induction d as [|[k0 v0] d IH]; simpl; [discriminate|].
  destruct (String.eqb_spec k0 key) as [->|Hne].
  - intros [= <-]. exists [], d. split; [reflexivity|intros []].
  - intros Hg. destruct (IH Hg) as (before & after & -> & Hnotin).
    exists ((k0, v0) :: before), after. split; [reflexivity|].
    simpl. intros [Heq|Hin]; [contradiction|exact (Hnotin Hin)].
Qed.

Lemma dict_get_middle {V} (before : dict string V) key v after :
  ~ In key (dict_keys before) ->
  dict_get (before ++ (key, v) :: after) key = Some v.
Proof.
  induction before as [|[k0 v0] before IH]; simpl; intros Hnotin.
  - rewrite String.eqb_refl. reflexivity.
  - destruct (String.eqb_spec k0 key) as [->|Hne]; [tauto|].
    apply IH. tauto.
Qed.

(** X2.  In a table whose headers are distinct, the header of a column
    key resolves back to that key, provided the header does not end in
    [*]. *)
Theorem column_name_of_header_name columns key h :
  NoDup (all_headers columns) ->
  header_name columns key = inr h ->
  endswith h "*" = false ->
  column_name columns h = inr key.
Proof.
  intros Hnd Hh Hstar.
  unfold header_name, _get_column, dict_getitem in Hh.
  destruct (dict_get columns key) as [c|] eqn:Hget; [|discriminate].
  simpl in Hh. injection Hh as <-.
  destruct (dict_get_split _ _ Hget) as (before & after & -> & _).
  unfold column_name, _get_header_key. rewrite Hstar.
  apply find_header_first; [|reflexivity].
  eapply NoDup_headers_before; exact Hnd.
Qed.

(** [column_name_of_header_name] on the sample table. *)
Lemma column_name_of_header_name_witness :
  column_name Sample.student_columns "First Name" = inr "first name".
Proof.
  apply (@column_name_of_header_name Sample.student_columns "first name").
  - repeat constructor; simpl; intuition discriminate.
  - reflexivity.
  - reflexivity.
Defined.

(** X3.  In a table whose keys are distinct, the key a header resolves to
    has that header, without one trailing [*]. *)
Theorem header_name_of_column_name columns h key :
  NoDup (all_columns columns) ->
  column_name columns h = inr key ->
  header_name columns key
  = inr (if endswith h "*" then drop_last h else h).
Proof.
  intros Hnd Hkey.
  pose proof (find_header_spec columns
                (if endswith h "*" then drop_last h else h)) as Hspec.
  unfold column_name, _get_header_key in Hkey. rewrite Hkey in Hspec.
  destruct Hspec as (before & c & after & -> & Hc & _).
  unfold all_columns, dict_keys in Hnd. rewrite map_app in Hnd.
  simpl in Hnd. apply NoDup_remove_2 in Hnd.
  unfold header_name, _get_column, dict_getitem.
  rewrite dict_get_middle
    by (intros Hin; apply Hnd, in_or_app; left; exact Hin).
  simpl. rewrite Hc. reflexivity.
Qed.

(** [header_name_of_column_name] on the sample table. *)
Lemma header_name_of_column_name_witness :
  header_name Sample.student_columns "label" = inr "Label".
Proof.
  apply (@header_name_of_column_name Sample.student_columns "Label*").
  - repeat constructor; simpl; intuition discriminate.
  - reflexivity.
Defined.

(** [insert] raises [KeyError] for a column the table does not
    define.  Through a column without inserter it never touches the
    buffer: it returns the buffer as it is, except for the columns
    [delete_tag] and [copy_tag], where it calls the missing inserter and
    raises [TypeError].  Through a column with an inserter it is the
    call of that inserter. *)
Lemma insert_by_column columns table_updater row column v :
  match dict_get columns column with
  | None => insert columns table_updater row column v = inl KeyError
  | Some column_def =>
      match inserter column_def with
      | Some g =>
          insert columns table_updater row column v
          = g table_updater row v
      | None =>
          insert columns table_updater row column v =
          if String.eqb column "delete_tag" || String.eqb column "copy_tag"
          then inl (OtherError "TypeError")
          else inr table_updater
      end
  end.
Proof.
  unfold insert, _get_column, dict_getitem.
  destruct (dict_get columns column) as [c|]; [|reflexivity]. simpl.
  unfold is_modifiable.
  destruct (inserter c) as [g|]; simpl; [reflexivity|].
  destruct (String.eqb column "delete_tag" || String.eqb column "copy_tag");
    reflexivity.
Qed.

(** * More on staging *)

(** X4.  [_key_index] raises [KeyError] for a model the buffer does not
    hold.  Otherwise it returns [-1] when no pending update of the model
    has the row id, and else the position of the first one that has it,
    which is a valid index of the list. *)
Theorem key_index_spec st model pk :
  match dict_get (update_mapping st) model with
  | None => _key_index st model pk = inl KeyError
  | Some update_vals =>
      exists i,
        _key_index st model pk = inr i /\
        ((i = -1 /\ Forall (fun m => fst m <> pk) update_vals) \/
         (0 <= i < Z.of_nat (List.length update_vals) /\
          exists cu,
            nth_error update_vals (Z.to_nat i) = Some (pk, cu) /\
            Forall (fun m => fst m <> pk)
              (firstn (Z.to_nat i) update_vals)))
  end.
Proof.
  unfold _key_index, dict_getitem.
  destruct (dict_get (update_mapping st) model) as [uv|]; [|reflexivity].
  simpl. eexists. split; [reflexivity|].
  destruct (key_index_from_spec uv pk 0)
    as [[Hk Hall]|(l1 & [pk' cu] & l2 & -> & Hall & Hm & Hk)].
  - left. split; assumption.
  - right. simpl in Hm. subst pk'. rewrite Hk. simpl (0 + _).
    rewrite Nat2Z.id. split.
    + rewrite length_app. simpl. lia.
    + exists cu. split; [apply nth_error_middle|].
      rewrite firstn_app, Nat.sub_diag, firstn_all. simpl.
      rewrite app_nil_r. exact Hall.
Qed.

Lemma list_setitem_same {A} (l : list A) : forall i a,
  nth_error l i = Some a -> list_setitem l i a = l.
Proof.
  induction l as [|x l IH]; intros [|i] a; simpl; try discriminate.
  - intros [= ->]. reflexivity.
  - intros Hn. rewrite IH by assumption. reflexivity.
Qed.

Lemma set_update_mapping_id st :
  set_update_mapping st (update_mapping st) = st.
Proof. destruct st; reflexivity. Qed.

(** A dict that holds every item of [kw] is unchanged by the update. *)
Lemma dict_update_absorbed (kw : dict string value) : forall c,
  (forall k v, In (k, v) kw -> dict_get c k = Some v) ->
  dict_update c kw = c.
Proof.
  unfold dict_update.
  induction kw as [|[k v] kw IH]; intros c Hall; simpl; [reflexivity|].
  rewrite (@dict_set_get_id _ _ _ c k v)
    by (apply Hall; left; reflexivity).
  apply IH. intros k' v' Hin. apply Hall. right; assumption.
Qed.

Lemma dict_get_of_in (kw : dict string value) k v :
  NoDup (dict_keys kw) -> In (k, v) kw -> dict_get kw k = Some v.
Proof.
  induction kw as [|[k0 v0] kw IH]; simpl; intros Hnd Hin; [contradiction|].
  inversion Hnd as [|? ? Hnotin Hnd']; subst.
  destruct Hin as [[= -> ->]|Hin].
  - rewrite String.eqb_refl. reflexivity.
  - destruct (String.eqb_spec k0 k) as [->|Hne].
    + exfalso. apply Hnotin.
      apply in_map with (f := fst) in Hin. exact Hin.
    + apply IH; assumption.
Qed.

(** X5.  Staging the same values for the same row a second time changes
    nothing: the buffer after the second [add] is the buffer after the
    first. *)
Theorem add_same_twice st model pk kw st1 :
  NoDup (dict_keys kw) ->
  add st model pk kw = inr st1 ->
  add st1 model pk kw = inr st1.
Proof.
  intros Hnd Hadd1.
  destruct (add_spec st model pk kw) as (st1' & Hadd1' & Hp1 & _).
  rewrite Hadd1 in Hadd1'. injection Hadd1' as <-.
  (* the first pending update of the pair holds every item of [kw] *)
  assert (exists c rest,
            pending st1 model pk = c :: rest /\
            forall k v, In (k, v) kw -> dict_get c k = Some v)
    as (c & rest & Hp & Hc).
  { rewrite Hp1. destruct (pending st model pk) as [|c0 rest0].
    - exists kw, []. split; [reflexivity|].
      intros k v Hin. apply dict_get_of_in; assumption.
    - exists (dict_update c0 kw), rest0. split; [reflexivity|].
      intros k v Hin. rewrite dict_get_update by assumption.
      rewrite (dict_get_of_in _ _ _ Hnd Hin). reflexivity. }
  unfold add, _key_index, dict_mem, dict_getitem.
  unfold pending in Hp.
  destruct (dict_get (update_mapping st1) model) as [uv|] eqn:Hget;
    [|discriminate].
  simpl.
  destruct (key_index_from_spec uv pk 0)
    as [[Hk Hall]|(l1 & [pk' cu] & l2 & -> & Hall & Hm & Hk)].
  - rewrite (filter_pk_none Hall) in Hp. discriminate.
  - simpl in Hm. subst pk'. rewrite Hk.
    rewrite filter_app, (filter_pk_none Hall) in Hp. simpl in Hp.
    rewrite Z.eqb_refl in Hp. simpl in Hp. injection Hp as -> _.
    replace (0 + Z.of_nat (List.length l1) >=? 0) with true
      by (symmetry; apply Z.geb_le; lia).
    unfold list_getitem. simpl (0 + _).
    rewrite Nat2Z.id, nth_error_middle. simpl.
    rewrite (dict_update_absorbed kw c Hc).
    rewrite list_setitem_same by apply nth_error_middle.
    rewrite (dict_set_get_id _ _ Hget), set_update_mapping_id.
    reflexivity.
Qed.

(** [add_same_twice] on [add(Student, 1, name='Alicia')]. *)
Lemma add_same_twice_witness :
  add Sample.rename_alice "Student" 1 [("name", VStr "Alicia")]
  = inr Sample.rename_alice.
Proof.
  apply (@add_same_twice init "Student" 1 [("name", VStr "Alicia")]).
  - repeat constructor. simpl. tauto.
  - reflexivity.
Defined.

(** X6.  [add] never raises, and besides the pending updates of its own
    model and row id it leaves the buffer as it is: the pending updates
    of every other pair, the runnables and the payloads. *)
Theorem add_touches_one_row st model pk kw :
  exists st',
    add st model pk kw = inr st' /\
    (forall model' pk', (model', pk') <> (model, pk) ->
       pending st' model' pk' = pending st model' pk') /\
    (List.length (pending st' model pk)
     = Nat.max 1 (List.length (pending st model pk))) /\
    (forall t pk', hooks st' t pk' = hooks st t pk') /\
    (forall t pk',
       has_commit_runnable st' t pk' = has_commit_runnable st t pk') /\
    commit_lambdas_data st' = commit_lambdas_data st.
Proof.
  destruct (add_spec st model pk kw)
    as (st' & Hadd & Hsame & Hother & Hcl & Hcd).
  exists st'. repeat split; try assumption.
  - rewrite Hsame. destruct (pending st model pk); simpl; lia.
  - intros t pk'. unfold hooks. rewrite Hcl. reflexivity.
  - intros t pk'. unfold has_commit_runnable. rewrite Hcl. reflexivity.
Qed.

Lemma delete_appends_marker_frame st model pk kw :
  exists st',
    delete st model pk kw = inr st' /\
    commit_lambdas st' = commit_lambdas st /\
    commit_lambdas_data st' = commit_lambdas_data st.
Proof.
  unfold delete, dict_mem, dict_getitem.
  destruct (dict_get (update_mapping st) model); simpl;
    eexists; repeat split.
Qed.

(** X7.  [delete] never raises and ignores its keyword arguments; it adds
    one pending update, the deletion marker alone, after all pending
    updates of its model, and leaves everything else in the buffer as it
    is. *)
Theorem delete_appends_marker st model pk kw :
  exists st',
    delete st model pk kw = inr st' /\
    delete st model pk [] = inr st' /\
    dict_get (update_mapping st') model =
      Some (match dict_get (update_mapping st) model with
            | Some update_vals => update_vals
            | None => []
            end ++ [(pk, [("delete_tag", VStr "X")])]) /\
    (forall model', model' <> model ->
       dict_get (update_mapping st') model'
       = dict_get (update_mapping st) model') /\
    commit_lambdas st' = commit_lambdas st /\
    commit_lambdas_data st' = commit_lambdas_data st.
Proof.
  unfold delete, dict_mem, dict_getitem.
  destruct (dict_get (update_mapping st) model) as [uv|] eqn:Hget; simpl;
    (eexists; split; [reflexivity|]; split; [reflexivity|]; simpl;
     split; [apply dict_get_set_same|];
     split; [|split; reflexivity];
     intros model' Hne; apply dict_get_set_other; congruence).
Qed.

(** * More on runnables and payloads *)

Lemma dict_mem_set_keeps {V} (d : dict Z V) k v k' :
  dict_mem d k' = true -> dict_mem (dict_set d k v) k' = true.
Proof.
  unfold dict_mem. destruct (Z.eq_dec k k') as [->|Hne].
  - rewrite dict_get_set_same. reflexivity.
  - rewrite dict_get_set_other by assumption. auto.
Qed.

Lemma has_iff_hooks_mem st t pk :
  has_commit_runnable st t pk = true <->
  exists per_pk fns,
    dict_get (commit_lambdas st) t = Some per_pk /\
    dict_get per_pk pk = Some fns.
Proof.
  unfold has_commit_runnable, dict_mem. split.
  - destruct (dict_get (commit_lambdas st) t) as [per_pk|]; [|discriminate].
    destruct (dict_get per_pk pk) as [fns|] eqn:Hp; [|discriminate].
    eauto.
  - intros (per_pk & fns & -> & ->). reflexivity.
Qed.

(** After a registration the pairs with runnables are those of before
    and the registered one. *)
Lemma add_commit_runnable_has st t pk fn st' :
  add_commit_runnable st t pk fn = inr st' ->
  forall t' pk',
    has_commit_runnable st' t' pk' =
    has_commit_runnable st t' pk' || (String.eqb t' t && Z.eqb pk' pk).
Proof.
  intros Hadd t' pk'.
  assert (exists per_pk,
            (dict_get (commit_lambdas st) t = Some per_pk \/
             dict_get (commit_lambdas st) t = None /\ per_pk = []) /\
            commit_lambdas st' =
              dict_set (commit_lambdas st) t
                (dict_set per_pk pk (hooks st t pk ++ [fn])))
    as (per_pk & Hper & Hcl).
  { revert Hadd.
    unfold add_commit_runnable, hooks, dict_mem, dict_getitem.
    destruct (dict_get (commit_lambdas st) t) as [p|] eqn:Ht; simpl.
    - rewrite Ht; simpl.
      destruct (dict_get p pk) as [fns|] eqn:Hp; simpl.
      + rewrite Ht; simpl. rewrite Hp; simpl.
        intros [= <-]. exists p. split; [left; reflexivity|reflexivity].
      + repeat (rewrite dict_get_set_same; simpl).
        rewrite dict_set_set, dict_set_set.
        intros [= <-]. exists p. split; [left; reflexivity|reflexivity].
    - repeat (rewrite dict_get_set_same; simpl).
      rewrite !Z.eqb_refl. simpl. rewrite !dict_set_set.
      intros [= <-]. exists []. split; [right; split; reflexivity|].
      reflexivity. }
  unfold has_commit_runnable. rewrite Hcl.
  destruct (String.eqb_spec t' t) as [->|Ht].
  - rewrite dict_get_set_same. unfold dict_mem.
    destruct (Z.eqb_spec pk' pk) as [->|Hp].
    + rewrite dict_get_set_same. simpl. rewrite orb_true_r. reflexivity.
    + rewrite dict_get_set_other by congruence. simpl.
      rewrite orb_false_r.
      destruct Hper as [->|[-> ->]]; reflexivity.
  - rewrite dict_get_set_other by congruence. simpl.
    rewrite orb_false_r. reflexivity.
Qed.

Lemma slots_lists_add_commit_runnable st t pk fn st' :
  slots_ok st /\ lists_ok st ->
  add_commit_runnable st t pk fn = inr st' ->
  slots_ok st' /\ lists_ok st'.
Proof.
  intros [Hslots Hlists] Hadd.
  pose proof (add_commit_runnable_has _ _ _ _ Hadd) as Hhas.
  destruct (add_commit_runnable_spec st t pk fn)
    as (st2 & Hadd2 & Hsame & Hother & Hdata & _).
  rewrite Hadd in Hadd2. injection Hadd2 as <-.
  split.
  - intros t' pk' Hh. rewrite Hhas in Hh. rewrite Hdata.
    apply orb_prop in Hh as [Hh|Hh].
    + apply Hslots in Hh.
      destruct (has_commit_runnable st t pk); [assumption|].
      apply dict_mem_set_keeps. assumption.
    + apply andb_prop in Hh as [Ht Hp].
      apply String.eqb_eq in Ht. apply Z.eqb_eq in Hp. subst.
      destruct (has_commit_runnable st t pk) eqn:Hold.
      * apply (Hslots t pk). assumption.
      * apply dict_mem_set_same.
  - intros t' pk' Hh.
    destruct (String.eqb_spec t' t) as [->|Ht].
    + destruct (Z.eqb_spec pk' pk) as [->|Hp].
      * rewrite Hsame. destruct (hooks st t pk); discriminate.
      * rewrite Hother by congruence. apply (Hlists t pk').
        rewrite Hhas in Hh. rewrite (proj2 (Z.eqb_neq _ _) Hp) in Hh.
        rewrite andb_false_r, orb_false_r in Hh. exact Hh.
    + rewrite Hother by congruence. apply (Hlists t' pk').
      rewrite Hhas in Hh. rewrite (proj2 (String.eqb_neq _ _) Ht) in Hh.
      rewrite orb_false_r in Hh. exact Hh.
Qed.

Lemma slots_lists_same_lambdas st st' :
  commit_lambdas st' = commit_lambdas st ->
  (forall pk, dict_mem (commit_lambdas_data st) pk = true ->
              dict_mem (commit_lambdas_data st') pk = true) ->
  slots_ok st /\ lists_ok st -> slots_ok st' /\ lists_ok st'.
Proof.
  intros Hcl Hcd [Hslots Hlists]. split.
  - intros t pk Hh. apply Hcd, (Hslots t pk).
    unfold has_commit_runnable in *. rewrite Hcl in Hh. exact Hh.
  - intros t pk Hh. unfold hooks, has_commit_runnable in *.
    rewrite Hcl in *. apply (Hlists t pk). exact Hh.
Qed.

Section CommitKeepsSlots.
Context {Store : Type} `{ORM Store}.

Lemma same_staged_commit st (d : Store) : same_staged st (fst (commit st d)).
Proof.
  rewrite commit_as_all. unfold finish.
  destruct (commit_all (all_updates (update_mapping st)) (mkFrame st d [] 0))
    as [s r] eqn:Hc.
  pose proof (same_staged_commit_all _ _ _ Hc) as Hs.
  destruct r as [e|[]]; exact Hs.
Qed.

(** [commit] removes no payload slot. *)
Lemma commit_keeps_slots st (d : Store) pk :
  dict_mem (commit_lambdas_data st) pk = true ->
  dict_mem (commit_lambdas_data (self (fst (commit st d)))) pk = true.
Proof.
  intros Hmem.
  apply (@fine_commit Store _ (fun _ => True)
           (fun s => dict_mem (commit_lambdas_data (self s)) pk = true));
    auto.
  - intros s t pk' row n slot out _ Hs _. unfold after_hooks. simpl.
    destruct slot; [apply dict_mem_set_keeps|]; assumption.
  - apply Forall_forall. auto.
Qed.
End CommitKeepsSlots.

Lemma reachable_slots_lists st :
  reachable st -> slots_ok st /\ lists_ok st.
Proof.
  intros Hb.
  induction Hb as [|st model pk kw st' _ IH Hadd
                    |st model pk kw st' _ IH Hdel
                    |st t pk fn st' _ IH Hadd
                    |st Store orm d _ IH].
  - split; intros t pk Hh; discriminate.
  - destruct (add_spec st model pk kw) as (st2 & Hadd2 & _ & _ & Hcl & Hcd).
    rewrite Hadd in Hadd2. injection Hadd2 as <-.
    apply slots_lists_same_lambdas with (st := st); [assumption| |assumption].
    rewrite Hcd. auto.
  - destruct (delete_appends_marker_frame st model pk kw)
      as (st2 & Hdel2 & Hcl & Hcd).
    rewrite Hdel in Hdel2. injection Hdel2 as <-.
    apply slots_lists_same_lambdas with (st := st); [assumption| |assumption].
    rewrite Hcd. auto.
  - eapply slots_lists_add_commit_runnable; eassumption.
  - apply slots_lists_same_lambdas with (st := st); [| |assumption].
    + apply (same_staged_commit st d).
    + intros pk. apply commit_keeps_slots.
Qed.

(** X8.  In every buffer the calls of [AdapterStaging] can build
    ([add], [delete], [add_commit_runnable] and [commit] from a new
    buffer), [has_commit_runnable] answers [True] for a phase and a row
    id exactly when at least one runnable is registered for them, and
    every row id with a runnable has a payload. *)
Theorem reachable_keeps_slots st :
  reachable st ->
  slots_ok st /\
  forall t pk, has_commit_runnable st t pk = true <-> hooks st t pk <> [].
Proof.
  intros Hb. destruct (reachable_slots_lists Hb) as [Hslots Hlists].
  split; [exact Hslots|].
  intros t pk. split; [apply (Hlists t pk)|].
  intros Hne. destruct (has_commit_runnable st t pk) eqn:Hh; [reflexivity|].
  apply has_commit_runnable_false_hooks in Hh. contradiction.
Qed.

Lemma reachable_delete_bob_hooked : reachable Sample.delete_bob_hooked.
Proof.
  apply reach_add_commit_runnable
    with (st := Sample.built
                  (add_commit_runnable Sample.delete_bob
                     PRECOMMIT_DELETE_LAMBDA 2 Sample.seen_hook))
         (t := POSTCOMMIT_DELETE_LAMBDA) (pk := 2) (fn := Sample.quiet_hook);
    [|reflexivity].
  apply reach_add_commit_runnable
    with (st := Sample.delete_bob)
         (t := PRECOMMIT_DELETE_LAMBDA) (pk := 2) (fn := Sample.seen_hook);
    [|reflexivity].
  apply reach_delete with (st := init) (model := "Student") (pk := 2)
                          (kwargs := []); [|reflexivity].
  apply reach_init.
Defined.

Lemma reachable_keeps_slots_witness :
  reachable Sample.delete_bob_hooked /\
  slots_ok Sample.delete_bob_hooked /\
  forall t pk,
    has_commit_runnable Sample.delete_bob_hooked t pk = true <->
    hooks Sample.delete_bob_hooked t pk <> [].
Proof.
  split; [exact reachable_delete_bob_hooked|].
  apply (reachable_keeps_slots reachable_delete_bob_hooked).
Defined.

Lemma run_hooks_raises_from fns : forall d row n slot e,
  run_hooks fns (Some d) row = (n, slot, inl e) ->
  exists fn data r, In fn fns /\ fn data r = HRaise e.
Proof.
  induction fns as [|fn fns IH]; intros d row n slot e; simpl.
  - discriminate.
  - destruct (fn d row) as [e0|data1 row1 res] eqn:Hfn.
    + intros [= _ _ <-]. exists fn, d, row. auto.
    + destruct (run_hooks fns _ row1) as [[n1 slot1] out1] eqn:Hr.
      intros [= _ _ ->].
      destruct (IH _ _ _ _ _ Hr) as (fn' & data & r & Hin & Hfn').
      exists fn', data, r. auto.
Qed.

(** X9.  On a buffer built by the calls of [AdapterStaging],
    [_run_lambdas] raises nothing of its own: an exception that comes
    out of it was raised by one of the runnables registered for the
    phase and the row id.  In particular the lookup of the payload never
    raises [KeyError]. *)
Theorem run_lambdas_raises_from_runnable {Store : Type} `{ORM Store}
    t pk row (s s' : frame Store) e :
  reachable (self s) ->
  _run_lambdas t pk row s = (s', inl e) ->
  exists fn data r,
    In fn (hooks (self s) t pk) /\ fn data r = HRaise e.
Proof.
  intros Hb Hrun.
  destruct (reachable_slots_lists Hb) as [Hslots _].
  destruct (run_hooks (hooks (self s) t pk)
              (dict_get (commit_lambdas_data (self s)) pk) row)
    as [[n slot] out] eqn:Hr.
  rewrite (run_lambdas_refines _ _ _ _ Hr) in Hrun.
  injection Hrun as _ ->.
  destruct (has_commit_runnable (self s) t pk) eqn:Hh.
  - apply (Hslots t pk) in Hh. unfold dict_mem in Hh.
    destruct (dict_get (commit_lambdas_data (self s)) pk) as [d|];
      [|discriminate].
    eapply run_hooks_raises_from. exact Hr.
  - rewrite (has_commit_runnable_false_hooks _ _ _ Hh) in Hr.
    discriminate.
Qed.

Lemma reachable_delete_both_first_failing :
  reachable Sample.delete_both_first_failing.
Proof.
  apply reach_add_commit_runnable
    with (st := Sample.built
                  (delete (Sample.built (delete init "Student" 1 []))
                     "Student" 2 []))
         (t := PRECOMMIT_DELETE_LAMBDA) (pk := 1) (fn := Sample.failing_hook);
    [|reflexivity].
  apply reach_delete
    with (st := Sample.built (delete init "Student" 1 []))
         (model := "Student") (pk := 2) (kwargs := []); [|reflexivity].
  apply reach_delete with (st := init) (model := "Student") (pk := 1)
                          (kwargs := []); [|reflexivity].
  apply reach_init.
Defined.

Lemma run_lambdas_raises_from_runnable_witness :
  exists fn data r,
    In fn (hooks Sample.delete_both_first_failing
             PRECOMMIT_DELETE_LAMBDA 1) /\
    fn data r = HRaise (OtherError "RuntimeError").
Proof.
  apply (@run_lambdas_raises_from_runnable MemStore _
           PRECOMMIT_DELETE_LAMBDA 1 Sample.alice
           (mkFrame Sample.delete_both_first_failing Sample.students [] 0)
           (mkFrame Sample.delete_both_first_failing Sample.students
              [EvRun PRECOMMIT_DELETE_LAMBDA 1 0] 0)
           (OtherError "RuntimeError")).
  - exact reachable_delete_both_first_failing.
  - reflexivity.
Defined.

(** * [commit] as a whole *)

Section WholeCommit.
Context {Store : Type} `{ORM Store}.

Lemma commit_all_never_ObjectDoesNotExist updates : forall s : frame Store,
  snd (commit_all updates s) <> inl ObjectDoesNotExist.
Proof.
  induction updates as [|[model u] rest IH]; intros s; simpl.
  - discriminate.
  - unfold bind, commit_row, try_except_ObjectDoesNotExist.
    destruct (row_body model u s) as [s' [e|[]]]; [|apply IH].
    destruct e; simpl; try discriminate. apply IH.
Qed.

(** X11.  [commit] never raises [ObjectDoesNotExist], whichever lookup,
    runnable or deletion raised one while a row was processed. *)
Theorem commit_never_raises_ObjectDoesNotExist st (d : Store) :
  snd (commit st d) <> inl ObjectDoesNotExist.
Proof.
  rewrite commit_as_all. unfold finish.
  pose proof (commit_all_never_ObjectDoesNotExist
                (all_updates (update_mapping st)) (mkFrame st d [] 0)) as Hn.
  destruct (commit_all _ _) as [s [e|[]]]; simpl in *.
  - intros [= ->]. apply Hn. reflexivity.
  - discriminate.
Qed.

Lemma not_in_runs t pk i n t' pk' j :
  pk <> pk' -> ~ In (EvRun t' pk' j) (runs t pk i n).
Proof.
  intros Hne Hin. unfold runs in Hin. apply in_map_iff in Hin.
  destruct Hin as (k & [= _ Hpk _] & _). congruence.
Qed.

(** X12.  For a row id that has no pending update, [commit] calls no
    runnable and leaves the payload as it is. *)
Theorem commit_leaves_other_rows st (d : Store) pk0 :
  (forall model cu,
     ~ In (model, (pk0, cu)) (all_updates (update_mapping st))) ->
  dict_get (commit_lambdas_data (self (fst (commit st d)))) pk0
    = dict_get (commit_lambdas_data st) pk0 /\
  forall t i, ~ In (EvRun t pk0 i) (log (fst (commit st d))).
Proof.
  intros Hno.
  apply (@fine_commit Store _ (fun pk => pk <> pk0)
           (fun s =>
              dict_get (commit_lambdas_data (self s)) pk0
                = dict_get (commit_lambdas_data st) pk0 /\
              forall t i, ~ In (EvRun t pk0 i) (log s))).
  - intros s ev _ _ Hrun _ [Hd Hl]. split; [exact Hd|].
    intros t i Hin. simpl in Hin. apply in_app_or in Hin.
    destruct Hin as [Hin|[->|[]]]; [exact (Hl t i Hin)|discriminate].
  - intros s t pk row n slot out Hpk [Hd Hl] Hr.
    unfold after_hooks. simpl. split.
    + destruct slot as [o|]; [|exact Hd].
      rewrite dict_get_set_other by assumption. exact Hd.
    + intros t' i Hin. apply in_app_or in Hin.
      destruct Hin as [Hin|Hin]; [exact (Hl t' i Hin)|].
      exact (@not_in_runs t pk 0%nat n t' pk0 i Hpk Hin).
  - intros s model pk row row' d' [Hd Hl] _. split; [exact Hd|].
    intros t i Hin. simpl in Hin. apply in_app_or in Hin.
    destruct Hin as [Hin|[Heq|[]]]; [exact (Hl t i Hin)|discriminate].
  - intros s Hs. exact Hs.
  - apply Forall_forall. intros [model [pk cu]] Hin. simpl.
    intros ->. exact (Hno _ _ Hin).
  - simpl. split; [reflexivity|]. intros t i [].
Qed.

Lemma in_runs_is_run t pk i n ev :
  In ev (runs t pk i n) -> is_run ev = true.
Proof.
  unfold runs. intros Hin. apply in_map_iff in Hin as (j & <- & _).
  reflexivity.
Qed.

(** X13.  [commit] itself never writes an attribute of a row and never
    saves a row, and it touches the store only through [row.delete()]:
    as far as [commit]'s own calls go, the store it leaves is the store
    it was given after as many calls of [row.delete()] as there are
    deletions in its log.  (Runnables are functions of the payload and
    the row here; what a runnable does to the store on its own is not
    part of the statement.) *)
Theorem commit_only_deletes st (d : Store) :
  deleted_from d
    (count_events is_delete (log (fst (commit st d))))
    (db (fst (commit st d))) /\
  forall ev, In ev (log (fst (commit st d))) ->
    is_save ev = false /\ is_setattr ev = false.
Proof.
  apply (@fine_commit Store _ (fun _ => True)
           (fun s =>
              deleted_from d (count_events is_delete (log s)) (db s) /\
              forall ev, In ev (log s) ->
                is_save ev = false /\ is_setattr ev = false)).
  - intros s ev Hdel Hsave _ Hset [Hs Hl]. simpl. split.
    + rewrite count_events_app.
      unfold count_events at 2. simpl. rewrite Hdel. simpl.
      rewrite Z.add_0_r. exact Hs.
    + intros ev' Hin. apply in_app_or in Hin.
      destruct Hin as [Hin|[<-|[]]]; auto.
  - intros s t pk row n slot out _ [Hs Hl] _. unfold after_hooks. simpl.
    split.
    + rewrite count_events_app, count_events_runs by reflexivity.
      rewrite Z.add_0_r. exact Hs.
    + intros ev Hin. apply in_app_or in Hin.
      destruct Hin as [Hin|Hin]; [auto|].
      apply in_runs_is_run in Hin. destruct ev; try discriminate. auto.
  - intros s model pk row row' d' [Hs Hl] Hd. simpl. split.
    + rewrite count_events_app. unfold count_events at 2. simpl.
      eapply deleted_more; eassumption.
    + intros ev Hin. apply in_app_or in Hin.
      destruct Hin as [Hin|[<-|[]]]; auto.
  - intros s Hs. exact Hs.
  - apply Forall_forall. auto.
  - simpl. split; [apply deleted_none|]. intros ev [].
Qed.
End WholeCommit.

(** [commit_leaves_other_rows] on [delete(Student, 2)] with a runnable
    registered for row 1: the runnable is not called and the payload of
    row 1 stays the empty dict. *)
Lemma commit_leaves_other_rows_witness :
  let st := Sample.built
              (add_commit_runnable Sample.delete_bob
                 PRECOMMIT_DELETE_LAMBDA 1 Sample.seen_hook) in
  dict_get (commit_lambdas_data (self (fst (commit st Sample.students)))) 1
    = dict_get (commit_lambdas_data st) 1 /\
  forall t i, ~ In (EvRun t 1 i) (log (fst (commit st Sample.students))).
Proof.
  apply (@commit_leaves_other_rows MemStore _
           (Sample.built
              (add_commit_runnable Sample.delete_bob
                 PRECOMMIT_DELETE_LAMBDA 1 Sample.seen_hook))
           Sample.students 1).
  intros model cu [Heq|[]]. discriminate.
Defined.

(** * [commit] on the in-memory store *)

Lemma find_filter_none {A} (f g : A -> bool) l :
  find f l = None -> find f (filter g l) = None.
Proof.
  induction l as [|a l IH]; simpl; [reflexivity|].
  destruct (f a) eqn:Hf; [discriminate|].
  intros Hl. destruct (g a); simpl; [rewrite Hf|]; auto.
Qed.

Lemma find_filter_negb {A} (f : A -> bool) l :
  find f (filter (fun a => negb (f a)) l) = None.
Proof.
  induction l as [|a l IH]; simpl; [reflexivity|].
  destruct (f a) eqn:Hf; simpl; [|rewrite Hf]; exact IH.
Qed.

Lemma gone_iff model pk d :
  gone model pk d <-> find (same_row model pk) d = None.
Proof.
  unfold gone, mem_get, ok, raise.
  destruct (find _ d); split; congruence.
Qed.

Lemma gone_after_delete model pk row (d : MemStore) row' d' :
  gone model pk d -> mem_delete row d = inr (row', d') -> gone model pk d'.
Proof.
  unfold mem_delete. destruct (row_pk row) as [k|]; [|discriminate].
  intros Hg [= _ <-]. apply gone_iff. apply find_filter_none.
  apply gone_iff. exact Hg.
Qed.

Lemma mem_delete_removes model pk row (d : MemStore) :
  same_row model pk row = true ->
  exists row' d', mem_delete row d = inr (row', d') /\ gone model pk d'.
Proof.
  unfold same_row, mem_delete. intros Hs.
  apply andb_prop in Hs as [Hm Hk]. apply String.eqb_eq in Hm.
  destruct (row_pk row) as [k|]; [|discriminate].
  apply Z.eqb_eq in Hk. subst. do 2 eexists. split; [reflexivity|].
  apply gone_iff. apply (find_filter_negb (same_row (row_model row) pk)).
Qed.

Lemma mem_get_found model pk (d : MemStore) row :
  mem_get model pk d = inr row -> same_row model pk row = true.
Proof.
  unfold mem_get. destruct (find _ d) as [r|] eqn:Hf; [|discriminate].
  intros [= <-]. apply find_some in Hf. apply Hf.
Qed.

Lemma mem_get_raises model pk (d : MemStore) e :
  mem_get model pk d = inl e -> e = ObjectDoesNotExist.
Proof.
  unfold mem_get. destruct (find _ d); [discriminate|].
  intros [= <-]. reflexivity.
Qed.

(** Runnables that keep the identity of the row return a row with the
    model and the key of the one they were given, and none of them
    raises [ObjectDoesNotExist]. *)
Lemma run_hooks_keep_identity fns : forall slot row n slot' out,
  (forall fn, In fn fns -> keeps_row_identity fn) ->
  run_hooks fns slot row = (n, slot', out) ->
  match out with
  | inr row' => row_model row' = row_model row /\ row_pk row' = row_pk row
  | inl e => e <> ObjectDoesNotExist
  end.
Proof.
  induction fns as [|fn fns IH]; intros slot row n slot' out Hk; simpl.
  - intros [= _ _ <-]. simpl. auto.
  - destruct slot as [d|]; [|intros [= _ _ <-]; simpl; discriminate].
    pose proof (Hk fn (or_introl eq_refl) d row) as Hfn.
    destruct (fn d row) as [e|data1 row1 res].
    + intros [= _ _ <-]. exact Hfn.
    + destruct (run_hooks fns _ row1) as [[n1 slot1] out1] eqn:Hr.
      intros [= _ _ <-].
      assert (forall fn', In fn' fns -> keeps_row_identity fn') as Hk'
        by (intros fn' Hin; apply Hk; right; exact Hin).
      pose proof (IH _ _ _ _ _ Hk' Hr) as Hout.
      destruct out1 as [e|row']; [exact Hout|].
      destruct Hfn as [Hm Hp]. destruct Hout as [Hm' Hp'].
      split; congruence.
Qed.

Section GoneStaysGone.
Variables (model : Model) (pk : Z).

Lemma gone_commit_all updates :
  keeps (fun s : frame MemStore => gone model pk (db s))
    (commit_all updates).
Proof.
  apply (@fine_commit_all MemStore _ (fun _ => True)); auto.
  - intros s m k row row' d' Hs Hd. simpl.
    eapply gone_after_delete; eassumption.
  - apply Forall_forall. auto.
Qed.

(** The pending update [delete] stages, on a frame whose runnables
    before the deletion keep the identity of the row: when it is
    processed without an exception, the row is gone. *)
Lemma commit_row_marker_gone (s s' : frame MemStore) :
  (forall fn, In fn (hooks (self s) PRECOMMIT_DELETE_LAMBDA pk) ->
              keeps_row_identity fn) ->
  commit_row model (pk, [("delete_tag", VStr "X")]) s = (s', inr tt) ->
  gone model pk (db s').
Proof.
  intros Hk. unfold commit_row, try_except_ObjectDoesNotExist, row_body.
  unfold bind at 1. rewrite do_get_eq.
  change (objects_get model pk (db s)) with (mem_get model pk (db s)).
  destruct (mem_get model pk (db s)) as [e|row] eqn:Hget.
  - pose proof (mem_get_raises _ _ _ Hget) as ->.
    intros [= <-]. exact Hget.
  - pose proof (mem_get_found _ _ _ Hget) as Hsame.
    unfold bind at 1.
    rewrite commit_columns_marker by reflexivity.
    set (s0 := with_log s (log s ++ [EvGet model pk])).
    destruct (run_hooks (hooks (self s0) PRECOMMIT_DELETE_LAMBDA pk)
                (dict_get (commit_lambdas_data (self s0)) pk) row)
      as [[n1 slot1] out1] eqn:Hr1.
    pose proof (run_hooks_keep_identity _ _ _ Hk Hr1) as Hout1.
    destruct out1 as [e|row1].
    + erewrite bind_inl by (apply run_lambdas_refines; exact Hr1).
      destruct e; try discriminate. contradiction.
    + erewrite bind_inr by (apply run_lambdas_refines; exact Hr1).
      assert (same_row model pk row1 = true) as Hsame1.
      { unfold same_row in *. destruct Hout1 as [-> ->]. exact Hsame. }
      set (s1 := after_hooks s0 PRECOMMIT_DELETE_LAMBDA pk n1 slot1).
      destruct (mem_delete_removes model pk row1 (db s1) Hsame1)
        as (row2 & d2 & Hdel & Hgone).
      erewrite bind_inr by (apply do_delete_ok; exact Hdel).
      set (s2 := mkFrame (self s1) d2 (log s1 ++ [EvDelete model pk])
                   (rows_updated s1)).
      destruct (run_hooks (hooks (self s2) POSTCOMMIT_DELETE_LAMBDA pk)
                  (dict_get (commit_lambdas_data (self s2)) pk) row2)
        as [[n2 slot2] out2] eqn:Hr2.
      destruct out2 as [e|row3].
      * erewrite bind_inl by (apply run_lambdas_refines; exact Hr2).
        destruct e; intros [= <-]. exact Hgone.
      * erewrite bind_inr by (apply run_lambdas_refines; exact Hr2).
        simpl. intros [= <-]. exact Hgone.
Qed.
End GoneStaysGone.

(** X14.  On the in-memory store: when [commit] returns, a row that
    [delete] has staged is gone, provided the runnables registered for
    the row before the deletion leave its model and primary key alone
    and do not raise [ObjectDoesNotExist]. *)
Theorem commit_deletes_staged_row st (d : MemStore) model pk s n :
  In (model, (pk, [("delete_tag", VStr "X")]))
    (all_updates (update_mapping st)) ->
  (forall fn, In fn (hooks st PRECOMMIT_DELETE_LAMBDA pk) ->
              keeps_row_identity fn) ->
  commit st d = (s, inr n) ->
  mem_get model pk (db s) = inl ObjectDoesNotExist.
Proof.
  intros Hin Hk Hc.
  apply in_split in Hin as (pre & post & Hsplit).
  rewrite commit_as_all, Hsplit, commit_all_app in Hc.
  destruct (commit_all pre (mkFrame st d [] 0)) as [s1 r1] eqn:Hpre.
  pose proof (same_staged_commit_all _ _ _ Hpre) as Hst.
  destruct r1 as [e|[]]; [discriminate|].
  simpl in Hc. unfold bind in Hc.
  destruct (commit_row model (pk, [("delete_tag", VStr "X")]) s1)
    as [s2 r2] eqn:Hrow.
  destruct r2 as [e|[]]; [discriminate|].
  assert (gone model pk (db s2)) as Hgone.
  { eapply commit_row_marker_gone; [|exact Hrow].
    intros fn Hfn. apply Hk.
    rewrite (hooks_same_staged _ _ Hst) in Hfn. exact Hfn. }
  pose proof (@gone_commit_all model pk post s2 Hgone) as Hrest.
  destruct (commit_all post s2) as [s3 [e|[]]]; [discriminate|].
  injection Hc as <- _. exact Hrest.
Qed.

Lemma commit_deletes_staged_row_witness :
  mem_get "Student" 2
    (db (fst (commit Sample.delete_bob_hooked Sample.students)))
  = inl ObjectDoesNotExist.
Proof.
  apply (@commit_deletes_staged_row Sample.delete_bob_hooked
           Sample.students "Student" 2
           (fst (commit Sample.delete_bob_hooked Sample.students)) 1).
  - simpl. left. reflexivity.
  - intros fn [<-|[]] data row. simpl. auto.
  - reflexivity.
Defined.

(** * The exporters *)

Lemma nth_error_map_some {A B} (f : A -> B) l i a :
  nth_error l i = Some a -> nth_error (map f l) i = Some (f a).
Proof. intros Hn. rewrite nth_error_map, Hn. reflexivity. Qed.

Lemma nth_error_same_length {A B} (l1 : list A) (l2 : list B) i a :
  List.length l1 = List.length l2 ->
  nth_error l1 i = Some a -> exists b, nth_error l2 i = Some b.
Proof.
  intros Hlen Hn.
  destruct (nth_error l2 i) as [b|] eqn:Hb; [eauto|].
  apply nth_error_None in Hb.
  assert (i < List.length l1)%nat by (apply nth_error_Some; congruence).
  lia.
Qed.

Lemma display_headers_length columns :
  List.length (all_display_headers columns)
  = List.length (all_columns columns).
Proof.
  unfold all_display_headers, all_columns, dict_keys.
  rewrite !length_map. reflexivity.
Qed.

(** X15.  What [CSVExporter.export] writes: the information rows, then
    the display headers, then one row per exported row.  In a table
    whose headers are distinct (and no column without inserter has a
    header ending in [*]), the cell under a header is the value
    [_get_row_value] gives for the column that [column_name] resolves
    this header to. *)
Theorem csv_cell_under_header columns info_rows data i row j h :
  NoDup (all_headers columns) ->
  Forall (fun kc => is_modifiable (snd kc) = false ->
                    endswith (header (snd kc)) "*" = false) columns ->
  nth_error data i = Some row ->
  nth_error (_get_headers columns) j = Some h ->
  let out := CSVExporter_export columns info_rows data in
  firstn (List.length info_rows) out = info_rows /\
  nth_error out (List.length info_rows)
    = Some (map VStr (_get_headers columns)) /\
  exists key cells,
    column_name columns h = inr key /\
    nth_error out (List.length info_rows + 1 + i) = Some cells /\
    List.length cells = List.length (_get_headers columns) /\
    nth_error cells j = Some (_get_row_value columns row key).
Proof.
  intros Hnd Hstar Hrow Hh out. subst out. unfold CSVExporter_export.
  split; [|split].
  - rewrite firstn_app, Nat.sub_diag, firstn_all. simpl.
    apply app_nil_r.
  - rewrite nth_error_app2, Nat.sub_diag by lia. reflexivity.
  - unfold _get_headers in *.
    destruct (nth_error_same_length _ (all_columns columns) _
                (display_headers_length columns) Hh) as [key Hkey].
    exists key. eexists. split; [|split; [|split]].
    + unfold column_name. eapply display_header_at; eassumption.
    + rewrite nth_error_app2 by lia.
      replace (List.length info_rows + 1 + i - List.length info_rows)%nat
        with (S i) by lia.
      simpl. apply nth_error_map_some. exact Hrow.
    + rewrite length_map. symmetry. apply display_headers_length.
    + apply nth_error_map_some with (f := _get_row_value columns row).
      exact Hkey.
Qed.

(** [csv_cell_under_header] on the sample table: the cell of Bob under
    [First Name]. *)
Lemma csv_cell_under_header_witness :
  let out := CSVExporter_export Sample.student_columns
               [[VStr "Students"]] Sample.students in
  firstn 1 out = [[VStr "Students"]] /\
  nth_error out 1
    = Some (map VStr (_get_headers Sample.student_columns)) /\
  exists key cells,
    column_name Sample.student_columns "First Name" = inr key /\
    nth_error out 3 = Some cells /\
    List.length cells
      = List.length (_get_headers Sample.student_columns) /\
    nth_error cells 1
      = Some (_get_row_value Sample.student_columns Sample.bob key).
Proof.
  apply (@csv_cell_under_header Sample.student_columns
           [[VStr "Students"]] Sample.students 1 Sample.bob 1 "First Name").
  - repeat constructor; simpl; intuition discriminate.
  - repeat constructor; simpl; intros; try reflexivity; discriminate.
  - reflexivity.
  - reflexivity.
Defined.

Lemma write_rows_app rows1 : forall cur_row rows2,
  write_rows cur_row (rows1 ++ rows2) =
  write_rows cur_row rows1 ++
  write_rows (cur_row + Z.of_nat (List.length rows1)) rows2.
Proof.
  induction rows1 as [|cells rows1 IH]; intros cur_row rows2; simpl.
  - rewrite Z.add_0_r. reflexivity.
  - rewrite IH, <- app_assoc. do 3 f_equal. lia.
Qed.

Lemma filter_write_cells cur_row cells : forall col,
  filter is_write (write_cells cur_row col cells)
  = write_cells cur_row col cells.
Proof.
  induction cells as [|v cells IH]; intros col; simpl; [reflexivity|].
  rewrite IH. reflexivity.
Qed.

Lemma filter_write_rows rows : forall cur_row,
  filter is_write (write_rows cur_row rows) = write_rows cur_row rows.
Proof.
  induction rows as [|cells rows IH]; intros cur_row; simpl; [reflexivity|].
  rewrite filter_app, filter_write_cells, IH. reflexivity.
Qed.

(** X16.  The two exporters write the same table: the cells
    [ExcelExporter.export] writes, in order, are the rows
    [CSVExporter.export] writes, one worksheet row per CSV row from row 0
    on, each cell in the column of its position. *)
Theorem excel_writes_csv_rows columns info_rows data :
  filter is_write (ExcelExporter_export columns info_rows data)
  = write_rows 0 (CSVExporter_export columns info_rows data).
Proof.
  unfold ExcelExporter_export, CSVExporter_export.
  rewrite !write_rows_app. simpl.
  rewrite !filter_app. simpl.
  rewrite !filter_write_rows, filter_write_cells.
  rewrite app_nil_r. reflexivity.
Qed.

Lemma write_cells_within first_row last_row last_col cur_row cells :
  first_row <= cur_row <= last_row ->
  forall col,
  0 <= col ->
  col + Z.of_nat (List.length cells) - 1 <= last_col ->
  Forall (write_within first_row 0 last_row last_col)
    (write_cells cur_row col cells).
Proof.
  intros Hrow. induction cells as [|v cells IH]; intros col Hc Hlast; simpl.
  - constructor.
  - simpl List.length in Hlast. constructor.
    + simpl. lia.
    + apply IH; lia.
Qed.

Lemma write_rows_within first_row last_row last_col width rows :
  Forall (fun cells => Z.of_nat (List.length cells) = width) rows ->
  width - 1 <= last_col ->
  forall cur_row,
  first_row <= cur_row ->
  cur_row + Z.of_nat (List.length rows) - 1 <= last_row ->
  Forall (write_within first_row 0 last_row last_col)
    (write_rows cur_row rows).
Proof.
  intros Hw Hlast. induction Hw as [|cells rows Hcells _ IH];
    intros cur_row Hfirst Hend; simpl.
  - constructor.
  - simpl List.length in Hend. apply Forall_app. split.
    + apply write_cells_within; lia.
    + apply IH; lia.
Qed.

Lemma write_cells_row cur_row cells : forall col c row,
  In c (write_cells cur_row col cells) -> write_row c = Some row ->
  row = cur_row.
Proof.
  induction cells as [|v cells IH]; intros col c row; simpl; [intros []|].
  intros [<-|Hin] Hrow; [simpl in Hrow; congruence|eauto].
Qed.

Lemma write_rows_above rows : forall cur_row c row,
  In c (write_rows cur_row rows) -> write_row c = Some row ->
  cur_row <= row < cur_row + Z.of_nat (List.length rows).
Proof.
  induction rows as [|cells rows IH]; intros cur_row c row; simpl;
    [intros []|].
  intros Hin Hrow. apply in_app_or in Hin. destruct Hin as [Hin|Hin].
  - rewrite (write_cells_row _ _ _ _ Hin Hrow). lia.
  - specialize (IH _ _ _ Hin Hrow). lia.
Qed.

(** X17.  [ExcelExporter.export] declares one table, from the header
    row down to the last exported row and as wide as the headers, and
    every cell it writes from the header row on lies inside that table;
    the cells above it are those of the information rows. *)
Theorem excel_cells_inside_table columns info_rows data :
  let first_row := Z.of_nat (List.length info_rows) in
  let last_row := Z.of_nat (List.length data) + first_row in
  let last_col := Z.of_nat (List.length (_get_headers columns)) - 1 in
  let calls := ExcelExporter_export columns info_rows data in
  filter (fun c => negb (is_write c)) calls
    = [xl_set_column 0 0;
       xl_add_table first_row 0 last_row last_col (_get_headers columns)] /\
  forall c row,
    In c calls -> write_row c = Some row ->
    if row <? first_row
    then In c (write_rows 0 info_rows)
    else write_within first_row 0 last_row last_col c.
Proof.
  intros first_row last_row last_col calls. subst calls.
  unfold ExcelExporter_export. fold first_row. split.
  - simpl. rewrite !filter_app. simpl.
    assert (forall l, filter is_write l = l ->
                      filter (fun c => negb (is_write c)) l = []) as Hnone.
    { intros l. induction l as [|c l IH]; simpl; [reflexivity|].
      destruct (is_write c); simpl; [intros [= Hl]; auto|].
      intros Hl.
      assert (List.length (filter is_write l) <= List.length l)%nat
        by apply filter_length_le.
      rewrite Hl in *. simpl in *. lia. }
    rewrite !Hnone
      by (apply filter_write_rows || apply filter_write_cells).
    reflexivity.
  - intros c row Hin Hrow.
    apply in_app_or in Hin. destruct Hin as [[<-|[]]|Hin]; [discriminate|].
    apply in_app_or in Hin. destruct Hin as [Hin|Hin].
    { pose proof (write_rows_above _ _ _ Hin Hrow) as Hr.
      destruct (Z.ltb_spec row first_row); [exact Hin|].
      unfold first_row in *. lia. }
    assert (write_within first_row 0 last_row last_col c /\
            first_row <= row) as [Hw Hge].
    { apply in_app_or in Hin. destruct Hin as [Hin|Hin].
      - split.
        + assert (Forall (write_within first_row 0 last_row last_col)
                    (write_cells first_row 0
                       (map VStr (_get_headers columns)))) as Hall.
          { apply write_cells_within; unfold last_row, last_col; try lia.
            rewrite length_map. lia. }
          rewrite Forall_forall in Hall. apply Hall. exact Hin.
        + rewrite (write_cells_row _ _ _ _ Hin Hrow). lia.
      - apply in_app_or in Hin. destruct Hin as [[<-|[]]|Hin];
          [discriminate|]. split.
        + assert (Forall (write_within first_row 0 last_row last_col)
                    (write_rows (first_row + 1)
                       (map (fun r =>
                               map (fun key => _get_row_value columns r key)
                                 (all_columns columns)) data))) as Hall.
          { apply write_rows_within
              with (width := Z.of_nat (List.length (all_columns columns))).
            - apply Forall_forall. intros cells Hc.
              apply in_map_iff in Hc as (r & <- & _).
              rewrite length_map. reflexivity.
            - unfold last_col, _get_headers.
              rewrite display_headers_length. lia.
            - lia.
            - rewrite length_map. unfold last_row. lia. }
          rewrite Forall_forall in Hall. apply Hall. exact Hin.
        + pose proof (write_rows_above _ _ _ Hin Hrow). lia. }
    destruct (Z.ltb_spec row first_row); [lia|exact Hw].
Qed.

(** * The CSV importer *)

Lemma dict_set_fresh {V} (d : dict string V) k v :
  ~ In k (dict_keys d) -> dict_set d k v = d ++ [(k, v)].
Proof.
  induction d as [|[k0 v0] d IH]; simpl; intros Hn; [reflexivity|].
  destruct (String.eqb_spec k0 k) as [->|Hne]; [tauto|].
  rewrite IH by tauto. reflexivity.
Qed.

Lemma combine_snoc {A B} (l1 : list A) : forall (l2 : list B) a b,
  List.length l1 = List.length l2 ->
  combine (l1 ++ [a]) (l2 ++ [b]) = combine l1 l2 ++ [(a, b)].
Proof.
  induction l1 as [|x l1 IH]; intros [|y l2] a b; simpl; try discriminate.
  - reflexivity.
  - intros [= Hlen]. rewrite IH by assumption. reflexivity.
Qed.

Lemma positions_S n : positions (S n) = positions n ++ [Z.of_nat n].
Proof. unfold positions. rewrite seq_S, map_app. reflexivity. Qed.

Lemma positions_length n : List.length (positions n) = n.
Proof. unfold positions. rewrite length_map, length_seq. reflexivity. Qed.

Section ImportFacts.
Variable columns : dict string Column.
Variable header_count : Z.
Variable int : string -> result Z.

Local Abbreviation rows_from := (import_rows columns header_count int).
Local Abbreviation fresh_from := (import_rows_fresh columns header_count int).
Local Abbreviation cells := (import_cells columns int).

Lemma import_rows_skip info : forall row_count rest key_lookup db_id tu,
  0 <= row_count ->
  row_count + Z.of_nat (List.length info) = header_count ->
  rows_from row_count (info ++ rest) key_lookup db_id tu
  = rows_from header_count rest key_lookup db_id tu.
Proof.
  induction info as [|row info IH]; intros rc rest kl db tu Hrc Hlen.
  - simpl in *. replace rc with header_count by lia. reflexivity.
  - simpl List.length in Hlen. simpl.
    destruct (Z.ltb_spec rc header_count); [|lia].
    apply IH; lia.
Qed.

Lemma import_rows_header row rest key_lookup db_id tu :
  rows_from header_count (row :: rest) key_lookup db_id tu
  = rows_from (header_count + 1) rest
      (read_headers columns key_lookup 0 row) db_id tu.
Proof. simpl. rewrite Z.ltb_irrefl, Z.eqb_refl. reflexivity. Qed.

Lemma import_rows_data row_count row rest key_lookup db_id tu :
  header_count < row_count ->
  rows_from row_count (row :: rest) key_lookup db_id tu
  = match import_row columns int key_lookup row db_id tu with
    | inr r => rows_from (row_count + 1) rest key_lookup (fst r) (snd r)
    | inl e => inl e
    end.
Proof.
  intros Hrc. simpl.
  destruct (Z.ltb_spec row_count header_count); [lia|].
  destruct (Z.eqb_spec row_count header_count); [lia|].
  reflexivity.
Qed.

(** The header row the exporters write is read back as the keys of the
    table, each at its position. *)
Lemma read_exported_headers :
  NoDup (all_headers columns) ->
  Forall (fun kc => is_modifiable (snd kc) = false ->
                    endswith (header (snd kc)) "*" = false) columns ->
  NoDup (all_columns columns) ->
  read_headers columns [] 0 (_get_headers columns)
  = combine (all_columns columns) (positions (List.length columns)).
Proof.
  intros Hh Hstar Hk.
  assert (forall after before,
            columns = before ++ after ->
            read_headers columns
              (combine (all_columns before)
                 (positions (List.length before)))
              (Z.of_nat (List.length before))
              (all_display_headers after)
            = combine (all_columns columns)
                (positions (List.length columns))) as Hgen.
  { induction after as [|[k c] after IH]; intros before Hcols.
    - simpl. rewrite app_nil_r in Hcols. subst before. reflexivity.
    - cbn [all_display_headers map read_headers].
      change (map _ after) with (all_display_headers after).
      set (h := if is_modifiable (snd (k, c))
                then (header (snd (k, c)) ++ "*")%string
                else header (snd (k, c))).
      assert (column_name columns h = inr k) as ->.
      { unfold column_name.
        apply display_header_at with (i := List.length before);
          try assumption.
        - rewrite Hcols. unfold all_display_headers.
          rewrite map_app, nth_error_app2 by (rewrite length_map; lia).
          rewrite length_map, Nat.sub_diag. reflexivity.
        - rewrite Hcols. unfold all_columns, dict_keys.
          rewrite map_app, nth_error_app2 by (rewrite length_map; lia).
          rewrite length_map, Nat.sub_diag. reflexivity. }
      assert (~ In k (dict_keys
                        (combine (all_columns before)
                           (positions (List.length before))))) as Hfresh.
      { unfold dict_keys. intros Hin.
        apply in_map_iff in Hin as ([k' p] & Hk' & Hin). simpl in Hk'.
        subst k'. apply in_combine_l in Hin.
        rewrite Hcols in Hk. unfold all_columns, dict_keys in Hk, Hin.
        rewrite map_app in Hk. simpl in Hk.
        apply NoDup_remove_2 in Hk. apply Hk, in_or_app. left. exact Hin. }
      rewrite dict_set_fresh by exact Hfresh.
      specialize (IH (before ++ [(k, c)])).
      rewrite <- app_assoc in IH. specialize (IH Hcols).
      rewrite length_app in IH. simpl List.length in IH.
      rewrite Nat.add_1_r, positions_S in IH.
      replace (all_columns (before ++ [(k, c)]))
        with (all_columns before ++ [k]) in IH
        by (unfold all_columns, dict_keys; rewrite map_app; reflexivity).
      rewrite combine_snoc in IH
        by (unfold all_columns, dict_keys;
            rewrite length_map, positions_length; reflexivity).
      replace (Z.of_nat (List.length before) + 1)
        with (Z.of_nat (S (List.length before))) by lia.
      exact IH. }
  exact (Hgen columns [] eq_refl).
Qed.

(** Once [id] comes first, the value [db_id] had before the row does not
    matter. *)
Lemma import_cells_sets_id items row tu : forall db1 db2,
  reads_db_id items = false ->
  match cells items row db1 tu, cells items row db2 tu with
  | inr r1, inr r2 =>
      snd r1 = snd r2 /\ (fst r1 = fst r2 \/ (fst r1 = db1 /\ fst r2 = db2))
  | inl e1, inl e2 => e1 = e2
  | _, _ => False
  end.
Proof.
  revert tu. induction items as [|[key idx] items IH]; intros tu db1 db2;
    simpl.
  - auto.
  - destruct (String.eqb key "id").
    + intros _. unfold rbind.
      destruct (list_getitem row idx) as [e|cell]; [reflexivity|].
      destruct (int cell) as [e|n]; [reflexivity|].
      destruct (cells items row (Some n) tu) as [e|r]; auto.
    + destruct (String.eqb key "delete_tag"); [|discriminate].
      intros Hr. apply IH. exact Hr.
Qed.

Lemma import_cells_unbound items row tu :
  reads_db_id items = true -> cells items row None tu = inl NameError.
Proof.
  induction items as [|[key idx] items IH]; simpl; [discriminate|].
  destruct (String.eqb key "id"); [discriminate|].
  destruct (String.eqb key "delete_tag"); [exact IH|reflexivity].
Qed.

(** A data row that is imported from an unbound [db_id] is imported the
    same way from any [db_id]. *)
Lemma import_row_from_unbound key_lookup row tu db r :
  import_row columns int key_lookup row None tu = inr r ->
  exists r',
    import_row columns int key_lookup row db tu = inr r' /\ snd r' = snd r.
Proof.
  unfold import_row, rbind.
  destruct (marked_for_deletion key_lookup row) as [e|[|]]; [discriminate| |].
  - destruct (dict_getitem key_lookup "id") as [e|idx]; [discriminate|].
    destruct (list_getitem row idx) as [e|cell]; [discriminate|].
    destruct (int cell) as [e|dbid]; [discriminate|].
    destruct (insert columns tu dbid "delete_tag" (VStr "X")) as [e|tu'];
      [discriminate|].
    intros [= <-]. eexists. split; reflexivity.
  - intros Hc.
    destruct (reads_db_id key_lookup) eqn:Hreads.
    + rewrite (import_cells_unbound _ _ _ Hreads) in Hc. discriminate.
    + pose proof (import_cells_sets_id key_lookup row tu db None Hreads)
        as Hsame.
      rewrite Hc in Hsame.
      destruct (cells key_lookup row db tu) as [e|r']; [contradiction|].
      exists r'. split; [reflexivity|apply Hsame].
Qed.

(** A data row that is imported from a [db_id] left by an earlier row --
    which the key order of [key_lookup] then never reads -- is imported
    the same way from an unbound one. *)
Lemma import_row_to_unbound key_lookup row tu db r :
  db = None \/ reads_db_id key_lookup = false ->
  import_row columns int key_lookup row db tu = inr r ->
  (fst r = None \/ reads_db_id key_lookup = false) /\
  exists r',
    import_row columns int key_lookup row None tu = inr r' /\
    snd r' = snd r.
Proof.
  intros Hinv. unfold import_row, rbind.
  destruct (marked_for_deletion key_lookup row) as [e|[|]]; [discriminate| |].
  - destruct (dict_getitem key_lookup "id") as [e|idx]; [discriminate|].
    destruct (list_getitem row idx) as [e|cell]; [discriminate|].
    destruct (int cell) as [e|dbid]; [discriminate|].
    destruct (insert columns tu dbid "delete_tag" (VStr "X")) as [e|tu'];
      [discriminate|].
    intros [= <-]. simpl. split; [exact Hinv|].
    eexists. split; reflexivity.
  - intros Hc.
    destruct (reads_db_id key_lookup) eqn:Hreads.
    + destruct Hinv as [->|?]; [|discriminate].
      rewrite (import_cells_unbound _ _ _ Hreads) in Hc. discriminate.
    + split; [right; reflexivity|].
      pose proof (import_cells_sets_id key_lookup row tu db None Hreads)
        as Hsame.
      rewrite Hc in Hsame.
      destruct (cells key_lookup row None tu) as [e|r']; [contradiction|].
      exists r'. split; [reflexivity|symmetry; apply Hsame].
Qed.

Lemma import_rows_to_fresh rows : forall row_count key_lookup db tu tu',
  db = None \/ (header_count < row_count /\ reads_db_id key_lookup = false) ->
  rows_from row_count rows key_lookup db tu = inr tu' ->
  fresh_from row_count rows key_lookup tu = inr tu'.
Proof.
  induction rows as [|row rows IH]; intros rc kl db tu tu' Hinv; simpl.
  - auto.
  - destruct (Z.ltb_spec rc header_count).
    { apply IH. destruct Hinv as [?|[? _]]; [left; assumption|lia]. }
    destruct (Z.eqb_spec rc header_count).
    { apply IH. destruct Hinv as [?|[? _]]; [left; assumption|lia]. }
    unfold rbind.
    destruct (import_row columns int kl row db tu) as [e|r] eqn:Hrow;
      [discriminate|].
    assert (db = None \/ reads_db_id kl = false) as Hinv'
      by (destruct Hinv as [?|[_ ?]]; auto).
    destruct (import_row_to_unbound _ _ _ Hinv' Hrow)
      as (Hnext & r' & -> & ->).
    apply IH. destruct Hnext; [left; assumption|right; split; [lia|assumption]].
Qed.

Lemma import_rows_of_fresh rows : forall row_count key_lookup db tu tu',
  fresh_from row_count rows key_lookup tu = inr tu' ->
  rows_from row_count rows key_lookup db tu = inr tu'.
Proof.
  induction rows as [|row rows IH]; intros rc kl db tu tu'; simpl.
  - auto.
  - destruct (rc <? header_count); [apply IH|].
    destruct (rc =? header_count); [apply IH|].
    unfold rbind.
    destruct (import_row columns int kl row None tu) as [e|r] eqn:Hrow;
      [discriminate|].
    destruct (import_row_from_unbound _ _ _ db Hrow) as (r' & -> & ->).
    apply IH.
Qed.
End ImportFacts.

(** X18.  The importer skips the information rows and reads the header
    row that the exporters write back as the columns of the table: in a
    table with distinct keys and distinct headers (and no column without
    inserter whose header ends in [*]), the lookup it builds holds each
    column key with its position, in the order of the table. *)
Theorem import_reads_exported_headers columns int info body tu :
  NoDup (all_headers columns) ->
  Forall (fun kc => is_modifiable (snd kc) = false ->
                    endswith (header (snd kc)) "*" = false) columns ->
  NoDup (all_columns columns) ->
  let header_count := Z.of_nat (List.length info) in
  import_rows columns header_count int 0
    (info ++ _get_headers columns :: body) [] None tu
  = import_rows columns header_count int (header_count + 1) body
      (combine (all_columns columns) (positions (List.length columns)))
      None tu.
Proof.
  intros Hh Hstar Hk header_count.
  rewrite import_rows_skip by (unfold header_count; lia).
  rewrite import_rows_header, read_exported_headers by assumption.
  reflexivity.
Qed.

(** X19.  The local variable [db_id] of [CSVImporter.import_data] keeps
    its value from one row to the next, but no import that returns has
    ever used the value of an earlier row: the rows are staged exactly as
    they are when every row starts with [db_id] unbound. *)
Theorem import_ids_do_not_leak columns header_count int rows tu tu' :
  import_rows columns header_count int 0 rows [] None tu = inr tu' <->
  import_rows_fresh columns header_count int 0 rows [] tu = inr tu'.
Proof.
  split.
  - apply import_rows_to_fresh. left. reflexivity.
  - apply import_rows_of_fresh.
Qed.

Lemma import_reads_exported_headers_witness :
  import_rows Sample.student_columns 1 int_of_digits 0
    ([["Students"]] ++ _get_headers Sample.student_columns
       :: [["2"; "Bob"; ""; "X"]]) [] None init
  = import_rows Sample.student_columns 1 int_of_digits (1 + 1)
      [["2"; "Bob"; ""; "X"]]
      (combine (all_columns Sample.student_columns) (positions 4))
      None init.
Proof.
  apply (@import_reads_exported_headers Sample.student_columns
           int_of_digits [["Students"]] [["2"; "Bob"; ""; "X"]] init).
  - repeat constructor; simpl; intuition discriminate.
  - repeat constructor; simpl; intros; try reflexivity; discriminate.
  - repeat constructor; simpl; intuition discriminate.
Defined.

(** * From a file of deletions to the store *)

Lemma all_updates_set_append um : forall model uv (u : PendingRowUpdate) x,
  dict_get um model = Some uv ->
  In x (all_updates (dict_set um model (uv ++ [u]))) <->
  In x (all_updates um) \/ x = (model, u).
Proof.
  induction um as [|[m l] um IH]; intros model uv u x; simpl;
    [discriminate|].
  destruct (String.eqb_spec m model) as [->|Hne].
  - intros [= ->]. unfold all_updates. simpl.
    rewrite map_app, !in_app_iff. simpl. intuition.
  - intros Hg. unfold all_updates in *. simpl.
    rewrite !in_app_iff, (IH _ _ u x Hg). intuition.
Qed.

Lemma all_updates_set_new um : forall model (u : PendingRowUpdate) x,
  dict_get um model = None ->
  In x (all_updates (dict_set um model [u])) <->
  In x (all_updates um) \/ x = (model, u).
Proof.
  induction um as [|[m l] um IH]; intros model u x; simpl.
  - intros _. unfold all_updates. simpl. intuition.
  - destruct (String.eqb_spec m model) as [->|Hne]; [discriminate|].
    intros Hg. unfold all_updates in *. simpl.
    rewrite !in_app_iff, (IH _ u x Hg). intuition.
Qed.

(** [delete] adds one pending update, the marker for the row, and keeps
    the others. *)
Lemma all_updates_delete st model pk kw st' x :
  delete st model pk kw = inr st' ->
  In x (all_updates (update_mapping st')) <->
  In x (all_updates (update_mapping st)) \/
  x = (model, (pk, [("delete_tag", VStr "X")])).
Proof.
  unfold delete, dict_mem, dict_getitem.
  destruct (dict_get (update_mapping st) model) as [uv|] eqn:Hget; simpl.
  - intros [= <-]. simpl. apply all_updates_set_append. exact Hget.
  - intros [= <-]. simpl. apply all_updates_set_new. exact Hget.
Qed.

Lemma hooks_none st t pk : commit_lambdas st = [] -> hooks st t pk = [].
Proof. intros Hcl. unfold hooks. rewrite Hcl. reflexivity. Qed.

(** Without runnables, the pending update [delete] stages is processed
    without an exception and leaves the row gone. *)
Lemma commit_row_marker_returns model pk (s : frame MemStore) :
  commit_lambdas (self s) = [] ->
  exists s',
    commit_row model (pk, [("delete_tag", VStr "X")]) s = (s', inr tt) /\
    gone model pk (db s') /\
    commit_lambdas (self s') = [].
Proof.
  intros Hcl. unfold commit_row, try_except_ObjectDoesNotExist, row_body.
  unfold bind at 1. rewrite do_get_eq.
  change (objects_get model pk (db s)) with (mem_get model pk (db s)).
  destruct (mem_get model pk (db s)) as [e|row] eqn:Hget.
  - pose proof (mem_get_raises _ _ _ Hget) as ->.
    eexists. split; [reflexivity|]. split; assumption.
  - pose proof (mem_get_found _ _ _ Hget) as Hsame.
    unfold bind at 1.
    rewrite commit_columns_marker by reflexivity.
    set (s0 := with_log s (log s ++ [EvGet model pk])).
    assert (run_hooks (hooks (self s0) PRECOMMIT_DELETE_LAMBDA pk)
              (dict_get (commit_lambdas_data (self s0)) pk) row
            = (O, dict_get (commit_lambdas_data (self s0)) pk, inr row))
      as Hr1 by (rewrite hooks_none by exact Hcl; reflexivity).
    erewrite bind_inr by (apply run_lambdas_refines; exact Hr1).
    set (s1 := after_hooks s0 PRECOMMIT_DELETE_LAMBDA pk 0 _).
    destruct (mem_delete_removes model pk row (db s1) Hsame)
      as (row2 & d2 & Hdel & Hgone).
    erewrite bind_inr by (apply do_delete_ok; exact Hdel).
    set (s2 := mkFrame (self s1) d2 (log s1 ++ [EvDelete model pk])
                 (rows_updated s1)).
    assert (commit_lambdas (self s2) = []) as Hcl2.
    { subst s2 s1 s0. unfold after_hooks. simpl.
      destruct (dict_get _ pk); exact Hcl. }
    assert (run_hooks (hooks (self s2) POSTCOMMIT_DELETE_LAMBDA pk)
              (dict_get (commit_lambdas_data (self s2)) pk) row2
            = (O, dict_get (commit_lambdas_data (self s2)) pk, inr row2))
      as Hr2 by (rewrite hooks_none by exact Hcl2; reflexivity).
    erewrite bind_inr by (apply run_lambdas_refines; exact Hr2).
    simpl. eexists. split; [reflexivity|]. simpl. split; [exact Hgone|].
    destruct (dict_get _ pk); exact Hcl.
Qed.

Lemma commit_all_deletions updates : forall s : frame MemStore,
  Forall (fun mu => snd (snd mu) = [("delete_tag", VStr "X")]) updates ->
  commit_lambdas (self s) = [] ->
  exists s',
    commit_all updates s = (s', inr tt) /\
    forall model pk cu, In (model, (pk, cu)) updates -> gone model pk (db s').
Proof.
  induction updates as [|[model [pk cu]] updates IH]; intros s Hall Hcl.
  - exists s. split; [reflexivity|]. intros model pk cu [].
  - inversion Hall as [|x l Hcu Hrest]; subst. simpl in Hcu. subst cu.
    destruct (commit_row_marker_returns model pk s Hcl)
      as (s1 & Hrow & Hgone & Hcl1).
    destruct (IH s1 Hrest Hcl1) as (s' & Hc & Hall').
    exists s'. simpl. unfold bind. rewrite Hrow. split; [exact Hc|].
    intros model' pk' cu' [[= <- <- <-]|Hin].
    + pose proof (@gone_commit_all model pk updates s1 Hgone) as Hk.
      rewrite Hc in Hk. exact Hk.
    + eapply Hall'. exact Hin.
Qed.

Section ImportDeletions.
Variable columns : dict string Column.
Variable header_count : Z.
Variable int : string -> result Z.
Variable model : Model.
Variable column_def : Column.
Variable inserter_def : AdapterStaging -> Z -> value -> result AdapterStaging.
Hypothesis delete_tag_column :
  dict_get columns "delete_tag" = Some column_def.
Hypothesis delete_tag_inserter : inserter column_def = Some inserter_def.
Hypothesis inserter_deletes : forall st pk v,
  inserter_def st pk v = delete st model pk [].

Lemma insert_delete_tag tu dbid v :
  insert columns tu dbid "delete_tag" v = delete tu model dbid [].
Proof.
  unfold insert, _get_column, dict_getitem. rewrite delete_tag_column.
  simpl. unfold is_modifiable. rewrite delete_tag_inserter. simpl.
  apply inserter_deletes.
Qed.

Lemma import_row_marked key_lookup row pk db tu :
  marks_row int key_lookup row pk ->
  exists tu',
    import_row columns int key_lookup row db tu = inr (db, tu') /\
    delete tu model pk [] = inr tu'.
Proof.
  intros (i_del & i_id & mark & cell & Hdel & Hmark & HX & Hid & Hcell & Hint).
  destruct (delete_spec tu model pk []) as (tu' & Hd & _).
  exists tu'. split; [|exact Hd].
  unfold import_row, marked_for_deletion, dict_mem, dict_getitem, rbind.
  rewrite Hdel. simpl. rewrite Hmark. simpl. rewrite HX, Hid. simpl.
  rewrite Hcell, Hint, insert_delete_tag, Hd. reflexivity.
Qed.

Lemma import_rows_marked body : forall ids row_count key_lookup db tu,
  header_count < row_count ->
  Forall2 (marks_row int key_lookup) body ids ->
  exists tu',
    import_rows columns header_count int row_count body key_lookup db tu
      = inr tu' /\
    commit_lambdas tu' = commit_lambdas tu /\
    forall x,
      In x (all_updates (update_mapping tu')) <->
      In x (all_updates (update_mapping tu)) \/
      exists pk, In pk ids /\ x = (model, (pk, [("delete_tag", VStr "X")])).
Proof.
  induction body as [|row body IH]; intros ids rc kl db tu Hrc Hmarks.
  - inversion Hmarks; subst. exists tu. simpl. repeat split; auto.
    intros [?|(pk & [] & _)]. assumption.
  - inversion Hmarks as [|r pk b ids' Hrow Hrest]; subst.
    destruct (import_row_marked db tu Hrow) as (tu1 & Himp & Hdel).
    destruct (delete_appends_marker_frame tu model pk [])
      as (tu1' & Hdel' & Hcl1 & _).
    rewrite Hdel in Hdel'. injection Hdel' as <-.
    destruct (IH ids' (rc + 1) kl db tu1) as (tu' & Hrows & Hcl' & Hin');
      [lia|exact Hrest|].
    exists tu'. rewrite import_rows_data, Himp by exact Hrc. simpl.
    split; [exact Hrows|]. split; [congruence|].
    intros x. rewrite Hin', (all_updates_delete _ _ _ _ x Hdel).
    split.
    + intros [[Hx| ->]|(pk' & Hpk' & ->)]; eauto.
    + intros [Hx|(pk' & [<-|Hpk'] & ->)]; eauto.
Qed.

(** X20.  For a table whose [delete_tag] column stages a deletion, as in
    the example adapter: the import of a file in which every data row is
    marked for deletion, through a new importer and on the in-memory
    store, returns, and afterwards none of the rows the file names is in
    the store. *)
Theorem import_deletes_marked_rows info header body ids (d : MemStore) :
  header_count = Z.of_nat (List.length info) ->
  Forall2 (marks_row int (read_headers columns [] 0 header)) body ids ->
  exists s n,
    CSVImporter_import_data columns header_count int
      (info ++ header :: body) init d = inr (s, inr n) /\
    forall pk, In pk ids ->
      mem_get model pk (db s) = inl ObjectDoesNotExist.
Proof.
  intros Hcount Hmarks.
  destruct (@import_rows_marked body ids (header_count + 1)
              (read_headers columns [] 0 header) None init
              ltac:(lia) Hmarks) as (tu' & Hrows & Hcl & Hin).
  destruct (@commit_all_deletions (all_updates (update_mapping tu'))
              (mkFrame tu' d [] 0)) as (s & Hc & Hgone).
  { apply Forall_forall. intros x Hx. apply Hin in Hx.
    destruct Hx as [[]|(pk & _ & ->)]. reflexivity. }
  { exact Hcl. }
  exists s, (rows_updated s). split.
  - unfold CSVImporter_import_data, rbind.
    rewrite import_rows_skip, import_rows_header by lia.
    rewrite Hrows. unfold ok. rewrite commit_as_all, Hc. reflexivity.
  - intros pk Hpk. eapply Hgone. apply Hin. right. eauto.
Qed.
End ImportDeletions.

(** [import_deletes_marked_rows] on the sample table: a file with one
    information row, the exported headers and the row of Bob, marked
    with a lower-case [x]. *)
Lemma import_deletes_marked_rows_witness :
  exists s n,
    CSVImporter_import_data Sample.student_columns 1 int_of_digits
      ([["Students"]] ++ _get_headers Sample.student_columns
         :: [["2"; "Bob"; ""; "x"]]) init Sample.students
    = inr (s, inr n) /\
    forall pk, In pk [2] ->
      mem_get "Student" pk (db s) = inl ObjectDoesNotExist.
Proof.
  apply (@import_deletes_marked_rows Sample.student_columns 1 int_of_digits
           "Student"
           (mkColumn "Deletion Tag" None
              (Some (fun st pk _ => delete st Sample.Student pk [])))
           (fun st pk _ => delete st Sample.Student pk [])
           eq_refl eq_refl (fun _ _ _ => eq_refl)
           [["Students"]] (_get_headers Sample.student_columns)
           [["2"; "Bob"; ""; "x"]] [2] Sample.students).
  - reflexivity.
  - constructor; [|constructor].
    exists 3, 0, "x"%string, "2"%string. repeat split; reflexivity.
Defined.
